(** * GitHubClient: request dispatch, response cache and file protocol

    A shallow embedding of [src/files/github_client.py].  The client is a
    Python class whose methods mutate the instance ([self.cache],
    [self.request_count], [self.cached_requests]), call the network through
    [self.session] and read the wall clock.  Here the instance is a record
    threaded through every method, the network and the clock are a [World]
    whose transport answers come from a [server] function of the requests
    sent so far, and the bodies that run inside [try: ... except Exception:]
    are written in a small state-and-exception monad.

    Python values are dynamically typed: the values that flow through the
    client (JSON documents, keyword arguments, responses, cache entries) live
    in one universe [PyVal]. *)

From Stdlib Require Import ZArith Ascii String.
From Stdlib Require Floats.SpecFloat.
From stdpp Require Import gmap strings list fin_maps pretty.

Set Warnings "-register-all".

Local Open Scope string_scope.
Local Open Scope Z_scope.

(** ** Bytes and hexadecimal text *)

(** A Python [bytes] object is a list of octets, each a [Z] in [0, 256). *)
Abbreviation bytes := (list Z).

Definition byte_of_ascii (a : ascii) : Z := Z.of_N (Ascii.N_of_ascii a).
Definition ascii_of_byte (b : Z) : ascii := Ascii.ascii_of_N (Z.to_N (b mod 256)).

(** [s.encode()]: Python text is held as its UTF-8 octets, one [ascii] per
    octet, so encoding only changes the type. *)
Fixpoint encode (s : string) : bytes :=
  match s with
  | EmptyString => []
  | String a rest => byte_of_ascii a :: encode rest
  end.

(** [b.decode('utf-8')]: the octets become the text they encode.  The
    client decodes base64 text only, which is ASCII. *)
Fixpoint decode (b : bytes) : string :=
  match b with
  | [] => EmptyString
  | x :: rest => String (ascii_of_byte x) (decode rest)
  end.

Definition hex_digit (n : Z) : ascii :=
  if n <? 10 then ascii_of_byte (48 + n) else ascii_of_byte (87 + n).

Definition hex_byte (b : Z) : string :=
  String (hex_digit (b / 16)) (String (hex_digit (b mod 16)) EmptyString).

(** ** hashlib.md5

    The digest of RFC 1321 over 32-bit words held in [Z], with every
    wrap-around written out. *)
Module MD5.

Definition mask32 : Z := 0xffffffff.
Definition add32 (x y : Z) : Z := (x + y) mod 2 ^ 32.
Definition not32 (x : Z) : Z := Z.lxor x mask32.
Definition rotl32 (x n : Z) : Z :=
  Z.lor (Z.land (Z.shiftl x n) mask32) (Z.shiftr x (32 - n)).

Definition shifts : list Z :=
  [ 7; 12; 17; 22; 7; 12; 17; 22; 7; 12; 17; 22; 7; 12; 17; 22;
    5;  9; 14; 20; 5;  9; 14; 20; 5;  9; 14; 20; 5;  9; 14; 20;
    4; 11; 16; 23; 4; 11; 16; 23; 4; 11; 16; 23; 4; 11; 16; 23;
    6; 10; 15; 21; 6; 10; 15; 21; 6; 10; 15; 21; 6; 10; 15; 21 ].

(** [floor (2^32 * |sin (i + 1)|)] for [i] in [0, 64). *)
Definition sines : list Z :=
  [ 0xd76aa478; 0xe8c7b756; 0x242070db; 0xc1bdceee;
    0xf57c0faf; 0x4787c62a; 0xa8304613; 0xfd469501;
    0x698098d8; 0x8b44f7af; 0xffff5bb1; 0x895cd7be;
    0x6b901122; 0xfd987193; 0xa679438e; 0x49b40821;
    0xf61e2562; 0xc040b340; 0x265e5a51; 0xe9b6c7aa;
    0xd62f105d; 0x02441453; 0xd8a1e681; 0xe7d3fbc8;
    0x21e1cde6; 0xc33707d6; 0xf4d50d87; 0x455a14ed;
    0xa9e3e905; 0xfcefa3f8; 0x676f02d9; 0x8d2a4c8a;
    0xfffa3942; 0x8771f681; 0x6d9d6122; 0xfde5380c;
    0xa4beea44; 0x4bdecfa9; 0xf6bb4b60; 0xbebfbc70;
    0x289b7ec6; 0xeaa127fa; 0xd4ef3085; 0x04881d05;
    0xd9d4d039; 0xe6db99e5; 0x1fa27cf8; 0xc4ac5665;
    0xf4292244; 0x432aff97; 0xab9423a7; 0xfc93a039;
    0x655b59c3; 0x8f0ccc92; 0xffeff47d; 0x85845dd1;
    0x6fa87e4f; 0xfe2ce6e0; 0xa3014314; 0x4e0811a1;
    0xf7537e82; 0xbd3af235; 0x2ad7d2bb; 0xeb86d391 ].

Definition nthZ (l : list Z) (i : Z) : Z := nth (Z.to_nat i) l 0.

(** Little-endian octets of a word, and back. *)
Fixpoint le_bytes (n : nat) (x : Z) : bytes :=
  match n with
  | O => []
  | S n' => x mod 256 :: le_bytes n' (x / 256)
  end.

Fixpoint le_word (b : bytes) : Z :=
  match b with
  | [] => 0
  | x :: rest => x + 256 * le_word rest
  end.

(** Padding: a single 1 bit, zeros up to 56 mod 64, then the bit length
    on 64 bits. *)
Definition pad (msg : bytes) : bytes :=
  let len := Z.of_nat (length msg) in
  let zeros := Z.to_nat ((55 - len) mod 64) in
  msg ++ [128] ++ repeat 0 zeros ++ le_bytes 8 ((8 * len) mod 2 ^ 64).

Fixpoint chunks (fuel : nat) (k : nat) (b : bytes) : list bytes :=
  match fuel with
  | O => []
  | S fuel' =>
      match b with
      | [] => []
      | _ => take k b :: chunks fuel' k (drop k b)
      end
  end.

Definition words (block : bytes) : list Z :=
  map le_word (chunks 16 4 block).

Definition round (m : list Z) (st : Z * Z * Z * Z) (i : Z) : Z * Z * Z * Z :=
  let '(a, b, c, d) := st in
  let '(f, g) :=
    if i <? 16 then (Z.lor (Z.land b c) (Z.land (not32 b) d), i)
    else if i <? 32 then (Z.lor (Z.land d b) (Z.land (not32 d) c), (5 * i + 1) mod 16)
    else if i <? 48 then (Z.lxor (Z.lxor b c) d, (3 * i + 5) mod 16)
    else (Z.lxor c (Z.lor b (not32 d)), (7 * i) mod 16) in
  let f' := add32 (add32 (add32 f a) (nthZ sines i)) (nthZ m g) in
  (d, add32 b (rotl32 f' (nthZ shifts i)), b, c).

Definition compress (st : Z * Z * Z * Z) (block : bytes) : Z * Z * Z * Z :=
  let m := words block in
  let '(a0, b0, c0, d0) := st in
  let '(a, b, c, d) := fold_left (round m) (map Z.of_nat (seq 0 64)) st in
  (add32 a0 a, add32 b0 b, add32 c0 c, add32 d0 d).

Definition init : Z * Z * Z * Z :=
  (0x67452301, 0xefcdab89, 0x98badcfe, 0x10325476).

Definition digest (msg : bytes) : bytes :=
  let padded := pad msg in
  let '(a, b, c, d) :=
    fold_left compress (chunks (length padded) 64 padded) init in
  le_bytes 4 a ++ le_bytes 4 b ++ le_bytes 4 c ++ le_bytes 4 d.

Definition hexdigest (msg : bytes) : string :=
  fold_right (fun b acc => hex_byte b +:+ acc) "" (digest msg).

End MD5.

(** ** Python values *)

(** The values the client handles.  JSON numbers are integers (the client
    never computes with a number it receives); a dictionary keeps its items
    in insertion order and its keys are text, as in JSON documents and
    keyword arguments.  A [requests.Response] carries its status code, the
    result of [.json()] ([None] when the body does not parse and the call
    raises) and its raw [.content]. *)
Inductive PyVal : Type :=
| PyNone
| PyBool (b : bool)
| PyInt (n : Z)
| PyStr (s : string)
| PyBytes (b : bytes)
| PyTuple (items : list PyVal)
| PyList (items : list PyVal)
| PyDict (items : list (string * PyVal))
| PyResponse (status : Z) (body : option PyVal) (raw : bytes).

Abbreviation Kwargs := (list (string * PyVal)).

Record Response := mkResponse {
  status_code : Z;
  json : option PyVal;
  content : bytes
}.

Definition response_obj (r : Response) : PyVal :=
  PyResponse (status_code r) (json r) (content r).

(** *** [repr] and [str] *)

Definition is_printable (c : Z) : bool := (32 <=? c) && negb (c =? 127).

(** One character of a quoted literal, for the quote character [q]. *)
Definition escape_char (q : Z) (c : Z) : string :=
  if c =? 92 then "\\"
  else if c =? q then String "\" (String (ascii_of_byte q) "")
  else if c =? 9 then "\t"
  else if c =? 10 then "\n"
  else if c =? 13 then "\r"
  else if is_printable c then String (ascii_of_byte c) ""
  else "\x" +:+ hex_byte c.

Definition contains (c : Z) (b : bytes) : bool := existsb (Z.eqb c) b.

(** Python quotes with an apostrophe (39) unless the text has an apostrophe
    and no double quote (34). *)
Definition quote_for (b : bytes) : Z :=
  if contains 39 b && negb (contains 34 b) then 34 else 39.

Definition quoted (escape : Z -> Z -> string) (b : bytes) : string :=
  let q := quote_for b in
  String (ascii_of_byte q) ""
  +:+ fold_right (fun c acc => escape q c +:+ acc) "" b
  +:+ String (ascii_of_byte q) "".

(** The code points above ASCII for which [str.isprintable] is false, as
    inclusive ranges: the categories Cc, Cf, Cs, Co, Cn, Zl, Zp and Zs of
    the Unicode database that CPython 3.11 carries (Unicode 14.0.0). *)
Definition unprintable_ranges : list (Z * Z) :=
  [(128, 160); (173, 173); (888, 889); (896, 899); (907, 907); (909, 909);
    (930, 930); (1328, 1328); (1367, 1368); (1419, 1420); (1424, 1424);
    (1480, 1487); (1515, 1518); (1525, 1541); (1564, 1564); (1757, 1757);
    (1806, 1807); (1867, 1868); (1970, 1983); (2043, 2044); (2094, 2095);
    (2111, 2111); (2140, 2141); (2143, 2143); (2155, 2159); (2191, 2199);
    (2274, 2274); (2436, 2436); (2445, 2446); (2449, 2450); (2473, 2473);
    (2481, 2481); (2483, 2485); (2490, 2491); (2501, 2502); (2505, 2506);
    (2511, 2518); (2520, 2523); (2526, 2526); (2532, 2533); (2559, 2560);
    (2564, 2564); (2571, 2574); (2577, 2578); (2601, 2601); (2609, 2609);
    (2612, 2612); (2615, 2615); (2618, 2619); (2621, 2621); (2627, 2630);
    (2633, 2634); (2638, 2640); (2642, 2648); (2653, 2653); (2655, 2661);
    (2679, 2688); (2692, 2692); (2702, 2702); (2706, 2706); (2729, 2729);
    (2737, 2737); (2740, 2740); (2746, 2747); (2758, 2758); (2762, 2762);
    (2766, 2767); (2769, 2783); (2788, 2789); (2802, 2808); (2816, 2816);
    (2820, 2820); (2829, 2830); (2833, 2834); (2857, 2857); (2865, 2865);
    (2868, 2868); (2874, 2875); (2885, 2886); (2889, 2890); (2894, 2900);
    (2904, 2907); (2910, 2910); (2916, 2917); (2936, 2945); (2948, 2948);
    (2955, 2957); (2961, 2961); (2966, 2968); (2971, 2971); (2973, 2973);
    (2976, 2978); (2981, 2983); (2987, 2989); (3002, 3005); (3011, 3013);
    (3017, 3017); (3022, 3023); (3025, 3030); (3032, 3045); (3067, 3071);
    (3085, 3085); (3089, 3089); (3113, 3113); (3130, 3131); (3141, 3141);
    (3145, 3145); (3150, 3156); (3159, 3159); (3163, 3164); (3166, 3167);
    (3172, 3173); (3184, 3190); (3213, 3213); (3217, 3217); (3241, 3241);
    (3252, 3252); (3258, 3259); (3269, 3269); (3273, 3273); (3278, 3284);
    (3287, 3292); (3295, 3295); (3300, 3301); (3312, 3312); (3315, 3327);
    (3341, 3341); (3345, 3345); (3397, 3397); (3401, 3401); (3408, 3411);
    (3428, 3429); (3456, 3456); (3460, 3460); (3479, 3481); (3506, 3506);
    (3516, 3516); (3518, 3519); (3527, 3529); (3531, 3534); (3541, 3541);
    (3543, 3543); (3552, 3557); (3568, 3569); (3573, 3584); (3643, 3646);
    (3676, 3712); (3715, 3715); (3717, 3717); (3723, 3723); (3748, 3748);
    (3750, 3750); (3774, 3775); (3781, 3781); (3783, 3783); (3790, 3791);
    (3802, 3803); (3808, 3839); (3912, 3912); (3949, 3952); (3992, 3992);
    (4029, 4029); (4045, 4045); (4059, 4095); (4294, 4294); (4296, 4300);
    (4302, 4303); (4681, 4681); (4686, 4687); (4695, 4695); (4697, 4697);
    (4702, 4703); (4745, 4745); (4750, 4751); (4785, 4785); (4790, 4791);
    (4799, 4799); (4801, 4801); (4806, 4807); (4823, 4823); (4881, 4881);
    (4886, 4887); (4955, 4956); (4989, 4991); (5018, 5023); (5110, 5111);
    (5118, 5119); (5760, 5760); (5789, 5791); (5881, 5887); (5910, 5918);
    (5943, 5951); (5972, 5983); (5997, 5997); (6001, 6001); (6004, 6015);
    (6110, 6111); (6122, 6127); (6138, 6143); (6158, 6158); (6170, 6175);
    (6265, 6271); (6315, 6319); (6390, 6399); (6431, 6431); (6444, 6447);
    (6460, 6463); (6465, 6467); (6510, 6511); (6517, 6527); (6572, 6575);
    (6602, 6607); (6619, 6621); (6684, 6685); (6751, 6751); (6781, 6782);
    (6794, 6799); (6810, 6815); (6830, 6831); (6863, 6911); (6989, 6991);
    (7039, 7039); (7156, 7163); (7224, 7226); (7242, 7244); (7305, 7311);
    (7355, 7356); (7368, 7375); (7419, 7423); (7958, 7959); (7966, 7967);
    (8006, 8007); (8014, 8015); (8024, 8024); (8026, 8026); (8028, 8028);
    (8030, 8030); (8062, 8063); (8117, 8117); (8133, 8133); (8148, 8149);
    (8156, 8156); (8176, 8177); (8181, 8181); (8191, 8207); (8232, 8239);
    (8287, 8303); (8306, 8307); (8335, 8335); (8349, 8351); (8385, 8399);
    (8433, 8447); (8588, 8591); (9255, 9279); (9291, 9311); (11124, 11125);
    (11158, 11158); (11508, 11512); (11558, 11558); (11560, 11564);
    (11566, 11567); (11624, 11630); (11633, 11646); (11671, 11679);
    (11687, 11687); (11695, 11695); (11703, 11703); (11711, 11711);
    (11719, 11719); (11727, 11727); (11735, 11735); (11743, 11743);
    (11870, 11903); (11930, 11930); (12020, 12031); (12246, 12271);
    (12284, 12288); (12352, 12352); (12439, 12440); (12544, 12548);
    (12592, 12592); (12687, 12687); (12772, 12783); (12831, 12831);
    (42125, 42127); (42183, 42191); (42540, 42559); (42744, 42751);
    (42955, 42959); (42962, 42962); (42964, 42964); (42970, 42993);
    (43053, 43055); (43066, 43071); (43128, 43135); (43206, 43213);
    (43226, 43231); (43348, 43358); (43389, 43391); (43470, 43470);
    (43482, 43485); (43519, 43519); (43575, 43583); (43598, 43599);
    (43610, 43611); (43715, 43738); (43767, 43776); (43783, 43784);
    (43791, 43792); (43799, 43807); (43815, 43815); (43823, 43823);
    (43884, 43887); (44014, 44015); (44026, 44031); (55204, 55215);
    (55239, 55242); (55292, 63743); (64110, 64111); (64218, 64255);
    (64263, 64274); (64280, 64284); (64311, 64311); (64317, 64317);
    (64319, 64319); (64322, 64322); (64325, 64325); (64451, 64466);
    (64912, 64913); (64968, 64974); (64976, 65007); (65050, 65055);
    (65107, 65107); (65127, 65127); (65132, 65135); (65141, 65141);
    (65277, 65280); (65471, 65473); (65480, 65481); (65488, 65489);
    (65496, 65497); (65501, 65503); (65511, 65511); (65519, 65531);
    (65534, 65535); (65548, 65548); (65575, 65575); (65595, 65595);
    (65598, 65598); (65614, 65615); (65630, 65663); (65787, 65791);
    (65795, 65798); (65844, 65846); (65935, 65935); (65949, 65951);
    (65953, 65999); (66046, 66175); (66205, 66207); (66257, 66271);
    (66300, 66303); (66340, 66348); (66379, 66383); (66427, 66431);
    (66462, 66462); (66500, 66503); (66518, 66559); (66718, 66719);
    (66730, 66735); (66772, 66775); (66812, 66815); (66856, 66863);
    (66916, 66926); (66939, 66939); (66955, 66955); (66963, 66963);
    (66966, 66966); (66978, 66978); (66994, 66994); (67002, 67002);
    (67005, 67071); (67383, 67391); (67414, 67423); (67432, 67455);
    (67462, 67462); (67505, 67505); (67515, 67583); (67590, 67591);
    (67593, 67593); (67638, 67638); (67641, 67643); (67645, 67646);
    (67670, 67670); (67743, 67750); (67760, 67807); (67827, 67827);
    (67830, 67834); (67868, 67870); (67898, 67902); (67904, 67967);
    (68024, 68027); (68048, 68049); (68100, 68100); (68103, 68107);
    (68116, 68116); (68120, 68120); (68150, 68151); (68155, 68158);
    (68169, 68175); (68185, 68191); (68256, 68287); (68327, 68330);
    (68343, 68351); (68406, 68408); (68438, 68439); (68467, 68471);
    (68498, 68504); (68509, 68520); (68528, 68607); (68681, 68735);
    (68787, 68799); (68851, 68857); (68904, 68911); (68922, 69215);
    (69247, 69247); (69290, 69290); (69294, 69295); (69298, 69375);
    (69416, 69423); (69466, 69487); (69514, 69551); (69580, 69599);
    (69623, 69631); (69710, 69713); (69750, 69758); (69821, 69821);
    (69827, 69839); (69865, 69871); (69882, 69887); (69941, 69941);
    (69960, 69967); (70007, 70015); (70112, 70112); (70133, 70143);
    (70162, 70162); (70207, 70271); (70279, 70279); (70281, 70281);
    (70286, 70286); (70302, 70302); (70314, 70319); (70379, 70383);
    (70394, 70399); (70404, 70404); (70413, 70414); (70417, 70418);
    (70441, 70441); (70449, 70449); (70452, 70452); (70458, 70458);
    (70469, 70470); (70473, 70474); (70478, 70479); (70481, 70486);
    (70488, 70492); (70500, 70501); (70509, 70511); (70517, 70655);
    (70748, 70748); (70754, 70783); (70856, 70863); (70874, 71039);
    (71094, 71095); (71134, 71167); (71237, 71247); (71258, 71263);
    (71277, 71295); (71354, 71359); (71370, 71423); (71451, 71452);
    (71468, 71471); (71495, 71679); (71740, 71839); (71923, 71934);
    (71943, 71944); (71946, 71947); (71956, 71956); (71959, 71959);
    (71990, 71990); (71993, 71994); (72007, 72015); (72026, 72095);
    (72104, 72105); (72152, 72153); (72165, 72191); (72264, 72271);
    (72355, 72367); (72441, 72703); (72713, 72713); (72759, 72759);
    (72774, 72783); (72813, 72815); (72848, 72849); (72872, 72872);
    (72887, 72959); (72967, 72967); (72970, 72970); (73015, 73017);
    (73019, 73019); (73022, 73022); (73032, 73039); (73050, 73055);
    (73062, 73062); (73065, 73065); (73103, 73103); (73106, 73106);
    (73113, 73119); (73130, 73439); (73465, 73647); (73649, 73663);
    (73714, 73726); (74650, 74751); (74863, 74863); (74869, 74879);
    (75076, 77711); (77811, 77823); (78895, 82943); (83527, 92159);
    (92729, 92735); (92767, 92767); (92778, 92781); (92863, 92863);
    (92874, 92879); (92910, 92911); (92918, 92927); (92998, 93007);
    (93018, 93018); (93026, 93026); (93048, 93052); (93072, 93759);
    (93851, 93951); (94027, 94030); (94088, 94094); (94112, 94175);
    (94181, 94191); (94194, 94207); (100344, 100351); (101590, 101631);
    (101641, 110575); (110580, 110580); (110588, 110588); (110591, 110591);
    (110883, 110927); (110931, 110947); (110952, 110959); (111356, 113663);
    (113771, 113775); (113789, 113791); (113801, 113807); (113818, 113819);
    (113824, 118527); (118574, 118575); (118599, 118607); (118724, 118783);
    (119030, 119039); (119079, 119080); (119155, 119162); (119275, 119295);
    (119366, 119519); (119540, 119551); (119639, 119647); (119673, 119807);
    (119893, 119893); (119965, 119965); (119968, 119969); (119971, 119972);
    (119975, 119976); (119981, 119981); (119994, 119994); (119996, 119996);
    (120004, 120004); (120070, 120070); (120075, 120076); (120085, 120085);
    (120093, 120093); (120122, 120122); (120127, 120127); (120133, 120133);
    (120135, 120137); (120145, 120145); (120486, 120487); (120780, 120781);
    (121484, 121498); (121504, 121504); (121520, 122623); (122655, 122879);
    (122887, 122887); (122905, 122906); (122914, 122914); (122917, 122917);
    (122923, 123135); (123181, 123183); (123198, 123199); (123210, 123213);
    (123216, 123535); (123567, 123583); (123642, 123646); (123648, 124895);
    (124903, 124903); (124908, 124908); (124911, 124911); (124927, 124927);
    (125125, 125126); (125143, 125183); (125260, 125263); (125274, 125277);
    (125280, 126064); (126133, 126208); (126270, 126463); (126468, 126468);
    (126496, 126496); (126499, 126499); (126501, 126502); (126504, 126504);
    (126515, 126515); (126520, 126520); (126522, 126522); (126524, 126529);
    (126531, 126534); (126536, 126536); (126538, 126538); (126540, 126540);
    (126544, 126544); (126547, 126547); (126549, 126550); (126552, 126552);
    (126554, 126554); (126556, 126556); (126558, 126558); (126560, 126560);
    (126563, 126563); (126565, 126566); (126571, 126571); (126579, 126579);
    (126584, 126584); (126589, 126589); (126591, 126591); (126602, 126602);
    (126620, 126624); (126628, 126628); (126634, 126634); (126652, 126703);
    (126706, 126975); (127020, 127023); (127124, 127135); (127151, 127152);
    (127168, 127168); (127184, 127184); (127222, 127231); (127406, 127461);
    (127491, 127503); (127548, 127551); (127561, 127567); (127570, 127583);
    (127590, 127743); (128728, 128732); (128749, 128751); (128765, 128767);
    (128884, 128895); (128985, 128991); (129004, 129007); (129009, 129023);
    (129036, 129039); (129096, 129103); (129114, 129119); (129160, 129167);
    (129198, 129199); (129202, 129279); (129620, 129631); (129646, 129647);
    (129653, 129655); (129661, 129663); (129671, 129679); (129709, 129711);
    (129723, 129727); (129734, 129743); (129754, 129759); (129768, 129775);
    (129783, 129791); (129939, 129939); (129995, 130031); (130042, 131071);
    (173792, 173823); (177977, 177983); (178206, 178207); (183970, 183983);
    (191457, 194559); (195102, 196607); (201547, 917759); (918000, 1114111) ].

Definition printable_code_point (cp : Z) : bool :=
  negb (existsb (fun r => (fst r <=? cp) && (cp <=? snd r)) unprintable_ranges).

(** The escape of a code point that is not printable: two, four or eight
    hexadecimal digits by its size. *)
Definition escape_code_point (cp : Z) : string :=
  if cp <? 256 then "\x" +:+ hex_byte cp
  else if cp <? 65536 then "\u" +:+ hex_byte (cp / 256) +:+ hex_byte (cp mod 256)
  else "\U" +:+ hex_byte (cp / 16777216) +:+ hex_byte (cp / 65536 mod 256)
       +:+ hex_byte (cp / 256 mod 256) +:+ hex_byte (cp mod 256).

(** A character above ASCII, given by its code point and its octets: kept
    when printable, escaped otherwise. *)
Definition escape_wide (cp : Z) (octets : bytes) : string :=
  if printable_code_point cp then decode octets else escape_code_point cp.

(** An octet that continues a UTF-8 sequence. *)
Definition continuation (c : Z) : bool := (128 <=? c) && (c <=? 191).

(** The characters of a quoted text literal, for the quote character [q].
    The text is read as UTF-8, one character of one to four octets at a
    time; an octet that starts no such sequence belongs to no Python text
    and is kept as it is. *)
Fixpoint escape_text (q : Z) (b : bytes) : string :=
  match b with
  | [] => ""
  | c :: rest =>
      if c <? 128 then escape_char q c +:+ escape_text q rest
      else
        match rest with
        | c1 :: rest1 =>
            if (194 <=? c) && (c <=? 223) && continuation c1 then
              escape_wide ((c - 192) * 64 + (c1 - 128)) [c; c1]
              +:+ escape_text q rest1
            else
              match rest1 with
              | c2 :: rest2 =>
                  if (224 <=? c) && (c <=? 239) && continuation c1
                     && continuation c2 then
                    escape_wide ((c - 224) * 4096 + (c1 - 128) * 64 + (c2 - 128))
                                [c; c1; c2]
                    +:+ escape_text q rest2
                  else
                    match rest2 with
                    | c3 :: rest3 =>
                        if (240 <=? c) && (c <=? 244) && continuation c1
                           && continuation c2 && continuation c3 then
                          escape_wide ((c - 240) * 262144 + (c1 - 128) * 4096
                                       + (c2 - 128) * 64 + (c3 - 128))
                                      [c; c1; c2; c3]
                          +:+ escape_text q rest3
                        else String (ascii_of_byte c) "" +:+ escape_text q rest
                    | [] => String (ascii_of_byte c) "" +:+ escape_text q rest
                    end
              | [] => String (ascii_of_byte c) "" +:+ escape_text q rest
              end
        | [] => String (ascii_of_byte c) ""
        end
  end.

(** [repr] of a [str]: the quote is chosen as for any literal, control
    characters and the quote are escaped, and a character above ASCII is
    kept when it is printable and escaped when it is not. *)
Definition repr_str (s : string) : string :=
  let b := encode s in
  let q := quote_for b in
  String (ascii_of_byte q) "" +:+ escape_text q b +:+ String (ascii_of_byte q) "".

(** [repr] of a [bytes]: every octet outside printable ASCII is escaped. *)
Definition escape_byte (q : Z) (c : Z) : string :=
  if 128 <=? c then "\x" +:+ hex_byte c else escape_char q c.

Definition repr_bytes (b : bytes) : string := "b" +:+ quoted escape_byte b.

Fixpoint join (sep : string) (l : list string) : string :=
  match l with
  | [] => ""
  | [x] => x
  | x :: rest => x +:+ sep +:+ join sep rest
  end.

Fixpoint repr (v : PyVal) : string :=
  match v with
  | PyNone => "None"
  | PyBool true => "True"
  | PyBool false => "False"
  | PyInt n => pretty n
  | PyStr s => repr_str s
  | PyBytes b => repr_bytes b
  | PyTuple items =>
      match items with
      | [x] => "(" +:+ repr x +:+ ",)"
      | _ => "(" +:+ join ", " (List.map repr items) +:+ ")"
      end
  | PyList items => "[" +:+ join ", " (List.map repr items) +:+ "]"
  | PyDict items =>
      "{" +:+ join ", " (List.map (fun kv => repr_str (fst kv) +:+ ": " +:+ repr (snd kv)) items) +:+ "}"
  | PyResponse status _ _ => "<Response [" +:+ pretty status +:+ "]>"
  end.

(** [str(v)], also what an f-string field formats to. *)
Definition str (v : PyVal) : string :=
  match v with
  | PyStr s => s
  | _ => repr v
  end.

(** ** base64 *)
Module Base64.

Definition alphabet : bytes :=
  encode "ABCDEFGHIJKLMNOPQRSTUVWXYZabcdefghijklmnopqrstuvwxyz0123456789+/".

Definition enc (n : Z) : Z := nth (Z.to_nat n) alphabet 0.

(** [base64.b64encode]: three octets become four characters, the tail is
    padded with [=] (61). *)
Fixpoint b64encode (b : bytes) : bytes :=
  match b with
  | [] => []
  | [x] => [enc (x / 4); enc (x mod 4 * 16); 61; 61]
  | [x; y] => [enc (x / 4); enc (x mod 4 * 16 + y / 16); enc (y mod 16 * 4); 61]
  | x :: y :: z :: rest =>
      enc (x / 4) :: enc (x mod 4 * 16 + y / 16)
      :: enc (y mod 16 * 4 + z / 64) :: enc (z mod 64) :: b64encode rest
  end.

(** The value of a character of the alphabet, [None] for any other. *)
Definition dec (c : Z) : option Z :=
  if (65 <=? c) && (c <=? 90) then Some (c - 65)
  else if (97 <=? c) && (c <=? 122) then Some (c - 71)
  else if (48 <=? c) && (c <=? 57) then Some (c + 4)
  else if c =? 43 then Some 62
  else if c =? 47 then Some 63
  else None.

(** [binascii.a2b_base64] as [base64.b64decode] calls it (not strict):
    characters outside the alphabet are skipped, a complete pad sequence
    ends the input, and a quad left open at the end is an error
    ([None]). *)
Fixpoint a2b_base64 (input : bytes) (quad_pos leftchar pads : Z) (out : bytes)
  : option bytes :=
  match input with
  | [] => if quad_pos =? 0 then Some out else None
  | c :: rest =>
      if c =? 61 then
        if (2 <=? quad_pos) && (4 <=? quad_pos + (pads + 1)) then Some out
        else a2b_base64 rest quad_pos leftchar
               (if 2 <=? quad_pos then pads + 1 else pads) out
      else
        match dec c with
        | None => a2b_base64 rest quad_pos leftchar pads out
        | Some v =>
            if quad_pos =? 0 then a2b_base64 rest 1 v 0 out
            else if quad_pos =? 1 then
              a2b_base64 rest 2 (v mod 16) 0 (out ++ [leftchar * 4 + v / 16])
            else if quad_pos =? 2 then
              a2b_base64 rest 3 (v mod 4) 0 (out ++ [leftchar * 16 + v / 4])
            else
              a2b_base64 rest 0 0 0 (out ++ [leftchar * 64 + v])
        end
  end.

End Base64.

(** *** Operations on values that can raise *)

(** The exception classes the client can meet.  All derive from
    [Exception]; [ValueError] stands for its subclasses too (a body that is
    not JSON, a base64 quad left open). *)
Inductive Exn : Type :=
| RequestsTimeout
| RequestsConnectionError
| AttributeError
| KeyError
| TypeError
| ValueError
| OtherException.

Inductive Result (A : Type) : Type :=
| Ok (a : A)
| Raise (e : Exn).
Arguments Ok {A} a.
Arguments Raise {A} e.

(** [Response.ok]: no 4xx or 5xx status. *)
Definition ok (status : Z) : bool := negb ((400 <=? status) && (status <? 600)).

(** Truth value of an object, as [if v:] and [v and ...] test it. *)
Definition truthy (v : PyVal) : bool :=
  match v with
  | PyNone => false
  | PyBool b => b
  | PyInt n => negb (n =? 0)
  | PyStr s => negb (String.eqb s "")
  | PyBytes b => negb (Z.of_nat (length b) =? 0)
  | PyTuple items | PyList items => negb (Z.of_nat (length items) =? 0)
  | PyDict items => negb (Z.of_nat (length items) =? 0)
  | PyResponse status _ _ => ok status
  end.

Fixpoint lookup_item (k : string) (items : list (string * PyVal)) : option PyVal :=
  match items with
  | [] => None
  | (k', v) :: rest => if String.eqb k k' then Some v else lookup_item k rest
  end.

(** [k in d] for a dictionary. *)
Definition has_key (k : string) (items : list (string * PyVal)) : bool :=
  match lookup_item k items with Some _ => true | None => false end.

(** [v.get(k, default)]: only a dictionary has the method. *)
Definition py_get (v : PyVal) (k : string) (default : PyVal) : Result PyVal :=
  match v with
  | PyDict items =>
      match lookup_item k items with Some x => Ok x | None => Ok default end
  | _ => Raise AttributeError
  end.

(** [v[k]] for a text key: a missing key, or an object that is not a
    dictionary, raises. *)
Definition py_getitem (v : PyVal) (k : string) : Result PyVal :=
  match v with
  | PyDict items =>
      match lookup_item k items with Some x => Ok x | None => Raise KeyError end
  | _ => Raise TypeError
  end.

(** [len(v)]. *)
Definition py_len (v : PyVal) : Result Z :=
  match v with
  | PyStr s => Ok (Z.of_nat (String.length s))
  | PyBytes b => Ok (Z.of_nat (length b))
  | PyTuple items | PyList items => Ok (Z.of_nat (length items))
  | PyDict items => Ok (Z.of_nat (length items))
  | _ => Raise TypeError
  end.

(** [response.status_code], [response.json()], [response.content]. *)
Definition py_status_code (v : PyVal) : Result Z :=
  match v with
  | PyResponse status _ _ => Ok status
  | _ => Raise AttributeError
  end.

Definition py_json (v : PyVal) : Result PyVal :=
  match v with
  | PyResponse _ (Some doc) _ => Ok doc
  | PyResponse _ None _ => Raise ValueError
  | _ => Raise AttributeError
  end.

(** [base64.b64decode(v)]: text must be ASCII, anything that is neither
    text nor bytes is a [TypeError]. *)
Definition b64decode (v : PyVal) : Result bytes :=
  match v with
  | PyStr s =>
      if forallb (fun c => c <? 128) (encode s) then
        match Base64.a2b_base64 (encode s) 0 0 0 [] with
        | Some b => Ok b
        | None => Raise ValueError
        end
      else Raise ValueError
  | PyBytes b =>
      match Base64.a2b_base64 b 0 0 0 [] with
      | Some b' => Ok b'
      | None => Raise ValueError
      end
  | _ => Raise TypeError
  end.

(** [s.upper()] on ASCII letters; no other character maps to a letter of
    [GET]. *)
Definition upper_char (a : ascii) : ascii :=
  let c := byte_of_ascii a in
  if (97 <=? c) && (c <=? 122) then ascii_of_byte (c - 32) else a.

Fixpoint upper (s : string) : string :=
  match s with
  | EmptyString => EmptyString
  | String a rest => String (upper_char a) (upper rest)
  end.

(** [range(n)]. *)
Definition range (n : Z) : list Z := List.map Z.of_nat (seq 0 (Z.to_nat n)).

(** ** The world and the client *)

(** A physical request, as handed to [self.session]. *)
Record Request := mkRequest {
  method : string;
  url : PyVal;
  kwargs : Kwargs
}.

(** What one call into the session produces. *)
Inductive Outcome : Type :=
| Responded (r : Response)
| Raised (e : Exn).

(** The world outside the client: the wall clock in microseconds, every
    request the session has sent (oldest first), every [time.sleep] made
    (in seconds), and the remote end, which answers a request knowing the
    requests before it and says how long the exchange took.  The retry
    adapter that [_setup_session] mounts works inside the session, below
    this boundary: [own_session] builds the [server] of a client with that
    adapter from the exchanges on the wire. *)
Record World := mkWorld {
  now : Z;
  history : list Request;
  slept : list Z;
  server : list Request -> Request -> Outcome * Z
}.

Definition seconds (n : Z) : Z := n * 1000000.

(** An entry of a cache: the value and [datetime.now()] when it was stored. *)
Abbreviation Entries := (gmap string (PyVal * Z)).

(** The instance attributes of a [GitHubClient]. *)
Record Client := mkClient {
  token : string;
  username : string;
  cache : Entries;
  cache_expiry : Z;
  session_open : bool;
  request_count : Z;
  cached_requests : Z
}.

(** The two dictionaries that [cache_result] creates when the class body is
    executed, one per decorated method.  They belong to the functions, not
    to an instance. *)
Record Memos := mkMemos {
  get_user_repos_memo : Entries;
  list_files_memo : Entries
}.

Inductive Decorated : Type := GetUserRepos | ListFiles.

Definition memo_of (f : Decorated) (m : Memos) : Entries :=
  match f with
  | GetUserRepos => get_user_repos_memo m
  | ListFiles => list_files_memo m
  end.

Definition set_memo (f : Decorated) (e : Entries) (m : Memos) : Memos :=
  match f with
  | GetUserRepos => mkMemos e (list_files_memo m)
  | ListFiles => mkMemos (get_user_repos_memo m) e
  end.

Record State := mkState {
  self : Client;
  memos : Memos;
  world : World
}.

(** [GitHubClient.__init__] *)
Definition init_client (tok user : string) : Client :=
  mkClient tok user ∅ 300 true 0 0.

Definition base_url : string := "https://api.github.com".

(** *** Field updates *)

Definition set_cache (e : Entries) (c : Client) : Client :=
  mkClient (token c) (username c) e (cache_expiry c) (session_open c)
           (request_count c) (cached_requests c).

Definition set_session_open (b : bool) (c : Client) : Client :=
  mkClient (token c) (username c) (cache c) (cache_expiry c) b
           (request_count c) (cached_requests c).

Definition set_request_count (n : Z) (c : Client) : Client :=
  mkClient (token c) (username c) (cache c) (cache_expiry c) (session_open c)
           n (cached_requests c).

Definition set_cached_requests (n : Z) (c : Client) : Client :=
  mkClient (token c) (username c) (cache c) (cache_expiry c) (session_open c)
           (request_count c) n.

Definition on_self (f : Client -> Client) (st : State) : State :=
  mkState (f (self st)) (memos st) (world st).

Definition on_memos (f : Memos -> Memos) (st : State) : State :=
  mkState (self st) (f (memos st)) (world st).

Definition on_world (f : World -> World) (st : State) : State :=
  mkState (self st) (memos st) (f (world st)).

(** ** The monad of method bodies

    A computation reads and writes the state and either returns or raises;
    what it wrote before raising stays written. *)
Definition M (A : Type) : Type := State -> Result A * State.

Definition ret {A} (a : A) : M A := fun st => (Ok a, st).

Definition raise {A} (e : Exn) : M A := fun st => (Raise e, st).

Definition bind {A B} (c : M A) (k : A -> M B) : M B :=
  fun st =>
    match c st with
    | (Ok a, st') => k a st'
    | (Raise e, st') => (Raise e, st')
    end.

Definition lift {A} (r : Result A) : M A := fun st => (r, st).

Definition gets {A} (f : State -> A) : M A := fun st => (Ok (f st), st).

Definition modify (f : State -> State) : M unit := fun st => (Ok tt, f st).

(** [try: body / except Exception as e: handler e] *)
Definition try_except {A} (body : M A) (handler : Exn -> M A) : M A :=
  fun st =>
    match body st with
    | (Ok a, st') => (Ok a, st')
    | (Raise e, st') => handler e st'
    end.

Declare Scope monad_scope.
Delimit Scope monad_scope with monad.
Notation "x <- c1 ;; c2" := (bind c1 (fun x => c2))
  (at level 100, c1 at next level, right associativity) : monad_scope.
Notation "c1 ;; c2" := (bind c1 (fun _ => c2))
  (at level 100, right associativity) : monad_scope.
Local Open Scope monad_scope.

(** *** Effects *)

(** [datetime.now()] *)
Definition datetime_now : M Z := gets (fun st => now (world st)).

(** [time.sleep(s)] *)
Definition time_sleep (s : Z) : M unit :=
  modify (on_world (fun w =>
    mkWorld (now w + seconds s) (history w) (slept w ++ [s]) (server w))).

(** One call into [self.session]: the request is sent, the remote end
    answers or the call raises, and the clock moves on.  The [server] of
    the world stands for the session of any client; [own_session] below is
    the session that [_setup_session] configures. *)
Definition session_request (req : Request) : M Response :=
  fun st =>
    let w := world st in
    let '(outcome, elapsed) := server w (history w) req in
    let st' := on_world (fun _ =>
      mkWorld (now w + elapsed) (history w ++ [req]) (slept w) (server w)) st in
    match outcome with
    | Responded r => (Ok r, st')
    | Raised e => (Raise e, st')
    end.

(** ** The session's own transport

    [_setup_session] mounts on the session, for [http://] and [https://],
    an adapter with
    [Retry(total=3, backoff_factor=1,
           status_forcelist=[429, 500, 502, 503, 504],
           allowed_methods=[HEAD, GET, OPTIONS, POST, PUT, DELETE])].
    One call into the session is therefore up to four exchanges on the
    wire: the adapter sends the request again after an exchange that
    failed or that was answered with a status of the list, and when no
    retry is left it raises.  Only what the session hands up or raises
    reaches the client.  A response is taken to carry no [Retry-After]
    header. *)

(** What one exchange on the wire comes to. *)
Inductive WireOutcome : Type :=
| Answered (r : Response)
| ConnectTimedOut
| ConnectFailed
| ReadTimedOut
| ConnectionBroken.

Definition status_forcelist : list Z := [429; 500; 502; 503; 504].

Definition allowed_methods : list string :=
  ["HEAD"; "GET"; "OPTIONS"; "POST"; "PUT"; "DELETE"].

Definition total_retries : nat := 3.

(** [Retry._is_method_retryable]: the method, in upper case, is allowed. *)
Definition method_retryable (m : string) : bool :=
  existsb (String.eqb (upper m)) allowed_methods.

(** [Retry.get_backoff_time] after [failures] failed exchanges in a row,
    in seconds: nothing before the first retry, then [backoff_factor * 2 ^
    (failures - 1)], at most 120. *)
Definition adapter_backoff (failures : nat) : Z :=
  if (failures <=? 1)%nat then 0 else Z.min 120 (2 ^ (Z.of_nat failures - 1)).

(** What the adapter makes of one exchange: it hands an outcome up to the
    caller of the session, or counts a failure; [TryAgain e] also names the
    exception of [requests] that the session raises when no retry is left
    ([RetryError] is [OtherException] here, [ConnectTimeout] is caught as a
    timeout, a read timeout that ran out of retries is a
    [ConnectionError]).  A connection that cannot be set up is retried for
    every method; a status of the list and a failure while reading only for
    an allowed method. *)
Inductive Verdict : Type :=
| HandUp (o : Outcome)
| TryAgain (e : Exn).

Definition verdict (m : string) (o : WireOutcome) : Verdict :=
  match o with
  | Answered r =>
      if method_retryable m && existsb (Z.eqb (status_code r)) status_forcelist
      then TryAgain OtherException
      else HandUp (Responded r)
  | ConnectTimedOut => TryAgain RequestsTimeout
  | ConnectFailed => TryAgain RequestsConnectionError
  | ReadTimedOut =>
      if method_retryable m then TryAgain RequestsConnectionError
      else HandUp (Raised RequestsTimeout)
  | ConnectionBroken =>
      if method_retryable m then TryAgain RequestsConnectionError
      else HandUp (Raised RequestsConnectionError)
  end.

(** [HTTPAdapter.send] with the retries of the adapter: [left] retries
    remain, [failures] exchanges have failed in a row, [elapsed]
    microseconds have passed and [wire_sent] went over the wire.  The
    result is what the session call comes to, the time it took (the
    adapter's own sleeps included) and the wire afterwards. *)
Fixpoint adapter_send (wire : list Request -> Request -> WireOutcome * Z)
    (left failures : nat) (elapsed : Z) (wire_sent : list Request) (req : Request)
  : Outcome * Z * list Request :=
  let '(o, dt) := wire wire_sent req in
  match verdict (method req) o with
  | HandUp out => (out, elapsed + dt, wire_sent ++ [req])%list
  | TryAgain e =>
      match left with
      | O => (Raised e, elapsed + dt, wire_sent ++ [req])%list
      | S left' =>
          adapter_send wire left' (S failures)
            (elapsed + dt + seconds (adapter_backoff (S failures)))
            (wire_sent ++ [req])%list req
      end
  end.

Definition session_send (wire : list Request -> Request -> WireOutcome * Z)
    (wire_sent : list Request) (req : Request) : Outcome * Z * list Request :=
  adapter_send wire total_retries 0 0 wire_sent req.

(** What went over the wire by the time the session has served the calls
    [sent]. *)
Definition wire_history (wire : list Request -> Request -> WireOutcome * Z)
    (sent : list Request) : list Request :=
  fold_left (fun wire_sent req => snd (session_send wire wire_sent req)) sent [].

(** The remote end as the client sees it through its own session. *)
Definition own_session (wire : list Request -> Request -> WireOutcome * Z)
  : list Request -> Request -> Outcome * Z :=
  fun sent req => fst (session_send wire (wire_history wire sent) req).


(** A wire that plays a script, one outcome per exchange; once the script
    is over no connection can be set up. *)
Definition wire_scripted (script : list WireOutcome) (latency : Z)
  : list Request -> Request -> WireOutcome * Z :=
  fun wire_sent _ => (nth (length wire_sent) script ConnectFailed, latency).

(** [now - timestamp < timedelta(seconds=ttl)] on the entry under [key]. *)
Definition fresh_entry (ttl : Z) (key : string) (entries : Entries) (t : Z)
  : option PyVal :=
  match entries !! key with
  | Some (v, timestamp) => if t - timestamp <? seconds ttl then Some v else None
  | None => None
  end.

(** [self.cache[key] = (value, datetime.now())] *)
Definition cache_put (key : string) (value : PyVal) : M unit :=
  t <- datetime_now ;;
  modify (on_self (fun c => set_cache (<[key := (value, t)]> (cache c)) c)).

(** [if response is None] *)
Definition is_none (v : PyVal) : bool :=
  match v with PyNone => true | _ => false end.

(** [v == 'text'] *)
Definition eq_str (v : PyVal) (s : string) : bool :=
  match v with PyStr s' => String.eqb s' s | _ => false end.

(** ** GitHubClient._make_request *)

(** The statuses the loop retries. *)
Definition retry_statuses : list Z := [429; 500; 502; 503; 504].

Definition retryable (status : Z) : bool := existsb (Z.eqb status) retry_statuses.

(** [hashlib.md5((url + str(kwargs)).encode()).hexdigest()] *)
Definition request_cache_key (url : string) (kwargs : Kwargs) : string :=
  MD5.hexdigest (encode (url +:+ str (PyDict kwargs))).

(** [cache_key]: set only [if use_cache and method.upper() == 'GET']. *)
Definition request_key (method url : string) (use_cache : bool) (kwargs : Kwargs)
  : option string :=
  if use_cache && String.eqb (upper method) "GET"
  then Some (request_cache_key url kwargs) else None.

(** The entry of [self.cache] that answers the call, if one is there and
    has not expired. *)
Definition cached_response (cache_key : option string) (st : State) : option PyVal :=
  match cache_key with
  | Some k => fresh_entry (cache_expiry (self st)) k (cache (self st)) (now (world st))
  | None => None
  end.

(** How one turn of a retry loop ends. *)
Inductive Flow : Type :=
| Return (v : PyVal)
| Continue.

(** [if cache_key and ...]: [None] and the empty text are false. *)
Definition key_set (cache_key : option string) : bool :=
  match cache_key with
  | Some k => negb (String.eqb k "")
  | None => false
  end.

(** The body of [for attempt in range(max_retries)]. *)
Definition request_attempt (max_retries : Z) (cache_key : option string)
    (req : Request) (attempt : Z) : M Flow :=
  try_except
    (modify (on_self (fun c => set_request_count (request_count c + 1) c)) ;;
     response <- session_request req ;;
     (if key_set cache_key && (status_code response <? 400)
      then cache_put (default "" cache_key) (response_obj response)
      else ret tt) ;;
     if status_code response <? 400 then ret (Return (response_obj response))
     else if status_code response =? 401 then ret (Return (response_obj response))
     else if status_code response =? 403 then ret (Return (response_obj response))
     else if retryable (status_code response) then
       if attempt <? max_retries - 1 then
         time_sleep (2 ^ attempt + 1) ;; ret Continue
       else ret (Return (response_obj response))
     else ret (Return (response_obj response)))
    (fun e =>
       match e with
       | RequestsTimeout =>
           if attempt <? max_retries - 1 then
             time_sleep (2 ^ attempt + 1) ;; ret Continue
           else ret (Return PyNone)
       | RequestsConnectionError =>
           if attempt <? max_retries - 1 then
             time_sleep (2 ^ attempt + 1) ;; ret Continue
           else ret (Return PyNone)
       | _ => ret (Return PyNone)
       end).

Fixpoint request_loop (max_retries : Z) (cache_key : option string)
    (req : Request) (attempts : list Z) : M PyVal :=
  match attempts with
  | [] => ret PyNone
  | attempt :: rest =>
      flow <- request_attempt max_retries cache_key req attempt ;;
      match flow with
      | Return v => ret v
      | Continue => request_loop max_retries cache_key req rest
      end
  end.

Definition max_retries : Z := 3.

Definition default_timeout : PyVal := PyTuple [PyInt 10; PyInt 30].

(** [if 'timeout' not in kwargs: kwargs['timeout'] = (10, 30)] *)
Definition with_timeout (kwargs : Kwargs) : Kwargs :=
  if has_key "timeout" kwargs then kwargs
  else (kwargs ++ [("timeout", default_timeout)])%list.

(** The request the loop hands to the session on every attempt. *)
Definition physical (method url : string) (kwargs : Kwargs) : Request :=
  mkRequest method (PyStr url) (with_timeout kwargs).

Definition _make_request (method : string) (url : string) (use_cache : bool)
    (kwargs : Kwargs) : M PyVal :=
  let cache_key := request_key method url use_cache kwargs in
  hit <- gets (cached_response cache_key) ;;
  match hit with
  | Some cached_result =>
      modify (on_self (fun c => set_cached_requests (cached_requests c + 1) c)) ;;
      ret cached_result
  | None =>
      request_loop max_retries cache_key (physical method url kwargs)
                   (range max_retries)
  end.

(** ** The [cache_result] decorator

    [wrapper(self, *args, **kwargs)] around [func]; [memo] names the
    dictionary of this decorated function. *)
Definition memo_key (args : list PyVal) (kwargs : Kwargs) : string :=
  MD5.hexdigest (encode (str (PyTuple args)) ++ encode (str (PyDict kwargs)))%list.

Definition cache_result (expiry_seconds : Z) (memo : Decorated)
    (func : M PyVal) (args : list PyVal) (kwargs : Kwargs) : M PyVal :=
  let key := memo_key args kwargs in
  hit <- gets (fun st =>
           fresh_entry expiry_seconds key (memo_of memo (memos st)) (now (world st))) ;;
  match hit with
  | Some result => ret result
  | None =>
      result <- func ;;
      (if is_none result then ret tt
       else
         t <- datetime_now ;;
         modify (on_memos (fun m =>
           set_memo memo (<[key := (result, t)]> (memo_of memo m)) m))) ;;
      ret result
  end.

(** ** Repository operations

    Calls to [logger] do not change the state and are left out, except
    where building the message evaluates something that can raise
    ([len(...)], [.get(...)]).  For a method [m] whose body is one
    [try: ... except Exception: return failure], [m_try] is the block under
    [try] and [m] adds the handler. *)

Definition get_user_repos_try : M PyVal :=
  let url := base_url +:+ "/user/repos?per_page=100" in
  response <- _make_request "GET" url true [] ;;
  if is_none response then ret PyNone
  else
    status <- lift (py_status_code response) ;;
    if status =? 200 then
      repos <- lift (py_json response) ;;
      lift (py_len repos) ;;
      ret repos
    else ret PyNone.

Definition get_user_repos_undecorated : M PyVal :=
  try_except get_user_repos_try (fun _ => ret PyNone).

(** [get_user_repos()], decorated with [cache_result(300)]. *)
Definition get_user_repos : M PyVal :=
  cache_result 300 GetUserRepos get_user_repos_undecorated [] [].

Definition repo_url (user name : string) : string :=
  base_url +:+ "/repos/" +:+ user +:+ "/" +:+ name.

Definition get_repo_by_name_try (name : string) : M PyVal :=
  let cache_key := "repo_" +:+ name in
  user <- gets (fun st => username (self st)) ;;
  response <- _make_request "GET" (repo_url user name) false [] ;;
  status <- (if truthy response then lift (py_status_code response) else ret 0) ;;
  if truthy response && (status =? 200) then
    result <- lift (py_json response) ;;
    cache_put cache_key result ;;
    ret result
  else ret PyNone.

Definition get_repo_by_name (name : string) : M PyVal :=
  let cache_key := "repo_" +:+ name in
  hit <- gets (fun st =>
           fresh_entry (cache_expiry (self st)) cache_key (cache (self st))
                       (now (world st))) ;;
  match hit with
  | Some result => ret result
  | None => try_except (get_repo_by_name_try name) (fun _ => ret PyNone)
  end.

Definition _get_existing_repo (name : string) : M PyVal := get_repo_by_name name.

(** [keys_to_remove = [k for k in self.cache.keys() if k.startswith('repo_')]],
    then every such key is deleted. *)
Definition _clear_repo_cache : M unit :=
  modify (on_self (fun c =>
    set_cache (filter (fun kv => String.prefix "repo_" (fst kv) = false) (cache c)) c)).

Definition create_repo_data (name : string) (private : bool) : PyVal :=
  PyDict [("name", PyStr name); ("private", PyBool private);
          ("auto_init", PyBool true)].

Definition create_repo_try (name : string) (private : bool) : M PyVal :=
  let url := base_url +:+ "/user/repos" in
  let data := create_repo_data name private in
  response <- _make_request "POST" url false [("json", data)] ;;
  if is_none response then ret PyNone
  else
    status <- lift (py_status_code response) ;;
    if status =? 201 then
      repo_info <- lift (py_json response) ;;
      lift (py_get repo_info "full_name" PyNone) ;;
      _clear_repo_cache ;;
      ret repo_info
    else if status =? 422 then _get_existing_repo name
    else ret PyNone.

Definition create_repo (name : string) (private : bool) : M PyVal :=
  try_except (create_repo_try name private) (fun _ => ret PyNone).

Definition contents_url (user repo path : string) : string :=
  base_url +:+ "/repos/" +:+ user +:+ "/" +:+ repo +:+ "/contents/" +:+ path.

(** The JSON document of a content write: without a revision hash for a
    create, with the [sha] for an update. *)
Definition write_data (message : string) (content : bytes) (sha : option PyVal)
  : PyVal :=
  let encoded_content := decode (Base64.b64encode content) in
  PyDict ([("message", PyStr message); ("content", PyStr encoded_content)]
          ++ match sha with Some s => [("sha", s)] | None => [] end)%list.

Definition _update_existing_file_try (repo path : string) (content : bytes)
    (message : string) : M PyVal :=
  user <- gets (fun st => username (self st)) ;;
  let get_url := contents_url user repo path in
  get_response <- _make_request "GET" get_url false [] ;;
  status <- (if truthy get_response then lift (py_status_code get_response)
             else ret 0) ;;
  if truthy get_response && (status =? 200) then
    file_info <- lift (py_json get_response) ;;
    sha <- lift (py_getitem file_info "sha") ;;
    let put_url := contents_url user repo path in
    let data := write_data message content (Some sha) in
    put_response <- _make_request "PUT" put_url false [("json", data)] ;;
    put_status <- (if truthy put_response then lift (py_status_code put_response)
                   else ret 0) ;;
    if truthy put_response && (put_status =? 200) then lift (py_json put_response)
    else ret PyNone
  else ret PyNone.

Definition _update_existing_file (repo path : string) (content : bytes)
    (message : string) : M PyVal :=
  try_except (_update_existing_file_try repo path content message)
             (fun _ => ret PyNone).

Definition upload_file_try (repo path : string) (content : bytes) (message : string)
  : M PyVal :=
  user <- gets (fun st => username (self st)) ;;
  let url := contents_url user repo path in
  let data := write_data message content None in
  response <- _make_request "PUT" url false [("json", data)] ;;
  if is_none response then ret PyNone
  else
    status <- lift (py_status_code response) ;;
    if status =? 201 then lift (py_json response)
    else if status =? 422 then _update_existing_file repo path content message
    else ret PyNone.

Definition upload_file (repo path : string) (content : bytes) (message : string)
  : M PyVal :=
  try_except (upload_file_try repo path content message) (fun _ => ret PyNone).

(** [batch_upload_files]: one record per file, in the order given. *)
Fixpoint batch_upload_files (repo : string) (files : list (string * bytes))
    (message : string) : M (list PyVal) :=
  match files with
  | [] => ret []
  | (path, content) :: rest =>
      result <- upload_file repo path content message ;;
      let record := PyDict [("path", PyStr path);
                            ("success", PyBool (negb (is_none result)));
                            ("result", result)] in
      results <- batch_upload_files repo rest message ;;
      ret (record :: results)
  end.

Definition list_files_try (repo path : string) : M PyVal :=
  repo_info <- get_repo_by_name repo ;;
  if negb (truthy repo_info) then ret (PyList [])
  else
    default_branch <- lift (py_get repo_info "default_branch" (PyStr "main")) ;;
    user <- gets (fun st => username (self st)) ;;
    let url := contents_url user repo path +:+ "?ref=" +:+ str default_branch in
    response <- _make_request "GET" url true [] ;;
    if is_none response then ret (PyList [])
    else
      status <- lift (py_status_code response) ;;
      if status =? 200 then
        files <- lift (py_json response) ;;
        lift (py_len files) ;;
        ret files
      else ret (PyList []).

Definition list_files_undecorated (repo path : string) : M PyVal :=
  try_except (list_files_try repo path) (fun _ => ret (PyList [])).

(** [list_files(repo, path)], decorated with [cache_result(180)].  With
    [path] left out the default applies and the positional tuple that
    enters the key has one item. *)
Definition list_files (repo : string) (path : option string) : M PyVal :=
  cache_result 180 ListFiles (list_files_undecorated repo (default "" path))
    (match path with
     | Some p => [PyStr repo; PyStr p]
     | None => [PyStr repo]
     end) [].

(** ** Download *)

Definition raw_timeout : PyVal := PyTuple [PyInt 10; PyInt 60].

(** [self.session.get(url, timeout=(10, 60))] *)
Definition raw_request (url : PyVal) : Request :=
  mkRequest "GET" url [("timeout", raw_timeout)].

Definition download_attempt (max_retries : Z) (url : PyVal) (attempt : Z) : M Flow :=
  try_except
    (response <- session_request (raw_request url) ;;
     if status_code response =? 200 then
       ret (Return (PyBytes (content response)))
     else if retryable (status_code response) then
       if attempt <? max_retries - 1 then
         time_sleep (2 ^ attempt + 2) ;; ret Continue
       else ret (Return PyNone)
     else ret (Return PyNone))
    (fun e =>
       match e with
       | RequestsTimeout =>
           if attempt <? max_retries - 1 then
             time_sleep (2 ^ attempt + 2) ;; ret Continue
           else ret (Return PyNone)
       | _ =>
           if attempt <? max_retries - 1 then
             time_sleep (2 ^ attempt + 1) ;; ret Continue
           else ret (Return PyNone)
       end).

Fixpoint download_loop (max_retries : Z) (url : PyVal) (attempts : list Z) : M PyVal :=
  match attempts with
  | [] => ret PyNone
  | attempt :: rest =>
      flow <- download_attempt max_retries url attempt ;;
      match flow with
      | Return v => ret v
      | Continue => download_loop max_retries url rest
      end
  end.

Definition _download_from_raw_url (url : PyVal) : M PyVal :=
  download_loop 3 url (range 3).

(** What [download_file] does with the metadata document once it has it. *)
Definition download_content (file_info : PyVal) : M PyVal :=
  type <- lift (py_get file_info "type" PyNone) ;;
  if eq_str type "file" then
    download_url <- lift (py_get file_info "download_url" PyNone) ;;
    if truthy download_url then _download_from_raw_url download_url
    else
      content_encoded <- lift (py_get file_info "content" PyNone) ;;
      if truthy content_encoded then
        content <- lift (b64decode content_encoded) ;;
        ret (PyBytes content)
      else ret PyNone
  else ret PyNone.

Definition download_file_try (repo path : string) : M PyVal :=
  user <- gets (fun st => username (self st)) ;;
  let list_url := contents_url user repo path in
  response <- _make_request "GET" list_url true [] ;;
  if is_none response then ret PyNone
  else
    status <- lift (py_status_code response) ;;
    if negb (status =? 200) then ret PyNone
    else
      file_info <- lift (py_json response) ;;
      download_content file_info.

Definition download_file (repo path : string) : M PyVal :=
  try_except (download_file_try repo path) (fun _ => ret PyNone).

Definition delete_file_try (repo path sha message : string) : M PyVal :=
  user <- gets (fun st => username (self st)) ;;
  let url := contents_url user repo path in
  let data := PyDict [("message", PyStr message); ("sha", PyStr sha)] in
  response <- _make_request "DELETE" url false [("json", data)] ;;
  if is_none response then ret (PyBool false)
  else
    status <- lift (py_status_code response) ;;
    if status =? 200 then ret (PyBool true) else ret (PyBool false).

Definition delete_file (repo path sha message : string) : M PyVal :=
  try_except (delete_file_try repo path sha message) (fun _ => ret (PyBool false)).

Definition get_file_info_try (repo path : string) : M PyVal :=
  user <- gets (fun st => username (self st)) ;;
  let url := contents_url user repo path in
  response <- _make_request "GET" url true [] ;;
  if is_none response then ret PyNone
  else
    status <- lift (py_status_code response) ;;
    if status =? 200 then
      file_info <- lift (py_json response) ;;
      type <- lift (py_get file_info "type" PyNone) ;;
      if eq_str type "file" then
        lift (py_get file_info "name" PyNone) ;;
        ret file_info
      else ret PyNone
    else ret PyNone.

Definition get_file_info (repo path : string) : M PyVal :=
  try_except (get_file_info_try repo path) (fun _ => ret PyNone).

Definition lfs_patterns : list string :=
  [ "*.zip filter=lfs diff=lfs merge=lfs -text";
    "*.rar filter=lfs diff=lfs merge=lfs -text";
    "*.7z filter=lfs diff=lfs merge=lfs -text";
    "*.mp4 filter=lfs diff=lfs merge=lfs -text";
    "*.mov filter=lfs diff=lfs merge=lfs -text" ].

Definition newline : string := String (ascii_of_byte 10) "".

Definition enable_lfs_try (repo : string) : M PyVal :=
  let content := encode (join newline lfs_patterns) in
  result <- upload_file repo ".gitattributes" content
              "Enable Git LFS for large files" ;;
  if truthy result then ret (PyBool true) else ret (PyBool false).

Definition enable_lfs (repo : string) : M PyVal :=
  try_except (enable_lfs_try repo) (fun _ => ret (PyBool false)).

(** ** Usage statistics and lifetime *)

(** An integer as a binary number with exponent 0, not rounded. *)
Definition unrounded (n : Z) : SpecFloat.spec_float :=
  match n with
  | Z0 => SpecFloat.S754_zero false
  | Zpos p => SpecFloat.S754_finite false p 0
  | Zneg p => SpecFloat.S754_finite true p 0
  end.

(** [a / b] on two integers: the binary64 float nearest the quotient, ties
    to even.  Python raises [ZeroDivisionError] for a zero divisor and
    [OverflowError] for a quotient too large for a float; both are
    [OtherException] here. *)
Definition true_divide (a b : Z) : Result SpecFloat.spec_float :=
  if b =? 0 then Raise OtherException
  else
    match SpecFloat.SFdiv 53 1024 (unrounded a) (unrounded b) with
    | SpecFloat.S754_infinity _ => Raise OtherException
    | quotient => Ok quotient
    end.

(** A number of the dictionary: the hit rate is a float, or the integer 0
    of the [else] branch. *)
Inductive Number : Type :=
| IntNumber (n : Z)
| FloatNumber (x : SpecFloat.spec_float).

(** The dictionary [get_api_usage_stats] returns. *)
Record UsageStats := mkUsageStats {
  total_requests : Z;
  stats_cached_requests : Z;
  cache_hit_rate : Number
}.

Definition get_api_usage_stats (c : Client) : Result UsageStats :=
  if 0 <? request_count c then
    match true_divide (cached_requests c) (request_count c) with
    | Ok rate => Ok (mkUsageStats (request_count c) (cached_requests c) (FloatNumber rate))
    | Raise e => Raise e
    end
  else Ok (mkUsageStats (request_count c) (cached_requests c) (IntNumber 0)).

(** [self.cache.clear()] *)
Definition clear_cache : M unit :=
  modify (on_self (set_cache ∅)).

(** [self.session.close()] *)
Definition close : M unit :=
  modify (on_self (set_session_open false)).

(** ** Observing runs *)

(** The remote end [srv], having received [sent], answers the requests of
    [script] in turn as the script says. *)
Fixpoint serves (srv : list Request -> Request -> Outcome * Z)
    (sent : list Request) (script : list (Request * (Outcome * Z))) : Prop :=
  match script with
  | [] => True
  | (req, answer) :: rest => srv sent req = answer /\ serves srv (sent ++ [req])%list rest
  end.

Definition plays (st : State) (script : list (Request * (Outcome * Z))) : Prop :=
  serves (server (world st)) (history (world st)) script.

(** The number of physical attempts made between two states. *)
Definition attempts_between (st st' : State) : Z :=
  Z.of_nat (length (history (world st'))) - Z.of_nat (length (history (world st))).

(** ** Test doubles *)

(** A remote end that plays a script: the n-th request sent gets the n-th
    outcome, each exchange takes [latency] microseconds, and once the
    script is over the connection fails. *)
Definition scripted (script : list Outcome) (latency : Z)
  : list Request -> Request -> Outcome * Z :=
  fun sent _ => (nth (length sent) script (Raised RequestsConnectionError), latency).

Definition respond (status : Z) (doc : option PyVal) (raw : bytes) : Outcome :=
  Responded (mkResponse status doc raw).

(** A process that has just started: the decorators' dictionaries are
    empty, nothing was sent, and one client was constructed. *)
Definition boot (tok user : string) (srv : list Request -> Request -> Outcome * Z)
  : State :=
  mkState (init_client tok user) (mkMemos ∅ ∅) (mkWorld 0 [] [] srv).

(** The clock advances while the client is idle. *)
Definition idle (elapsed : Z) (st : State) : State :=
  on_world (fun w => mkWorld (now w + elapsed) (history w) (slept w) (server w)) st.

(** ** Vocabulary of the statements, and the scenarios they are tried on *)

(** The state once an attempt has been counted and its request sent. *)
Definition sent (req : Request) (elapsed : Z) (st : State) : State :=
  on_world (fun w => mkWorld (now w + elapsed) (history w ++ [req]) (slept w) (server w))
    (on_self (fun c => set_request_count (request_count c + 1) c) st).

(** The state once a backoff sleep is over. *)
Definition backed_off (s : Z) (st : State) : State :=
  on_world (fun w => mkWorld (now w + seconds s) (history w) (slept w ++ [s]) (server w)) st.

(** The state once a response has been put in the cache. *)
Definition stored (key : string) (v : PyVal) (st : State) : State :=
  on_self (fun c => set_cache (<[key := (v, now (world st))]> (cache c)) c) st.

(** The outcomes after which the loop tries again while attempts remain. *)
Definition retried (o : Outcome) : bool :=
  match o with
  | Responded r => retryable (status_code r)
  | Raised RequestsTimeout | Raised RequestsConnectionError => true
  | Raised _ => false
  end.

(** The same request answered by each outcome of [answers] in turn. *)
Definition exchanges (req : Request) (answers : list (Outcome * Z))
  : list (Request * (Outcome * Z)) :=
  List.map (fun a => (req, a)) answers.

(** The state after the attempts numbered [attempt], [attempt + 1], ... were
    each sent, took the given time, and were followed by a backoff sleep. *)
Fixpoint retries (req : Request) (attempt : nat) (elapsed : list Z) (st : State)
  : State :=
  match elapsed with
  | [] => st
  | dt :: rest =>
      retries req (S attempt) rest
        (backed_off (2 ^ Z.of_nat attempt + 1) (sent req dt st))
  end.

(** What the caller gets from the outcome that ends the loop. *)
Definition final_value (o : Outcome) : PyVal :=
  match o with
  | Responded r => response_obj r
  | Raised _ => PyNone
  end.

(** The state the loop leaves behind after its last attempt: a success of
    a cacheable read has been stored. *)
Definition settled (cache_key : option string) (o : Outcome) (st : State) : State :=
  match o with
  | Responded r =>
      if key_set cache_key && (status_code r <? 400)
      then stored (default "" cache_key) (response_obj r) st
      else st
  | Raised _ => st
  end.

(** The responses of [failures], then [final], as answers to one request. *)
Definition answers (failures : list (Response * Z)) (final : Response) (dt : Z)
  : list (Outcome * Z) :=
  (List.map (fun f => (Responded (fst f), snd f)) failures ++ [(Responded final, dt)])%list.

Definition user_url : string := "https://api.github.com/user".

Definition unavailable : Response := mkResponse 503 None [].

Definition octocat : Response :=
  mkResponse 200 (Some (PyDict [("login", PyStr "octocat")])) [].

(** Two 503 responses, then the document. *)
Definition flaky_twice : State :=
  boot "token" "octocat"
    (scripted [Responded unavailable; Responded unavailable; Responded octocat] 1000).

(** Three 503 responses, then the document. *)
Definition flaky_thrice : State :=
  boot "token" "octocat"
    (scripted [Responded unavailable; Responded unavailable; Responded unavailable;
               Responded octocat] 1000).





(** Three 503 responses on the wire, then the document. *)
Definition wire_flaky : list Request -> Request -> WireOutcome * Z :=
  wire_scripted [Answered unavailable; Answered unavailable; Answered unavailable;
                 Answered octocat] 1000.


Definition unauthorized : Response :=
  mkResponse 401 (Some (PyDict [("message", PyStr "Bad credentials")])) [].

Definition bad_token : State :=
  boot "expired" "octocat" (scripted [Responded unauthorized; Responded octocat] 1000).

(** What a call leaves alone: who the client is, its settings, the
    decorators' dictionaries and the remote end. *)
Definition same_setting (st st' : State) : Prop :=
  token (self st') = token (self st)
  /\ username (self st') = username (self st)
  /\ cache_expiry (self st') = cache_expiry (self st)
  /\ session_open (self st') = session_open (self st)
  /\ memos st' = memos st
  /\ server (world st') = server (world st).

(** The cache after a dispatch: untouched, or holding the success that was
    returned, stamped with the time of its arrival. *)
Definition cache_after (cache_key : option string) (v : PyVal) (st st' : State) : Prop :=
  cache (self st') = cache (self st)
  \/ (key_set cache_key = true
      /\ (exists status doc raw, v = PyResponse status doc raw /\ status < 400)
      /\ cache (self st') =
         <[default "" cache_key := (v, now (world st'))]> (cache (self st))).

(** A dispatch that went to the loop and made [k] attempts. *)
Definition dispatched (cache_key : option string) (req : Request) (k : nat) (v : PyVal)
    (st st' : State) : Prop :=
  history (world st') = (history (world st) ++ repeat req k)%list
  /\ request_count (self st') = request_count (self st) + Z.of_nat k
  /\ cached_requests (self st') = cached_requests (self st)
  /\ same_setting st st'
  /\ cache_after cache_key v st st'
  /\ ((exists status doc raw, v = PyResponse status doc raw /\ status < 400) ->
      key_set cache_key = true ->
      cache (self st') !! default "" cache_key = Some (v, now (world st'))).

Definition first_read : Result PyVal * State :=
  _make_request "GET" user_url true []
    (boot "token" "octocat" (scripted [Responded octocat] 1000)).

(** A call of [_make_request], made [call_delay] microseconds after the
    call before it returned. *)
Record Call := mkCall {
  call_delay : Z;
  call_method : string;
  call_url : string;
  call_use_cache : bool;
  call_kwargs : Kwargs
}.

Definition call_key (c : Call) : option string :=
  request_key (call_method c) (call_url c) (call_use_cache c) (call_kwargs c).

(** Whether the call is answered from the cache in the state it is made in. *)
Definition served_from_cache (c : Call) (st : State) : bool :=
  match cached_response (call_key c) (idle (call_delay c) st) with
  | Some _ => true
  | None => false
  end.

Definition perform (c : Call) (st : State) : State :=
  snd (_make_request (call_method c) (call_url c) (call_use_cache c) (call_kwargs c)
         (idle (call_delay c) st)).

Fixpoint run (calls : list Call) (st : State) : State :=
  match calls with
  | [] => st
  | c :: rest => run rest (perform c st)
  end.

(** K: how many calls of the run were served from the cache. *)
Fixpoint cache_hits (calls : list Call) (st : State) : Z :=
  match calls with
  | [] => 0
  | c :: rest =>
      (if served_from_cache c st then 1 else 0) + cache_hits rest (perform c st)
  end.


(** The same document read twice, one second apart. *)
Definition read_twice : list Call :=
  [mkCall 0 "GET" user_url true []; mkCall 1000000 "GET" user_url true []].

Definition one_answer : State :=
  boot "token" "octocat" (scripted [Responded octocat] 1000).



(** The second of two reads as the specification has it, for a listing
    read through its decorator: the same value, no request, and the
    cached-request counter moved instead of the total. *)
Definition repeat_read_counted : Prop :=
  forall st v st1 v2 st2,
    get_user_repos st = (Ok v, st1) ->
    is_none v = false ->
    get_user_repos st1 = (Ok v2, st2) ->
    v2 = v
    /\ history (world st2) = history (world st1)
    /\ request_count (self st2) = request_count (self st1)
    /\ cached_requests (self st2) = cached_requests (self st1) + 1.

(** And for any two reads through the dispatch: the second gives what the
    first gave and sends nothing. *)
Definition repeat_read_silent : Prop :=
  forall method url kwargs st v st1 v2 st2,
    upper method = "GET" ->
    _make_request method url true kwargs st = (Ok v, st1) ->
    _make_request method url true kwargs st1 = (Ok v2, st2) ->
    v2 = v /\ history (world st2) = history (world st1).

(** A computation that leaves [self.cache] as it found it, whether it
    returns or raises. *)
Definition keeps_cache {A} (m : M A) : Prop :=
  forall st, cache (self (snd (m st))) = cache (self st).

(** The request [create_repo] sends. *)
Definition create_request (name : string) (private : bool) : Request :=
  physical "POST" (base_url +:+ "/user/repos") [("json", create_repo_data name private)].


Definition notes_v1 : PyVal :=
  PyDict [("type", PyStr "file"); ("name", PyStr "notes.txt");
          ("sha", PyStr "3b18e5"); ("content", PyStr "b2xk")].

Definition notes_v2 : PyVal :=
  PyDict [("content", PyDict [("name", PyStr "notes.txt"); ("sha", PyStr "91fc2a")])].

(** A remote end on which [notes.txt] exists: the metadata read, the create
    refused with 422, the metadata again, the update accepted. *)
Definition drive_with_notes : State :=
  boot "token" "octocat"
    (scripted [respond 200 (Some notes_v1) []; respond 422 None [];
               respond 200 (Some notes_v1) []; respond 200 (Some notes_v2) []] 1000).

Definition read_then_write : Result PyVal * State :=
  upload_file "drive" "notes.txt" (encode "new") "update notes"
    (snd (get_file_info "drive" "notes.txt" drive_with_notes)).

Definition created_repo : PyVal := PyDict [("full_name", PyStr "octocat/drive")].


(** The content write [upload_file] sends for a create ([sha] absent) and
    [_update_existing_file] for an update ([sha] present). *)
Definition put_request (user repo path message : string) (content : bytes)
    (sha : option PyVal) : Request :=
  physical "PUT" (contents_url user repo path)
           [("json", write_data message content sha)].

(** The metadata fetch of [_update_existing_file]. *)
Definition fetch_request (user repo path : string) : Request :=
  physical "GET" (contents_url user repo path) [].

(** [get_response.json()['sha']]: the revision hash that
    [_update_existing_file] takes from the fetched metadata. *)
Definition fetched_sha (get_response : PyVal) : Result PyVal :=
  match py_json get_response with
  | Ok file_info => py_getitem file_info "sha"
  | Raise e => Raise e
  end.

(** What a dispatch returned is not a 200 response. *)
Definition not_ok_200 (v : PyVal) : Prop :=
  v = PyNone \/ exists status doc raw, v = PyResponse status doc raw /\ status <> 200.

(** The client has the metadata of [notes.txt] in its cache and uploads a
    new content for the file. *)
Definition cached_notes : State :=
  snd (get_file_info "drive" "notes.txt" drive_with_notes).

Definition notes_url : string := contents_url "octocat" "drive" "notes.txt".

(** The state once a raw download request has been sent: the counters of
    the client are not involved. *)
Definition fetched (req : Request) (elapsed : Z) (st : State) : State :=
  on_world (fun w => mkWorld (now w + elapsed) (history w ++ [req]) (slept w) (server w)) st.

(** [doc.get(k)] on a dictionary. *)
Definition field (doc : PyVal) (k : string) : PyVal :=
  match doc with
  | PyDict items => default PyNone (lookup_item k items)
  | _ => PyNone
  end.

(** The metadata of [notes.txt] carries its content inline. *)
Definition inline_notes : State :=
  boot "token" "octocat" (scripted [respond 200 (Some notes_v1) []] 1000).

Definition raw_url : PyVal :=
  PyStr "https://raw.githubusercontent.com/octocat/drive/main/big.bin".

Definition big_file : PyVal :=
  PyDict [("type", PyStr "file"); ("name", PyStr "big.bin");
          ("download_url", raw_url); ("content", PyStr "")].

(** Two requests are the same request when they name the same URL and bind
    every keyword to the same value. *)
Definition same_request (url1 url2 : string) (kwargs1 kwargs2 : Kwargs) : Prop :=
  url1 = url2 /\ forall name, lookup_item name kwargs1 = lookup_item name kwargs2.

(** The key as the specification wants it: equal for the same request,
    different for different requests. *)
Definition key_as_specified : Prop :=
  forall url1 kwargs1 url2 kwargs2,
    same_request url1 url2 kwargs1 kwargs2 <->
    request_cache_key url1 kwargs1 = request_cache_key url2 kwargs2.

Definition is_hex_digit (a : ascii) : bool :=
  let c := byte_of_ascii a in
  ((48 <=? c) && (c <=? 57)) || ((97 <=? c) && (c <=? 102)).

Fixpoint all_chars (p : ascii -> bool) (s : string) : bool :=
  match s with
  | EmptyString => true
  | String a rest => p a && all_chars p rest
  end.

(** The text of a list of octets, two digits each. *)
Definition hex_text (bs : bytes) : string :=
  fold_right (fun b acc => hex_byte b +:+ acc) "" bs.

(** The same keywords in two orders. *)
Definition timeout_first : Kwargs := [("timeout", PyInt 5); ("stream", PyBool true)].
Definition stream_first : Kwargs := [("stream", PyBool true); ("timeout", PyInt 5)].

(** A keyword as the callers of the client write them: letters, digits and
    underscores. *)
Definition is_word_char (a : ascii) : bool :=
  let c := byte_of_ascii a in
  ((48 <=? c) && (c <=? 57)) || ((65 <=? c) && (c <=? 90)) || (c =? 95)
  || ((97 <=? c) && (c <=? 122)).

Definition plain_key (k : string) : bool := all_chars is_word_char k.

(** The octets that [_make_request] hands to [hashlib.md5]. *)
Definition hashed_text (url : string) (kwargs : Kwargs) : bytes :=
  encode (url +:+ str (PyDict kwargs)).

(** The text of the items of a dictionary, as [repr] joins them. *)
Definition items_text (items : Kwargs) : string :=
  join ", " (List.map (fun kv => repr_str (fst kv) +:+ ": " +:+ repr (snd kv)) items).

(** A process: the client objects it has constructed, the dictionaries of
    the decorators, and the world. *)
Record Process := mkProcess {
  instances : gmap nat Client;
  shared : Memos;
  outside : World
}.

(** A method called on the instance numbered [i]: it runs with that
    instance as [self] and the instance is updated in place. *)
Definition call {A} (i : nat) (m : M A) (p : Process) : option (Result A * Process) :=
  match instances p !! i with
  | Some c =>
      let '(r, st') := m (mkState c (shared p) (outside p)) in
      Some (r, mkProcess (<[i := self st']> (instances p)) (memos st') (world st'))
  | None => None
  end.

(** The state in which another instance is [self]. *)
Definition as_instance (c : Client) (st : State) : State :=
  mkState c (memos st) (world st).

(** Ownership as the specification wants it.  What one instance did is not
    observable through another: a call on [j] gives the same result whether
    or not the decorators' dictionaries keep what the call on [i] wrote. *)
Definition instances_isolated : Prop :=
  forall i j p r p1,
    i <> j ->
    call i get_user_repos p = Some (r, p1) ->
    fst <$> call j get_user_repos p1 =
    fst <$> call j get_user_repos (mkProcess (instances p1) (shared p) (outside p1)).

(** And closing the client destroys its cache and its counters. *)
Definition close_destroys : Prop :=
  forall st,
    let st' := snd (close st) in
    cache (self st') = ∅ /\ request_count (self st') = 0
    /\ cached_requests (self st') = 0.

Definition alice : Client := init_client "alice-token" "alice".
Definition bob : Client := init_client "bob-token" "bob".

Definition alice_repos : PyVal := PyList [PyDict [("full_name", PyStr "alice/drive")]].
Definition bob_repos : PyVal := PyList [PyDict [("full_name", PyStr "bob/photos")]].

(** Two clients of two accounts in one process; the remote end lists the
    repositories of whoever asks, alice first. *)
Definition two_users : Process :=
  mkProcess (<[0%nat := alice]> (<[1%nat := bob]> ∅)) (mkMemos ∅ ∅)
    (mkWorld 0 [] []
       (scripted [respond 200 (Some alice_repos) []; respond 200 (Some bob_repos) []] 1000)).

Definition alice_starts : State :=
  mkState alice (shared two_users) (outside two_users).

(** The process once alice has listed her repositories. *)
Definition after_alice : Process :=
  match call 0 get_user_repos two_users with
  | Some (_, p) => p
  | None => two_users
  end.

(** A computation that returns in every state: it never raises. *)
Definition total {A} (m : M A) : Prop :=
  forall st, exists v st', m st = (Ok v, st').

(** [op] turns an exception raised by [body] into the value [failure]. *)
Definition fails_with {A} (op body : M A) (failure : A) : Prop :=
  forall st e st', body st = (Raise e, st') -> op st = (Ok failure, st').

(** The session rejects the request outright (say, an invalid URL); a
    success would have followed. *)
Definition broken_session : State :=
  boot "token" "octocat" (scripted [Raised ValueError; Responded octocat] 1000).

(** ** Further vocabulary: the rest of the dispatch *)

(** A response that [_make_request] treats as a success. *)
Definition is_success (v : PyVal) : Prop :=
  exists status doc raw, v = PyResponse status doc raw /\ status < 400.

(** The sleeps of a dispatch that made [k] attempts: one after each attempt
    but the last. *)
Definition backoff_schedule (k : nat) : list Z :=
  List.map (fun attempt => 2 ^ attempt + 1) (range (Z.of_nat (k - 1))).

(** An entry that is still in the cache and as old as the TTL, or older. *)
Definition expired_scenario : State :=
  idle 300000000 (snd first_read).

(** A remote end that is unreachable twice, then times out. *)
Definition unreachable : State :=
  boot "token" "octocat"
    (scripted [Raised RequestsConnectionError; Raised RequestsTimeout;
               Raised RequestsTimeout; Responded octocat] 1000).

Definition not_found : Response :=
  mkResponse 404 (Some (PyDict [("message", PyStr "Not Found")])) [].

Definition missing_resource : State :=
  boot "token" "octocat" (scripted [Responded not_found; Responded octocat] 1000).

(** What [_make_request] can hand to its caller: [None] or a response. *)
Definition none_or_response (v : PyVal) : Prop :=
  v = PyNone \/ exists r, v = response_obj r.

(** ** The life of a client

    The public methods as data, so that statements can range over every
    sequence of calls. *)
Inductive Operation : Type :=
| GetUserReposOp
| GetRepoByName (name : string)
| CreateRepo (name : string) (private : bool)
| UploadFile (repo path : string) (content : bytes) (message : string)
| BatchUploadFiles (repo : string) (files : list (string * bytes)) (message : string)
| ListFilesOp (repo : string) (path : option string)
| DownloadFile (repo path : string)
| DeleteFile (repo path sha message : string)
| GetFileInfo (repo path : string)
| EnableLfs (repo : string)
| ClearCache
| Close.

(** The state a call of the method leaves behind. *)
Definition invoke (op : Operation) (st : State) : State :=
  match op with
  | GetUserReposOp => snd (get_user_repos st)
  | GetRepoByName name => snd (get_repo_by_name name st)
  | CreateRepo name private => snd (create_repo name private st)
  | UploadFile repo path content message => snd (upload_file repo path content message st)
  | BatchUploadFiles repo files message => snd (batch_upload_files repo files message st)
  | ListFilesOp repo path => snd (list_files repo path st)
  | DownloadFile repo path => snd (download_file repo path st)
  | DeleteFile repo path sha message => snd (delete_file repo path sha message st)
  | GetFileInfo repo path => snd (get_file_info repo path st)
  | EnableLfs repo => snd (enable_lfs repo st)
  | ClearCache => snd (clear_cache st)
  | Close => snd (close st)
  end.

(** What happens to a client: a method is called on it, or time passes. *)
Inductive Event : Type :=
| Invoke (op : Operation)
| Elapse (elapsed : Z).

Definition occur (st : State) (e : Event) : State :=
  match e with
  | Invoke op => invoke op st
  | Elapse elapsed => idle elapsed st
  end.

Definition after (events : list Event) (st : State) : State :=
  fold_left occur events st.

(** [m] moves every state to one that is [R]-related to it, whether it
    returns or raises. *)
Definition preserves (R : State -> State -> Prop) {A} (m : M A) : Prop :=
  forall st, R st (snd (m st)).

(** What no method changes, and what only grows. *)
Definition grows (st st' : State) : Prop :=
  token (self st') = token (self st)
  /\ username (self st') = username (self st)
  /\ cache_expiry (self st') = cache_expiry (self st)
  /\ server (world st') = server (world st)
  /\ request_count (self st) <= request_count (self st')
  /\ cached_requests (self st) <= cached_requests (self st')
  /\ (exists more, history (world st') = (history (world st) ++ more)%list)
  /\ (exists more, slept (world st') = (slept (world st) ++ more)%list).

(** [request_count] has not counted more than was sent. *)
Definition counted (st st' : State) : Prop :=
  request_count (self st') - request_count (self st) <= attempts_between st st'.

(** [request_count] has counted everything that was sent. *)
Definition counted_exactly (st st' : State) : Prop :=
  request_count (self st') - request_count (self st) = attempts_between st st'.

(** The two kinds of entries of [self.cache] do not mix: what is not under
    a [repo_] key is a successful response. *)
Definition cache_typed (st : State) : Prop :=
  forall k v stored_at,
    cache (self st) !! k = Some (v, stored_at) ->
    String.prefix "repo_" k = true \/ is_success v.

Definition keeps_typing (st st' : State) : Prop :=
  cache_typed st -> cache_typed st'.

Fixpoint downloads (events : list Event) : bool :=
  match events with
  | [] => false
  | Invoke (DownloadFile _ _) :: _ => true
  | _ :: rest => downloads rest
  end.

(** A morning at the keyboard: everything the client offers, with pauses. *)
Definition busy_morning : list Event :=
  [Invoke GetUserReposOp; Invoke (CreateRepo "drive" true); Elapse 5000000;
   Invoke (UploadFile "drive" "notes.txt" [104; 105] "add notes");
   Invoke (ListFilesOp "drive" None); Invoke (GetFileInfo "drive" "notes.txt");
   Invoke (DownloadFile "drive" "notes.txt"); Elapse 400000000;
   Invoke (DeleteFile "drive" "notes.txt" "abc" "drop notes");
   Invoke (EnableLfs "drive"); Invoke ClearCache;
   Invoke (BatchUploadFiles "drive" [("a", [1]); ("b", [])] "batch");
   Invoke (GetRepoByName "drive"); Invoke Close].

(** The metadata names a raw URL, and both exchanges succeed at once. *)
Definition by_reference : State :=
  boot "token" "octocat"
    (scripted [respond 200 (Some big_file) []; respond 200 None [1; 2; 3]] 1000).

(** The remote end answers everything with one small document. *)
Definition always_octocat : list Request -> Request -> Outcome * Z :=
  fun _ _ => (Responded octocat, 1000).

(** The request [get_repo_by_name] sends. *)
Definition repo_request (user name : string) : Request :=
  physical "GET" (repo_url user name) [].

Definition drive_doc : PyVal :=
  PyDict [("full_name", PyStr "octocat/drive"); ("default_branch", PyStr "trunk")].

(** The repository exists; a second answer would say otherwise. *)
Definition drive_exists : State :=
  boot "token" "octocat"
    (scripted [respond 200 (Some drive_doc) []; Responded not_found] 1000).

(** The repository is missing when first asked for and there afterwards. *)
Definition drive_appears : State :=
  boot "token" "octocat"
    (scripted [Responded not_found; respond 200 (Some drive_doc) []] 1000).

(** The creation is refused because the name is taken. *)
Definition name_taken : State :=
  boot "token" "octocat"
    (scripted [respond 422 None []; respond 200 (Some drive_doc) []] 1000).

(** The record [batch_upload_files] appends for one file. *)
Definition upload_record (path : string) (result : PyVal) : PyVal :=
  PyDict [("path", PyStr path); ("success", PyBool (negb (is_none result)));
          ("result", result)].

(** Every value [m] returns satisfies [P]. *)
Definition yields {A} (P : A -> Prop) (m : M A) : Prop :=
  forall st v st', m st = (Ok v, st') -> P v.

(** The positional arguments of a call of [list_files]. *)
Definition list_files_args (repo : string) (path : option string) : list PyVal :=
  match path with
  | Some p => [PyStr repo; PyStr p]
  | None => [PyStr repo]
  end.

(** The remote end is out of order for one whole call, then recovers. *)
Definition outage : State :=
  boot "token" "octocat"
    (scripted [Responded unavailable; Responded unavailable; Responded unavailable;
               respond 200 (Some (PyList [])) []] 1000).

(** The decorators' dictionaries are as they were. *)
Definition same_memos (st st' : State) : Prop := memos st' = memos st.

(** ** The raw download *)

(** The outcomes after which [_download_from_raw_url] tries again while
    attempts remain: a retryable status and every exception. *)
Definition raw_retried (o : Outcome) : bool :=
  match o with
  | Responded r => negb (status_code r =? 200) && retryable (status_code r)
  | Raised _ => true
  end.

(** What it sleeps before the next attempt. *)
Definition raw_backoff (o : Outcome) (attempt : Z) : Z :=
  match o with
  | Responded _ | Raised RequestsTimeout => 2 ^ attempt + 2
  | Raised _ => 2 ^ attempt + 1
  end.

(** What the caller gets from the outcome that ends the download. *)
Definition raw_value (o : Outcome) : PyVal :=
  match o with
  | Responded r => if status_code r =? 200 then PyBytes (content r) else PyNone
  | Raised _ => PyNone
  end.

(** The raw host fails three times, each time in another way. *)
Definition raw_host_down : State :=
  boot "token" "octocat"
    (scripted [Responded unavailable; Raised OtherException; Raised RequestsTimeout;
               respond 200 None [1; 2; 3]] 1000).



Definition not_here : Response := mkResponse 404 None [].



(** ** base64 text *)

(** The characters the decoder looks at: the alphabet and the pad. *)
Definition significant (c : Z) : bool :=
  (c =? 61) || match Base64.dec c with Some _ => true | None => false end.

(** The metadata of a file whose content comes inline, as [upload_file]
    encoded it. *)
Definition inline_file (content : bytes) : PyVal :=
  PyDict [("type", PyStr "file");
          ("content", PyStr (decode (Base64.b64encode content)))].

(** [aGk=] with the line break the remote end puts after the text. *)
Definition wrapped_hi : string := "aGk=" +:+ newline.

(** A client that has listed the repositories of its user. *)
Definition listed : State :=
  snd (get_user_repos
         (boot "token" "octocat" (scripted [respond 200 (Some alice_repos) []] 1000))).

(** The request [delete_file] sends. *)
Definition delete_request (user repo path sha message : string) : Request :=
  physical "DELETE" (contents_url user repo path)
    [("json", PyDict [("message", PyStr message); ("sha", PyStr sha)])].

(** Whether a dispatch came back with a 200. *)
Definition is_200 (v : PyVal) : bool :=
  match v with
  | PyResponse status _ _ => status =? 200
  | _ => false
  end.

(** The URL [list_files] asks for: the contents of [path] at the default
    branch the repository document names, [main] when it names none. *)
Definition listing_url (user repo : string) (path : option string)
    (repo_info : list (string * PyVal)) : string :=
  contents_url user repo (default "" path) +:+ "?ref="
  +:+ str (default (PyStr "main") (lookup_item "default_branch" repo_info)).

Definition drive_files : list PyVal :=
  [PyDict [("name", PyStr "notes.txt"); ("type", PyStr "file")]].

(** Nothing is cached and nothing was sent: the repository document and
    the listing are one request away each. *)
Definition drive_unknown : State :=
  boot "token" "octocat"
    (scripted [respond 200 (Some drive_doc) [];
               respond 200 (Some (PyList drive_files)) []] 1000).

(** ** Budgets *)

(** [m] sends at most [n] requests, whether it returns or raises. *)
Definition costs {A} (n : nat) (m : M A) : Prop :=
  forall st, attempts_between st (snd (m st)) <= Z.of_nat n.

(** The worst case for an upload: every dispatch needs its three attempts,
    the create is refused with 422 and the update goes through. *)
Definition worst_upload : State :=
  boot "token" "octocat"
    (scripted [Responded unavailable; Responded unavailable; respond 422 None [];
               Responded unavailable; Responded unavailable;
               respond 200 (Some notes_v1) [];
               Responded unavailable; Responded unavailable;
               respond 200 (Some notes_v2) []] 1000).

(** * Checks of the library models against the Python they stand for *)

Example md5_empty : MD5.hexdigest (encode "") = "d41d8cd98f00b204e9800998ecf8427e".
Proof. vm_compute. reflexivity. Qed.

Example md5_abc : MD5.hexdigest (encode "abc") = "900150983cd24fb0d6963f7d28e17f72".
Proof. vm_compute. reflexivity. Qed.

Example md5_two_blocks :
  MD5.hexdigest (encode "12345678901234567890123456789012345678901234567890123456789012345678901234567890")
  = "57edf4a22be3c955ac49da2e2107b67a".
Proof. vm_compute. reflexivity. Qed.

Example repr_kwargs :
  repr (PyDict [("timeout", PyTuple [PyInt 10; PyInt 30]); ("stream", PyBool true);
                ("params", PyDict [("q", PyStr "its"); ("n", PyNone)]);
                ("data", PyBytes [0; 65; 255; 92; 10]); ("one", PyTuple [PyInt (-7)])])
  = "{'timeout': (10, 30), 'stream': True, 'params': {'q': 'its', 'n': None}, 'data': b'\x00A\xff\\\n', 'one': (-7,)}".
Proof. vm_compute. reflexivity. Qed.

Example repr_str_quotes :
  encode (repr_str "it's") = [34; 105; 116; 39; 115; 34].
Proof. vm_compute. reflexivity. Qed.

(** Text above ASCII: a printable character is kept, a no-break space, a
    zero-width space and a tag character are escaped. *)
Example repr_str_unicode :
  encode (repr_str (decode [97; 194; 160; 98])) = [39; 97; 92; 120; 97; 48; 98; 39]
  /\ encode (repr_str (decode [99; 97; 102; 195; 169])) = [39; 99; 97; 102; 195; 169; 39]
  /\ encode (repr_str (decode [226; 128; 139])) = [39; 92; 117; 50; 48; 48; 98; 39]
  /\ encode (repr_str (decode [240; 159; 152; 128])) = [39; 240; 159; 152; 128; 39]
  /\ encode (repr_str (decode [243; 160; 128; 129])) =
     [39; 92; 85; 48; 48; 48; 101; 48; 48; 48; 49; 39]
  /\ encode (repr_str (decode [127; 0])) = [39; 92; 120; 55; 102; 92; 120; 48; 48; 39].
Proof. vm_compute. repeat split. Qed.

Example md5_kwargs_unicode :
  request_cache_key "https://api.github.com/user" [("q", PyStr (decode [97; 194; 160; 98]))]
  = "e503396e7dba03ae52eee4d77fd348ac"
  /\ request_cache_key "https://api.github.com/user"
       [("q", PyStr (decode [99; 97; 102; 195; 169]))]
     = "d27cccde9e071906968435b6d9faf975".
Proof. vm_compute. split; reflexivity. Qed.

Example b64_encode_tail :
  decode (Base64.b64encode (encode "hello")) = "aGVsbG8=".
Proof. vm_compute. reflexivity. Qed.

Example b64_decode_lines :
  Base64.a2b_base64 (encode "aGVs
bG8=
") 0 0 0 [] = Some (encode "hello").
Proof. vm_compute. reflexivity. Qed.

(** * The retry loop, one attempt at a time *)

Arguments request_cache_key : simpl never.
Arguments memo_key : simpl never.
Arguments seconds : simpl never.
Arguments Z.pow : simpl never.
Arguments Z.add : simpl never.
Arguments Z.sub : simpl never.
Arguments Z.ltb : simpl never.
Arguments Z.eqb : simpl never.

Lemma retryable_iff status :
  retryable status = true <->
  status = 429 \/ status = 500 \/ status = 502 \/ status = 503 \/ status = 504.
Proof.
  unfold retryable, retry_statuses. simpl.
  rewrite !orb_true_iff, !Z.eqb_eq. intuition discriminate.
Qed.

Lemma retryable_not_terminal status :
  retryable status = true ->
  (status <? 400) = false /\ (status =? 401) = false /\ (status =? 403) = false.
Proof.
  rewrite retryable_iff. intros H.
  repeat split; [apply Z.ltb_ge | apply Z.eqb_neq | apply Z.eqb_neq]; lia.
Qed.

Section Attempt.

Variables (limit : Z) (cache_key : option string) (req : Request) (attempt : Z).
Variables (st : State) (elapsed : Z).

Lemma attempt_success r :
  server (world st) (history (world st)) req = (Responded r, elapsed) ->
  status_code r < 400 ->
  request_attempt limit cache_key req attempt st =
    (Ok (Return (response_obj r)),
     if key_set cache_key
     then stored (default "" cache_key) (response_obj r) (sent req elapsed st)
     else sent req elapsed st).
Proof.
  intros Hsrv Hlt. apply Z.ltb_lt in Hlt.
  unfold request_attempt, try_except, bind, modify, session_request.
  simpl. rewrite Hsrv. simpl. rewrite Hlt, andb_true_r.
  destruct (key_set cache_key); reflexivity.
Qed.

Lemma attempt_auth r :
  server (world st) (history (world st)) req = (Responded r, elapsed) ->
  status_code r = 401 \/ status_code r = 403 ->
  request_attempt limit cache_key req attempt st =
    (Ok (Return (response_obj r)), sent req elapsed st).
Proof.
  intros Hsrv Hauth.
  assert ((status_code r <? 400) = false) as Hge by (apply Z.ltb_ge; lia).
  unfold request_attempt, try_except, bind, modify, session_request.
  simpl. rewrite Hsrv. simpl. rewrite Hge, andb_false_r. simpl.
  destruct Hauth as [-> | ->]; reflexivity.
Qed.

Lemma attempt_retry r :
  server (world st) (history (world st)) req = (Responded r, elapsed) ->
  retryable (status_code r) = true ->
  attempt < limit - 1 ->
  request_attempt limit cache_key req attempt st =
    (Ok Continue, backed_off (2 ^ attempt + 1) (sent req elapsed st)).
Proof.
  intros Hsrv Hretry Hlt. apply Z.ltb_lt in Hlt.
  destruct (retryable_not_terminal _ Hretry) as (H400 & H401 & H403).
  unfold request_attempt, try_except, bind, modify, session_request.
  simpl. rewrite Hsrv. simpl.
  rewrite H400, andb_false_r. simpl. rewrite H401, H403, Hretry, Hlt. reflexivity.
Qed.

Lemma attempt_exhausted r :
  server (world st) (history (world st)) req = (Responded r, elapsed) ->
  retryable (status_code r) = true ->
  limit - 1 <= attempt ->
  request_attempt limit cache_key req attempt st =
    (Ok (Return (response_obj r)), sent req elapsed st).
Proof.
  intros Hsrv Hretry Hge. apply Z.ltb_ge in Hge.
  destruct (retryable_not_terminal _ Hretry) as (H400 & H401 & H403).
  unfold request_attempt, try_except, bind, modify, session_request.
  simpl. rewrite Hsrv. simpl.
  rewrite H400, andb_false_r. simpl. rewrite H401, H403, Hretry, Hge. reflexivity.
Qed.

Lemma attempt_client_error r :
  server (world st) (history (world st)) req = (Responded r, elapsed) ->
  400 <= status_code r ->
  retryable (status_code r) = false ->
  request_attempt limit cache_key req attempt st =
    (Ok (Return (response_obj r)), sent req elapsed st).
Proof.
  intros Hsrv Hge Hretry. apply Z.ltb_ge in Hge.
  unfold request_attempt, try_except, bind, modify, session_request.
  simpl. rewrite Hsrv. simpl.
  rewrite Hge, andb_false_r, Hretry. simpl.
  destruct (status_code r =? 401), (status_code r =? 403); reflexivity.
Qed.

Lemma attempt_transport_retry e :
  server (world st) (history (world st)) req = (Raised e, elapsed) ->
  e = RequestsTimeout \/ e = RequestsConnectionError ->
  attempt < limit - 1 ->
  request_attempt limit cache_key req attempt st =
    (Ok Continue, backed_off (2 ^ attempt + 1) (sent req elapsed st)).
Proof.
  intros Hsrv He Hlt. apply Z.ltb_lt in Hlt.
  unfold request_attempt, try_except, bind, modify, session_request.
  simpl. rewrite Hsrv. simpl.
  destruct He as [-> | ->]; rewrite Hlt; reflexivity.
Qed.

Lemma attempt_transport_exhausted e :
  server (world st) (history (world st)) req = (Raised e, elapsed) ->
  e = RequestsTimeout \/ e = RequestsConnectionError ->
  limit - 1 <= attempt ->
  request_attempt limit cache_key req attempt st =
    (Ok (Return PyNone), sent req elapsed st).
Proof.
  intros Hsrv He Hge. apply Z.ltb_ge in Hge.
  unfold request_attempt, try_except, bind, modify, session_request.
  simpl. rewrite Hsrv. simpl.
  destruct He as [-> | ->]; rewrite Hge; reflexivity.
Qed.

Lemma attempt_unexpected e :
  server (world st) (history (world st)) req = (Raised e, elapsed) ->
  e <> RequestsTimeout -> e <> RequestsConnectionError ->
  request_attempt limit cache_key req attempt st =
    (Ok (Return PyNone), sent req elapsed st).
Proof.
  intros Hsrv Ht Hc.
  unfold request_attempt, try_except, bind, modify, session_request.
  simpl. rewrite Hsrv. simpl.
  destruct e; try reflexivity; congruence.
Qed.

End Attempt.

(** * Runs of the retry loop *)

Lemma serves_app srv h s1 s2 :
  serves srv h (s1 ++ s2) <->
  serves srv h s1 /\ serves srv (h ++ List.map fst s1) s2.
Proof.
  revert h. induction s1 as [|[req a] s1 IH]; intros h; simpl.
  - rewrite app_nil_r. tauto.
  - rewrite IH, <- app_assoc. simpl. tauto.
Qed.

Section Retries.

Variable req : Request.

Lemma retries_request_count elapsed : forall attempt st,
  request_count (self (retries req attempt elapsed st)) =
  request_count (self st) + Z.of_nat (length elapsed).
Proof.
  induction elapsed as [|dt rest IH]; intros attempt st; simpl.
  - lia.
  - rewrite IH. simpl. lia.
Qed.

Lemma retries_cached_requests elapsed : forall attempt st,
  cached_requests (self (retries req attempt elapsed st)) = cached_requests (self st).
Proof.
  induction elapsed as [|dt rest IH]; intros attempt st; simpl; [|rewrite IH]; reflexivity.
Qed.

Lemma retries_cache elapsed : forall attempt st,
  cache (self (retries req attempt elapsed st)) = cache (self st).
Proof.
  induction elapsed as [|dt rest IH]; intros attempt st; simpl; [|rewrite IH]; reflexivity.
Qed.

Lemma retries_memos elapsed : forall attempt st,
  memos (retries req attempt elapsed st) = memos st.
Proof.
  induction elapsed as [|dt rest IH]; intros attempt st; simpl; [|rewrite IH]; reflexivity.
Qed.

Lemma retries_history elapsed : forall attempt st,
  history (world (retries req attempt elapsed st)) =
  (history (world st) ++ repeat req (length elapsed))%list.
Proof.
  induction elapsed as [|dt rest IH]; intros attempt st; simpl.
  - by rewrite app_nil_r.
  - rewrite IH. simpl. by rewrite <- app_assoc.
Qed.

Lemma retries_slept elapsed : forall attempt st,
  slept (world (retries req attempt elapsed st)) =
  (slept (world st)
   ++ List.map (fun a => 2 ^ Z.of_nat a + 1) (seq attempt (length elapsed)))%list.
Proof.
  induction elapsed as [|dt rest IH]; intros attempt st; simpl.
  - by rewrite app_nil_r.
  - rewrite IH. simpl. by rewrite <- app_assoc.
Qed.

(** While attempts remain, every retried outcome moves the loop to the
    next attempt. *)
Lemma request_loop_retries limit cache_key (failures : list (Outcome * Z)) :
  forall (attempt remaining : nat) more st,
    Forall (fun f => retried (fst f) = true) failures ->
    Z.of_nat (attempt + length failures) <= limit - 1 ->
    plays st (exchanges req failures ++ more) ->
    request_loop limit cache_key req
      (List.map Z.of_nat (seq attempt (length failures + remaining))) st =
    request_loop limit cache_key req
      (List.map Z.of_nat (seq (attempt + length failures) remaining))
      (retries req attempt (List.map snd failures) st)
    /\ plays (retries req attempt (List.map snd failures) st) more.
Proof.
  induction failures as [|[o dt] failures IH]; intros attempt remaining more st Hall Hlim Hplays.
  - simpl. rewrite Nat.add_0_r. auto.
  - inversion Hall as [|? ? Ho Hall']; subst. simpl in Ho.
    destruct Hplays as [Hsrv Hplays].
    assert (Z.of_nat attempt < limit - 1) as Hlt by (simpl in Hlim; lia).
    assert (request_attempt limit cache_key req (Z.of_nat attempt) st =
            (Ok Continue, backed_off (2 ^ Z.of_nat attempt + 1) (sent req dt st)))
      as Hstep.
    { destruct o as [r|e].
      - by apply attempt_retry with (r := r).
      - apply attempt_transport_retry with (e := e); auto.
        destruct e; simpl in Ho; auto; discriminate. }
    specialize (IH (S attempt) remaining more
                   (backed_off (2 ^ Z.of_nat attempt + 1) (sent req dt st)) Hall').
    destruct IH as [IHloop IHplays].
    + simpl in Hlim |- *. lia.
    + exact Hplays.
    + split.
      * simpl. unfold bind at 1. rewrite Hstep.
        rewrite IHloop. simpl.
        by replace (attempt + S (length failures))%nat
          with (S attempt + length failures)%nat by lia.
      * exact IHplays.
Qed.

End Retries.

(** A call that misses the cache sends its request until an outcome ends
    the loop: after [failures] that were retried, [o] ends it when it is
    not retried or when it answers the third attempt. *)
Lemma make_request_run method url use_cache kwargs st failures o dt :
  cached_response (request_key method url use_cache kwargs) st = None ->
  Forall (fun f => retried (fst f) = true) failures ->
  (length failures <= 2)%nat ->
  retried o = false \/ length failures = 2%nat ->
  plays st (exchanges (physical method url kwargs) (failures ++ [(o, dt)])) ->
  _make_request method url use_cache kwargs st =
    (Ok (final_value o),
     settled (request_key method url use_cache kwargs) o
       (sent (physical method url kwargs) dt
          (retries (physical method url kwargs) 0 (List.map snd failures) st))).
Proof.
  intros Hmiss Hall Hlen Hend Hplays.
  set (req := physical method url kwargs) in *.
  set (ck := request_key method url use_cache kwargs) in *.
  unfold _make_request. fold ck. fold req.
  unfold bind at 1. unfold gets. rewrite Hmiss.
  unfold exchanges in Hplays. rewrite map_app in Hplays.
  destruct (request_loop_retries req max_retries ck failures 0
              (3 - length failures) [(req, (o, dt))] st Hall) as [Hloop Hrest].
  { unfold max_retries. lia. }
  { exact Hplays. }
  replace (range max_retries)
    with (List.map Z.of_nat (seq 0 (length failures + (3 - length failures)))).
  2:{ unfold range, max_retries. f_equal. f_equal. lia. }
  rewrite Hloop. clear Hloop.
  destruct Hrest as [Hsrv _].
  set (st_n := retries req 0 (List.map snd failures) st) in *.
  destruct (3 - length failures)%nat as [|remaining] eqn:Hrem; [lia|].
  simpl seq. simpl List.map. simpl request_loop. unfold bind at 1.
  assert (request_attempt max_retries ck req (Z.of_nat (length failures)) st_n =
          (Ok (Return (final_value o)), settled ck o (sent req dt st_n))) as Hstep.
  { destruct o as [r|e]; simpl.
    - destruct (Z.ltb_spec (status_code r) 400) as [Hlt|Hge].
      + rewrite andb_true_r. by apply attempt_success.
      + rewrite andb_false_r.
        destruct (retryable (status_code r)) eqn:Hretry.
        * apply attempt_exhausted; auto.
          destruct Hend as [Hend|Hend]; [simpl in Hend; congruence|].
          unfold max_retries. lia.
        * by apply attempt_client_error.
    - destruct (retried (Raised e)) eqn:Hretry.
      + apply attempt_transport_exhausted with (e := e); auto.
        * destruct e; simpl in Hretry; auto; discriminate.
        * destruct Hend as [Hend|Hend]; [congruence|].
          unfold max_retries. lia.
      + apply attempt_unexpected with (e := e); auto; intros ->; discriminate. }
  rewrite Hstep. reflexivity.
Qed.

Lemma settled_world cache_key o st : world (settled cache_key o st) = world st.
Proof.
  destruct o as [r|e]; simpl; [|reflexivity].
  destruct (key_set cache_key && (status_code r <? 400)); reflexivity.
Qed.

Lemma settled_request_count cache_key o st :
  request_count (self (settled cache_key o st)) = request_count (self st).
Proof.
  destruct o as [r|e]; simpl; [|reflexivity].
  destruct (key_set cache_key && (status_code r <? 400)); reflexivity.
Qed.

Lemma settled_cached_requests cache_key o st :
  cached_requests (self (settled cache_key o st)) = cached_requests (self st).
Proof.
  destruct o as [r|e]; simpl; [|reflexivity].
  destruct (key_set cache_key && (status_code r <? 400)); reflexivity.
Qed.

Lemma settled_memos cache_key o st : memos (settled cache_key o st) = memos st.
Proof.
  destruct o as [r|e]; simpl; [|reflexivity].
  destruct (key_set cache_key && (status_code r <? 400)); reflexivity.
Qed.

(** A status of 400 or more leaves the cache as it was. *)
Lemma settled_failure cache_key r st :
  400 <= status_code r -> settled cache_key (Responded r) st = st.
Proof.
  intros Hge. apply Z.ltb_ge in Hge. simpl. by rewrite Hge, andb_false_r.
Qed.

Lemma range_seq (n : nat) : range (Z.of_nat n) = List.map Z.of_nat (seq 0 n).
Proof. unfold range. by rewrite Nat2Z.id. Qed.

(** The counters, the requests sent and the sleeps made by a run of the
    loop that took [n] retried attempts and a last one. *)
Lemma run_accounting cache_key req o dt elapsed st :
  let st' := settled cache_key o (sent req dt (retries req 0 elapsed st)) in
  request_count (self st') = request_count (self st) + Z.of_nat (length elapsed) + 1
  /\ cached_requests (self st') = cached_requests (self st)
  /\ history (world st') = (history (world st) ++ repeat req (S (length elapsed)))%list
  /\ slept (world st') =
     (slept (world st) ++ List.map (fun a => 2 ^ a + 1) (range (Z.of_nat (length elapsed))))%list
  /\ memos st' = memos st.
Proof.
  simpl.
  rewrite settled_request_count, settled_cached_requests, settled_world, settled_memos.
  simpl.
  rewrite retries_request_count, retries_cached_requests, retries_history,
    retries_slept, retries_memos.
  repeat split.
  - rewrite <- app_assoc. f_equal. symmetry. apply repeat_cons.
  - f_equal. rewrite range_seq. by rewrite List.map_map.
Qed.

(** * The loop on statuses *)

Lemma answers_retried failures :
  Forall (fun f : Response * Z => retryable (status_code (fst f)) = true) failures ->
  Forall (fun f : Outcome * Z => retried (fst f) = true)
         (List.map (fun f : Response * Z => (Responded (fst f), snd f)) failures).
Proof.
  intros H. apply Forall_map. eapply Forall_impl; [exact H|]. auto.
Qed.

(** The loop of [_make_request] on a status of 429, 500, 502, 503 or 504
    that a session hands up (the client's own session never does, see
    [own_session_absorbs]; a session without the adapter of
    [_setup_session] would): it sleeps [2 ^ attempt + 1] seconds, attempts
    counted from 0, and there are 3 attempts in all.  When at most 2
    consecutive such responses are followed by a success the call returns
    that success, and when the third attempt is answered by such a response
    too the call ends there and returns that response as it came. *)
Lemma loop_retries_statuses method url use_cache kwargs st failures final dt :
  cached_response (request_key method url use_cache kwargs) st = None ->
  (length failures <= 2)%nat ->
  Forall (fun f => retryable (status_code (fst f)) = true) failures ->
  status_code final < 400 \/
    (retryable (status_code final) = true /\ length failures = 2%nat) ->
  plays st (exchanges (physical method url kwargs) (answers failures final dt)) ->
  exists st',
    _make_request method url use_cache kwargs st = (Ok (response_obj final), st')
    /\ request_count (self st') =
       request_count (self st) + Z.of_nat (length failures) + 1
    /\ history (world st') =
       (history (world st)
        ++ repeat (physical method url kwargs) (S (length failures)))%list
    /\ slept (world st') =
       (slept (world st)
        ++ List.map (fun attempt => 2 ^ attempt + 1)
                    (range (Z.of_nat (length failures))))%list.
Proof.
  intros Hmiss Hlen Hall Hfinal Hplays.
  pose proof (run_accounting (request_key method url use_cache kwargs)
                (physical method url kwargs) (Responded final) dt
                (List.map snd (List.map
                   (fun f : Response * Z => (Responded (fst f), snd f)) failures))
                st) as Hacc.
  rewrite !length_map in Hacc. cbv zeta in Hacc.
  destruct Hacc as (Hcount & _ & Hhist & Hslept & _).
  eexists. split; [|split; [exact Hcount|split; [exact Hhist|exact Hslept]]].
  apply make_request_run with (o := Responded final); auto.
  - by apply answers_retried.
  - by rewrite length_map.
  - rewrite length_map. simpl.
    destruct Hfinal as [Hlt | [_ Hn]]; [left | by right].
    destruct (retryable (status_code final)) eqn:Hretry; [|reflexivity].
    apply retryable_not_terminal in Hretry as [H400 _].
    apply Z.ltb_ge in H400. lia.
Qed.

(** A session that hands up two 503 responses and then the document, and
    one that hands up three: the loop returns the document after sleeping
    2 and 3 seconds, and the third 503. *)
Example loop_on_statuses :
  let run2 := _make_request "GET" user_url true [] flaky_twice in
  let run3 := _make_request "GET" user_url true [] flaky_thrice in
  fst run2 = Ok (response_obj octocat)
  /\ slept (world (snd run2)) = [2; 3]
  /\ request_count (self (snd run2)) = 3
  /\ fst run3 = Ok (response_obj unavailable)
  /\ slept (world (snd run3)) = [2; 3]
  /\ request_count (self (snd run3)) = 3.
Proof. vm_compute. auto 10. Qed.

(** * Authentication failures *)

(** C2.  A 401 or 403 response ends the call at the attempt that received
    it, whatever is left of the budget: it is returned as it came, no
    attempt follows it and no sleep either.  When it answers the first
    attempt ([failures] empty) the call made exactly one attempt. *)
Theorem auth_failure_not_retried method url use_cache kwargs st failures r dt :
  cached_response (request_key method url use_cache kwargs) st = None ->
  (length failures <= 2)%nat ->
  Forall (fun f => retried (fst f) = true) failures ->
  status_code r = 401 \/ status_code r = 403 ->
  plays st (exchanges (physical method url kwargs) (failures ++ [(Responded r, dt)])) ->
  exists st',
    _make_request method url use_cache kwargs st = (Ok (response_obj r), st')
    /\ request_count (self st') =
       request_count (self st) + Z.of_nat (length failures) + 1
    /\ history (world st') =
       (history (world st)
        ++ repeat (physical method url kwargs) (S (length failures)))%list
    /\ slept (world st') =
       (slept (world st)
        ++ List.map (fun attempt => 2 ^ attempt + 1)
                    (range (Z.of_nat (length failures))))%list
    /\ cache (self st') = cache (self st).
Proof.
  intros Hmiss Hlen Hall Hauth Hplays.
  pose proof (run_accounting (request_key method url use_cache kwargs)
                (physical method url kwargs) (Responded r) dt
                (List.map snd failures) st) as Hacc.
  rewrite length_map in Hacc. cbv zeta in Hacc.
  destruct Hacc as (Hcount & _ & Hhist & Hslept & _).
  eexists. split.
  - apply make_request_run with (failures := failures) (o := Responded r) (dt := dt);
      auto.
    left. simpl.
    destruct (retryable (status_code r)) eqn:Hretry; [|reflexivity].
    apply retryable_iff in Hretry. lia.
  - split; [exact Hcount|]. split; [exact Hhist|]. split; [exact Hslept|].
    rewrite settled_failure by lia. simpl. apply retries_cache.
Qed.

Lemma auth_failure_not_retried_witness :
  exists st',
    _make_request "GET" user_url true [] bad_token = (Ok (response_obj unauthorized), st')
    /\ request_count (self st') = request_count (self bad_token) + Z.of_nat 0 + 1
    /\ history (world st') =
       (history (world bad_token) ++ repeat (physical "GET" user_url []) 1)%list
    /\ slept (world st') =
       (slept (world bad_token)
        ++ List.map (fun attempt => 2 ^ attempt + 1) (range (Z.of_nat 0)))%list
    /\ cache (self st') = cache (self bad_token).
Proof.
  apply (auth_failure_not_retried "GET" user_url true [] bad_token [] unauthorized 1000).
  - vm_compute. reflexivity.
  - simpl. lia.
  - constructor.
  - left. reflexivity.
  - vm_compute. auto.
Defined.

(** * What every dispatch preserves *)

(** Every attempt either ends the loop with the value of its outcome or,
    when the outcome is retried and attempts remain, sleeps and goes on. *)
Lemma request_attempt_cases limit cache_key req attempt st :
  exists o dt,
    server (world st) (history (world st)) req = (o, dt)
    /\ ((request_attempt limit cache_key req attempt st =
           (Ok (Return (final_value o)), settled cache_key o (sent req dt st))
         /\ (retried o = false \/ limit - 1 <= attempt))
        \/ (request_attempt limit cache_key req attempt st =
              (Ok Continue, backed_off (2 ^ attempt + 1) (sent req dt st))
            /\ retried o = true /\ attempt < limit - 1)).
Proof.
  destruct (server (world st) (history (world st)) req) as [o dt] eqn:Hsrv.
  exists o, dt. split; [reflexivity|].
  destruct (Z.lt_ge_cases attempt (limit - 1)) as [Hlt|Hge].
  - destruct (retried o) eqn:Hretry.
    + right. split; [|auto].
      destruct o as [r|e].
      * by apply attempt_retry with (r := r).
      * apply attempt_transport_retry with (e := e); auto.
        destruct e; simpl in Hretry; auto; discriminate.
    + left. split; [|auto].
      destruct o as [r|e]; simpl in Hretry |- *.
      * destruct (Z.ltb_spec (status_code r) 400) as [H400|H400].
        -- rewrite andb_true_r. by apply attempt_success.
        -- rewrite andb_false_r. by apply attempt_client_error.
      * apply attempt_unexpected with (e := e); auto; intros ->; discriminate.
  - left. split; [|auto].
    destruct o as [r|e]; simpl.
    + destruct (Z.ltb_spec (status_code r) 400) as [H400|H400].
      * rewrite andb_true_r. by apply attempt_success.
      * rewrite andb_false_r.
        destruct (retryable (status_code r)) eqn:Hretry.
        -- by apply attempt_exhausted.
        -- by apply attempt_client_error.
    + destruct (retried (Raised e)) eqn:Hretry.
      * apply attempt_transport_exhausted with (e := e); auto.
        destruct e; simpl in Hretry; auto; discriminate.
      * apply attempt_unexpected with (e := e); auto; intros ->; discriminate.
Qed.

Lemma dispatched_last cache_key req o dt st :
  dispatched cache_key req 1 (final_value o) st (settled cache_key o (sent req dt st)).
Proof.
  unfold dispatched.
  rewrite settled_world, settled_request_count, settled_cached_requests.
  split; [reflexivity|]. split; [reflexivity|]. split; [reflexivity|].
  split.
  { unfold same_setting. rewrite settled_memos, settled_world.
    destruct o as [r|e]; simpl; [|by repeat split].
    destruct (key_set cache_key && (status_code r <? 400)); by repeat split. }
  destruct o as [r|e]; simpl.
  - destruct (key_set cache_key) eqn:Hkey; simpl.
    + destruct (Z.ltb_spec (status_code r) 400) as [H400|H400]; simpl.
      * split.
        -- right. split; [first [exact Hkey | reflexivity]|]. split; [|reflexivity].
           by exists (status_code r), (json r), (content r).
        -- intros _ _. apply lookup_insert_eq.
      * split; [by left|].
        intros (status & doc & raw & Hv & Hlt) _.
        unfold response_obj in Hv. inversion Hv; subst. lia.
    + split; [by left|]. intros _ Hfalse. congruence.
  - split; [by left|].
    intros (status & doc & raw & Hv & _). discriminate.
Qed.

Lemma dispatched_step cache_key req k v s dt st st' :
  dispatched cache_key req k v (backed_off s (sent req dt st)) st' ->
  dispatched cache_key req (S k) v st st'.
Proof.
  unfold dispatched. simpl.
  intros (Hhist & Hcount & Hcached & Hsame & Hcache & Hstored).
  split. { rewrite Hhist, <- app_assoc. reflexivity. }
  split. { rewrite Hcount. lia. }
  split. { exact Hcached. }
  split. { destruct Hsame as (?&?&?&?&?&?). by repeat split. }
  split. { exact Hcache. }
  exact Hstored.
Qed.

(** The loop never raises: it ends in a value after at least one and at
    most as many attempts as it was given. *)
Lemma request_loop_dispatched limit cache_key req attempts : forall st,
  attempts <> [] ->
  exists v st' k,
    request_loop limit cache_key req attempts st = (Ok v, st')
    /\ (1 <= k <= length attempts)%nat
    /\ dispatched cache_key req k v st st'.
Proof.
  induction attempts as [|attempt rest IH]; intros st Hne; [congruence|].
  destruct (request_attempt_cases limit cache_key req attempt st)
    as (o & dt & Hsrv & [[Hstep _] | (Hstep & _ & _)]).
  - exists (final_value o), (settled cache_key o (sent req dt st)), 1%nat.
    split. { simpl. unfold bind. by rewrite Hstep. }
    split. { simpl. lia. }
    apply dispatched_last.
  - destruct rest as [|next rest'].
    + exists PyNone, (backed_off (2 ^ attempt + 1) (sent req dt st)), 1%nat.
      split. { simpl. unfold bind. by rewrite Hstep. }
      split. { simpl. lia. }
      unfold dispatched. simpl.
      split; [reflexivity|]. split; [reflexivity|]. split; [reflexivity|].
      split; [by repeat split|].
      split; [by left|].
      intros (status & doc & raw & Hv & _). discriminate.
    + destruct (IH (backed_off (2 ^ attempt + 1) (sent req dt st)))
        as (v & st' & k & Hloop & Hk & Hdisp); [congruence|].
      exists v, st', (S k).
      split. { simpl. unfold bind at 1. rewrite Hstep. exact Hloop. }
      split. { simpl in Hk |- *. lia. }
      by eapply dispatched_step.
Qed.

Lemma make_request_eq method url use_cache kwargs st :
  _make_request method url use_cache kwargs st =
  match cached_response (request_key method url use_cache kwargs) st with
  | Some v =>
      (Ok v, on_self (fun c => set_cached_requests (cached_requests c + 1) c) st)
  | None =>
      request_loop max_retries (request_key method url use_cache kwargs)
        (physical method url kwargs) (range max_retries) st
  end.
Proof.
  unfold _make_request, bind at 1, gets.
  destruct (cached_response _ st); reflexivity.
Qed.

Lemma make_request_cases method url use_cache kwargs st :
  let cache_key := request_key method url use_cache kwargs in
  (exists v,
      cached_response cache_key st = Some v
      /\ _make_request method url use_cache kwargs st =
         (Ok v, on_self (fun c => set_cached_requests (cached_requests c + 1) c) st))
  \/ (cached_response cache_key st = None
      /\ exists v st' k,
          _make_request method url use_cache kwargs st = (Ok v, st')
          /\ (1 <= k <= 3)%nat
          /\ dispatched cache_key (physical method url kwargs) k v st st').
Proof.
  intros cache_key. rewrite make_request_eq. fold cache_key.
  destruct (cached_response cache_key st) as [v|] eqn:Hhit.
  - left. exists v. split; reflexivity.
  - right. split; [reflexivity|].
    destruct (request_loop_dispatched max_retries cache_key
                (physical method url kwargs) (range max_retries) st)
      as (v & st' & k & Hloop & Hk & Hdisp).
    { vm_compute. discriminate. }
    exists v, st', k. split; [exact Hloop|]. split; [|exact Hdisp].
    change (length (range max_retries)) with 3%nat in Hk. exact Hk.
Qed.

(** * The digest as a cache key *)

Lemma ascii_of_byte_inj x y :
  0 <= x < 256 -> 0 <= y < 256 -> ascii_of_byte x = ascii_of_byte y -> x = y.
Proof.
  unfold ascii_of_byte. intros Hx Hy Heq.
  rewrite !Z.mod_small in Heq by lia.
  apply (f_equal N_of_ascii) in Heq.
  rewrite !N_ascii_embedding in Heq by lia.
  lia.
Qed.

(** A hexadecimal digit is one of [0-9a-f]. *)
Lemma hex_digit_range n :
  0 <= n < 16 ->
  exists c, hex_digit n = ascii_of_byte c /\ (48 <= c <= 57 \/ 97 <= c <= 102).
Proof.
  intros Hn. unfold hex_digit.
  destruct (Z.ltb_spec n 10); eexists; split; try reflexivity; lia.
Qed.

Lemma hexdigest_head msg :
  exists n rest, 0 <= n < 16 /\ MD5.hexdigest msg = String (hex_digit n) rest.
Proof.
  unfold MD5.hexdigest, MD5.digest.
  destruct (fold_left MD5.compress _ MD5.init) as [[[a b] c] d].
  simpl. eexists _, _. split; [|reflexivity].
  pose proof (Z.mod_pos_bound a 256). 
  split; [apply Z.div_pos | apply Z.div_lt_upper_bound]; lia.
Qed.

(** The digest is never the empty text, so a cache key, once set, is true
    in [if cache_key and ...]. *)
Lemma request_key_set method url use_cache kwargs k :
  request_key method url use_cache kwargs = Some k -> key_set (Some k) = true.
Proof.
  unfold request_key, request_cache_key.
  destruct (use_cache && _); [|discriminate].
  intros [= <-]. unfold key_set.
  match goal with
  | |- context [MD5.hexdigest ?msg] =>
      destruct (hexdigest_head msg) as (n & rest & _ & ->)
  end.
  reflexivity.
Qed.

Lemma prefix_head_ne a b s1 s2 :
  a <> b -> String.prefix (String a s1) (String b s2) = false.
Proof.
  intros Hne.
  change (String.prefix (String a s1) (String b s2))
    with (if ascii_dec a b then String.prefix s1 s2 else false).
  destruct (ascii_dec a b); [contradiction|reflexivity].
Qed.

(** No digest starts with [repo_]: the keys of cached responses and the
    keys of cached repository documents never meet. *)
Lemma hexdigest_not_repo msg : String.prefix "repo_" (MD5.hexdigest msg) = false.
Proof.
  destruct (hexdigest_head msg) as (n & rest & Hn & ->).
  destruct (hex_digit_range n Hn) as (c & -> & Hc).
  apply prefix_head_ne. intros Heq.
  change "r"%char with (ascii_of_byte 114) in Heq.
  apply ascii_of_byte_inj in Heq; lia.
Qed.

(** * Reading through the cache *)

Lemma fresh_entry_Some ttl key (entries : Entries) t v :
  fresh_entry ttl key entries t = Some v <->
  exists timestamp, entries !! key = Some (v, timestamp) /\ t - timestamp < seconds ttl.
Proof.
  unfold fresh_entry.
  destruct (entries !! key) as [[v' timestamp]|].
  - destruct (Z.ltb_spec (t - timestamp) (seconds ttl)) as [Hlt|Hge].
    + split.
      * intros [= ->]. eauto.
      * intros (ts & [= -> ->] & _). reflexivity.
    + split; [discriminate|].
      intros (ts & [= -> ->] & Hlt). lia.
  - split; [discriminate|]. intros (ts & Hnone & _). discriminate.
Qed.

Lemma request_key_get method url kwargs :
  upper method = "GET" ->
  request_key method url true kwargs = Some (request_cache_key url kwargs).
Proof. unfold request_key. intros ->. reflexivity. Qed.

(** A fresh entry under the key of the request answers the call: the value
    is returned as it was stored, nothing is sent, and only the counter of
    cached requests moves. *)
Lemma make_request_hit method url kwargs st v stored_at :
  upper method = "GET" ->
  cache (self st) !! request_cache_key url kwargs = Some (v, stored_at) ->
  now (world st) - stored_at < seconds (cache_expiry (self st)) ->
  _make_request method url true kwargs st =
    (Ok v, on_self (fun c => set_cached_requests (cached_requests c + 1) c) st).
Proof.
  intros Hget Hentry Hfresh.
  rewrite make_request_eq, (request_key_get _ _ _ Hget).
  assert (cached_response (Some (request_cache_key url kwargs)) st = Some v) as ->.
  { apply fresh_entry_Some. eauto. }
  reflexivity.
Qed.

(** After a cached GET read has returned a success, the response sits
    in [self.cache] under the key of the request, stamped [stored_at] (the
    moment the read ended, when it went to the network).  A second read of
    the same request made while that entry is in place and less than
    [cache_expiry] seconds old returns the identical response: the world is
    untouched (nothing sent, no sleep), the total-request counter does not
    move and the cached-request counter goes up by one. *)
Lemma dispatch_read_repeats method url kwargs st v st1 :
  upper method = "GET" ->
  _make_request method url true kwargs st = (Ok v, st1) ->
  (exists status doc raw, v = PyResponse status doc raw /\ status < 400) ->
  exists stored_at,
    cache (self st1) !! request_cache_key url kwargs = Some (v, stored_at)
    /\ (cached_response (request_key method url true kwargs) st = None ->
        stored_at = now (world st1))
    /\ forall st2,
        cache (self st2) !! request_cache_key url kwargs = Some (v, stored_at) ->
        now (world st2) - stored_at < seconds (cache_expiry (self st2)) ->
        exists st2',
          _make_request method url true kwargs st2 = (Ok v, st2')
          /\ world st2' = world st2
          /\ request_count (self st2') = request_count (self st2)
          /\ cached_requests (self st2') = cached_requests (self st2) + 1
          /\ cache (self st2') = cache (self st2).
Proof.
  intros Hget Hrun Hsuccess.
  assert (exists stored_at,
    cache (self st1) !! request_cache_key url kwargs = Some (v, stored_at)
    /\ (cached_response (request_key method url true kwargs) st = None ->
        stored_at = now (world st1))) as (stored_at & Hentry & Hstamp).
  { destruct (make_request_cases method url true kwargs st)
      as [(v' & Hhit & Heq) | (Hmiss & v' & st' & k & Heq & _ & Hdisp)];
      rewrite Heq in Hrun; injection Hrun as <- <-.
    - pose proof Hhit as Hhit'.
      rewrite (request_key_get _ _ _ Hget) in Hhit'.
      apply fresh_entry_Some in Hhit' as (ts & Hentry & _).
      exists ts. split; [exact Hentry|].
      intros Hmiss. congruence.
    - exists (now (world st')). split; [|auto].
      destruct Hdisp as (_ & _ & _ & _ & _ & Hstored).
      rewrite (request_key_get _ _ _ Hget) in Hstored.
      apply Hstored; [exact Hsuccess|].
      eapply request_key_set. by apply request_key_get. }
  exists stored_at. split; [exact Hentry|]. split; [exact Hstamp|].
  intros st2 Hentry2 Hfresh.
  eexists. split; [by eapply make_request_hit|].
  repeat split.
Qed.

(** One microsecond short of five minutes later the second read is served
    from the cache; at five minutes it goes to the network again. *)
Example second_read_within_ttl :
  let st2 := idle 299999999 (snd first_read) in
  let second := _make_request "GET" user_url true [] st2 in
  fst second = Ok (response_obj octocat)
  /\ history (world (snd second)) = history (world st2)
  /\ request_count (self (snd second)) = 1
  /\ cached_requests (self (snd second)) = 1.
Proof. vm_compute. auto. Qed.

Example second_read_after_ttl :
  let st2 := idle 300000000 (snd first_read) in
  let second := _make_request "GET" user_url true [] st2 in
  fst second = Ok PyNone
  /\ length (history (world (snd second))) = 4%nat
  /\ request_count (self (snd second)) = 4
  /\ cached_requests (self (snd second)) = 0.
Proof. vm_compute. auto. Qed.

(** * Usage accounting *)




(** * Which operations touch the cache *)






Lemma request_key_uncached method url kwargs :
  request_key method url false kwargs = None.
Proof. reflexivity. Qed.

(** A call with [use_cache=False] neither reads nor writes the cache. *)
Lemma keeps_cache_uncached method url kwargs :
  keeps_cache (_make_request method url false kwargs).
Proof.
  intros st.
  destruct (make_request_cases method url false kwargs st)
    as [(v & Hhit & _) | (_ & v & st' & k & -> & _ & Hdisp)].
  - discriminate Hhit.
  - destruct Hdisp as (_ & _ & _ & _ & [Hsame | (Hkey & _)] & _).
    + exact Hsame.
    + discriminate Hkey.
Qed.





(** [_clear_repo_cache] removes exactly the keys that start with [repo_]. *)
Lemma clear_repo_cache_lookup st k :
  cache (self (snd (_clear_repo_cache st))) !! k =
  if String.prefix "repo_" k then None else cache (self st) !! k.
Proof.
  unfold _clear_repo_cache, modify. simpl.
  destruct (String.prefix "repo_" k) eqn:Hprefix.
  - apply map_lookup_filter_None. right. intros v _. simpl. congruence.
  - destruct (cache (self st) !! k) as [v|] eqn:Hk.
    + apply map_lookup_filter_Some. split; [exact Hk | exact Hprefix].
    + apply map_lookup_filter_None. by left.
Qed.

(** A single exchange that ends the call at once. *)
Lemma make_request_once method url use_cache kwargs st o dt :
  cached_response (request_key method url use_cache kwargs) st = None ->
  retried o = false ->
  plays st [(physical method url kwargs, (o, dt))] ->
  _make_request method url use_cache kwargs st =
    (Ok (final_value o),
     settled (request_key method url use_cache kwargs) o
       (sent (physical method url kwargs) dt st)).
Proof.
  intros Hmiss Hend Hplays.
  apply (make_request_run method url use_cache kwargs st [] o dt); auto.
Qed.

(** * Invalidation *)




(** The list of repositories read before a creation is served again after
    it, from the dictionary of the decorator. *)
Example listing_survives_create :
  let st := boot "token" "alice"
              (scripted [respond 200 (Some alice_repos) [];
                         respond 201 (Some created_repo) [];
                         respond 200 (Some bob_repos) []] 1000) in
  let listed := get_user_repos st in
  let created := create_repo "drive" false (snd listed) in
  let listed_again := get_user_repos (snd created) in
  fst listed = Ok alice_repos
  /\ fst created = Ok created_repo
  /\ fst listed_again = Ok alice_repos
  /\ history (world (snd listed_again)) = history (world (snd created)).
Proof. vm_compute. auto. Qed.

Example stale_read_after_upload :
  let after_write := snd read_then_write in
  let read := get_file_info "drive" "notes.txt" after_write in
  fst read_then_write = Ok notes_v2
  /\ fst read = Ok notes_v1
  /\ history (world (snd read)) = history (world after_write)
  /\ length (history (world after_write)) = 4%nat.
Proof. vm_compute. auto. Qed.

(** * The write protocol *)

Lemma uncached_sends method url kwargs st v st' :
  _make_request method url false kwargs st = (Ok v, st') ->
  exists k, (1 <= k <= 3)%nat
    /\ history (world st') = (history (world st) ++ repeat (physical method url kwargs) k)%list.
Proof.
  intros Hrun.
  destruct (make_request_cases method url false kwargs st)
    as [(v' & Hhit & _) | (_ & v' & st'' & k & Heq & Hk & Hdisp)].
  - discriminate Hhit.
  - rewrite Heq in Hrun. injection Hrun as <- <-.
    exists k. split; [exact Hk|]. by destruct Hdisp as (Hhist & _).
Qed.

(** C5.  [upload_file] first sends a write without a revision hash.  When
    that create is answered 201 the call is over after this one dispatch
    and returns the document of the response.  When it is answered 422 the
    metadata of the file is fetched with the cache switched off, so the
    fetch goes to the network whatever the cache holds; if the fetch does
    not come back as a 200, or its document has no [sha] to give, the
    upload fails; otherwise the write is sent again carrying the [sha] of
    the fetched document, and the upload returns the document of that
    second write when it is answered 200 and fails when it is not. *)
Theorem upload_write_protocol repo path content message st r1 dt1 :
  let user := username (self st) in
  let url := contents_url user repo path in
  let create := put_request user repo path message content None in
  let fetch := fetch_request user repo path in
  let st1 := sent create dt1 st in
  plays st [(create, (Responded r1, dt1))] ->
  lookup_item "json" (kwargs create) =
    Some (PyDict [("message", PyStr message);
                  ("content", PyStr (decode (Base64.b64encode content)))])
  /\ (status_code r1 = 201 ->
      upload_file repo path content message st = (Ok (default PyNone (json r1)), st1)
      /\ history (world st1) = (history (world st) ++ [create])%list)
  /\ (status_code r1 = 422 ->
      forall g st2,
        _make_request "GET" url false [] st1 = (Ok g, st2) ->
        (exists k, (1 <= k <= 3)%nat
           /\ history (world st2) = (history (world st) ++ create :: repeat fetch k)%list)
        /\ (not_ok_200 g ->
            upload_file repo path content message st = (Ok PyNone, st2))
        /\ (forall doc raw e,
              g = PyResponse 200 doc raw ->
              fetched_sha g = Raise e ->
              upload_file repo path content message st = (Ok PyNone, st2))
        /\ (forall doc raw sha,
              g = PyResponse 200 doc raw ->
              fetched_sha g = Ok sha ->
              let update := put_request user repo path message content (Some sha) in
              lookup_item "json" (kwargs update) =
                Some (PyDict [("message", PyStr message);
                              ("content", PyStr (decode (Base64.b64encode content)));
                              ("sha", sha)])
              /\ forall p st3,
                  _make_request "PUT" url false
                    [("json", write_data message content (Some sha))] st2 = (Ok p, st3) ->
                  (exists k, (1 <= k <= 3)%nat
                     /\ history (world st3) = (history (world st2) ++ repeat update k)%list)
                  /\ (forall doc' raw',
                        p = PyResponse 200 doc' raw' ->
                        upload_file repo path content message st =
                          (Ok (default PyNone doc'), st3))
                  /\ (not_ok_200 p ->
                      upload_file repo path content message st = (Ok PyNone, st3)))).
Proof.
  intros user url create fetch st1 Hplays.
  assert (forall status, status_code r1 = status -> retryable status = false ->
          _make_request "PUT" url false [("json", write_data message content None)] st
          = (Ok (response_obj r1), st1)) as Hfirst.
  { intros status Hstatus Hretry.
    assert (retried (Responded r1) = false) as Hend by (simpl; by rewrite Hstatus).
    exact (make_request_once "PUT" url false
             [("json", write_data message content None)] st (Responded r1) dt1
             eq_refl Hend Hplays). }
  split; [reflexivity|]. split.
  - intros H201. split; [|reflexivity].
    unfold upload_file, try_except, upload_file_try.
    unfold bind at 1. unfold gets. unfold bind at 1.
    fold user. fold url. rewrite (Hfirst 201 H201 eq_refl).
    unfold response_obj. rewrite H201. simpl.
    destruct (json r1); reflexivity.
  - intros H422 g st2 Hfetch.
    assert (upload_file repo path content message st =
            _update_existing_file repo path content message st1) as Hupload.
    { unfold upload_file, try_except, upload_file_try.
      unfold bind at 1. unfold gets. unfold bind at 1.
      fold user. fold url. rewrite (Hfirst 422 H422 eq_refl).
      unfold response_obj. rewrite H422. simpl.
      unfold bind at 1. unfold lift at 1. simpl.
      unfold _update_existing_file, try_except.
      destruct (_update_existing_file_try repo path content message st1) as [[v|e] st'];
        reflexivity. }
    rewrite Hupload.
    assert (username (self st1) = user) as Huser1 by reflexivity.
    split; [|split; [|split]].
    + destruct (uncached_sends _ _ _ _ _ _ Hfetch) as (k & Hk & Hhist).
      exists k. split; [exact Hk|].
      rewrite Hhist. simpl. by rewrite <- app_assoc.
    + intros Hbad.
      unfold _update_existing_file, try_except, _update_existing_file_try.
      unfold bind at 1. unfold gets. unfold bind at 1.
      rewrite Huser1. fold url. rewrite Hfetch.
      destruct Hbad as [-> | (status & doc & raw & -> & Hne)]; [reflexivity|].
      apply Z.eqb_neq in Hne. unfold bind, lift, ret. simpl.
      destruct (ok status); simpl; [rewrite Hne|]; reflexivity.
    + intros doc raw e -> Hsha.
      unfold _update_existing_file, try_except, _update_existing_file_try.
      unfold bind at 1. unfold gets. unfold bind at 1.
      rewrite Huser1. fold url. rewrite Hfetch.
      unfold bind at 1. simpl.
      destruct doc as [file_info|]; unfold fetched_sha in Hsha; simpl in Hsha;
        [|reflexivity].
      unfold bind at 1. simpl.
      unfold bind at 1. unfold lift at 1. rewrite Hsha. reflexivity.
    + intros doc raw sha -> Hsha update. split; [reflexivity|].
      intros p st3 Hput.
      destruct doc as [file_info|]; unfold fetched_sha in Hsha; simpl in Hsha;
        [|discriminate Hsha].
      assert (_update_existing_file repo path content message st1 =
              try_except
                (put_status <- (if truthy p then lift (py_status_code p) else ret 0) ;;
                 if truthy p && (put_status =? 200) then lift (py_json p)
                 else ret PyNone)%monad
                (fun _ => ret PyNone) st3) as ->.
      { unfold _update_existing_file, try_except, _update_existing_file_try.
        unfold bind at 1. unfold gets. unfold bind at 1.
        rewrite Huser1. fold url. rewrite Hfetch.
        unfold bind at 1. simpl.
        unfold bind at 1. simpl.
        unfold bind at 1. unfold lift at 1. rewrite Hsha.
        unfold bind at 1.
        rewrite Hput. reflexivity. }
      split; [|split].
      * destruct (uncached_sends _ _ _ _ _ _ Hput) as (k & Hk & Hhist).
        exists k. split; [exact Hk | exact Hhist].
      * intros doc' raw' ->. unfold try_except, bind, lift, ret. simpl.
        destruct doc'; reflexivity.
      * intros [-> | (status & doc' & raw' & -> & Hne)]; [reflexivity|].
        apply Z.eqb_neq in Hne. unfold try_except, bind, lift, ret. simpl.
        destruct (ok status); simpl; [rewrite Hne|]; reflexivity.
Qed.

Lemma upload_write_protocol_witness :
  upload_file "drive" "notes.txt" (encode "new") "update notes" cached_notes =
    (Ok notes_v2, snd read_then_write)
  /\ history (world (snd read_then_write)) =
     [ physical "GET" notes_url [];
       put_request "octocat" "drive" "notes.txt" "update notes" (encode "new") None;
       fetch_request "octocat" "drive" "notes.txt";
       put_request "octocat" "drive" "notes.txt" "update notes" (encode "new")
                   (Some (PyStr "3b18e5")) ].
Proof.
  pose proof (upload_write_protocol "drive" "notes.txt" (encode "new") "update notes"
                cached_notes (mkResponse 422 None []) 1000) as H.
  cbv zeta in H.
  destruct H as (_ & _ & Hconflict); [vm_compute; auto|].
  set (st1 := sent (put_request (username (self cached_notes)) "drive" "notes.txt"
                      "update notes" (encode "new") None) 1000 cached_notes) in *.
  destruct (Hconflict eq_refl (PyResponse 200 (Some notes_v1) [])
              (snd (_make_request "GET" notes_url false [] st1)))
    as (_ & _ & _ & Hupdate); [vm_compute; reflexivity|].
  destruct (Hupdate (Some notes_v1) [] (PyStr "3b18e5") eq_refl eq_refl)
    as (_ & Hwrite).
  destruct (Hwrite (PyResponse 200 (Some notes_v2) []) (snd read_then_write))
    as (_ & Hdone & _); [vm_compute; reflexivity|].
  split; [exact (Hdone (Some notes_v2) [] eq_refl)|].
  vm_compute. reflexivity.
Defined.

(** A path that does not exist yet: one write, without a revision hash. *)
Example upload_new_file :
  let st := boot "token" "octocat" (scripted [respond 201 (Some notes_v2) []] 1000) in
  let run := upload_file "drive" "notes.txt" (encode "new") "add notes" st in
  fst run = Ok notes_v2
  /\ history (world (snd run)) =
     [put_request "octocat" "drive" "notes.txt" "add notes" (encode "new") None]
  /\ write_data "add notes" (encode "new") None =
     PyDict [("message", PyStr "add notes"); ("content", PyStr "bmV3")].
Proof. vm_compute. auto. Qed.

(** A second conflict on the update is not retried: the upload fails. *)
Example upload_second_conflict :
  let st := boot "token" "octocat"
              (scripted [respond 422 None []; respond 200 (Some notes_v1) [];
                         respond 409 None []; respond 200 (Some notes_v2) []] 1000) in
  let run := upload_file "drive" "notes.txt" (encode "new") "update notes" st in
  fst run = Ok PyNone /\ length (history (world (snd run))) = 3%nat.
Proof. vm_compute. auto. Qed.

(** * Download *)

Lemma download_attempt_cases limit url attempt st :
  exists o dt,
    server (world st) (history (world st)) (raw_request url) = (o, dt)
    /\ ((exists v, download_attempt limit url attempt st =
                     (Ok (Return v), fetched (raw_request url) dt st)
                   /\ (forall r, o = Responded r -> status_code r = 200 ->
                                 v = PyBytes (content r)))
        \/ (exists s, download_attempt limit url attempt st =
                        (Ok Continue, backed_off s (fetched (raw_request url) dt st)))).
Proof.
  destruct (server (world st) (history (world st)) (raw_request url)) as [o dt] eqn:Hsrv.
  exists o, dt. split; [reflexivity|].
  unfold download_attempt, try_except, bind, session_request.
  rewrite Hsrv.
  destruct o as [r|e]; simpl.
  - destruct (Z.eqb_spec (status_code r) 200) as [H200|H200].
    + left. eexists. split; [reflexivity|]. intros r' [= <-] _. reflexivity.
    + destruct (retryable (status_code r)), (attempt <? limit - 1);
        try (left; eexists; split; [reflexivity|]; intros r' [= <-] ?; congruence).
      right. eexists. reflexivity.
  - destruct e, (attempt <? limit - 1);
      try (left; eexists; split; [reflexivity|]; intros r' ?; discriminate);
      right; eexists; reflexivity.
Qed.

(** The raw download is a loop of its own: it never raises, makes between
    one and three requests to the reference, and leaves the client (its
    counters and its cache) and the decorators' dictionaries alone. *)
Lemma download_loop_bounded limit url attempts : forall st,
  attempts <> [] ->
  exists v st' k,
    download_loop limit url attempts st = (Ok v, st')
    /\ (1 <= k <= length attempts)%nat
    /\ history (world st') = (history (world st) ++ repeat (raw_request url) k)%list
    /\ self st' = self st
    /\ memos st' = memos st.
Proof.
  induction attempts as [|attempt rest IH]; intros st Hne; [congruence|].
  destruct (download_attempt_cases limit url attempt st)
    as (o & dt & Hsrv & [(v & Hstep & _) | (s & Hstep)]).
  - exists v, (fetched (raw_request url) dt st), 1%nat.
    split. { simpl. unfold bind. by rewrite Hstep. }
    split. { simpl. lia. }
    repeat split.
  - destruct rest as [|next rest'].
    + exists PyNone, (backed_off s (fetched (raw_request url) dt st)), 1%nat.
      split. { simpl. unfold bind. by rewrite Hstep. }
      split. { simpl. lia. }
      repeat split.
    + destruct (IH (backed_off s (fetched (raw_request url) dt st)))
        as (v & st' & k & Hloop & Hk & Hhist & Hself & Hmemos); [congruence|].
      exists v, st', (S k).
      split. { simpl. unfold bind at 1. rewrite Hstep. exact Hloop. }
      split. { simpl in Hk |- *. lia. }
      split. { rewrite Hhist. simpl. by rewrite <- app_assoc. }
      split; assumption.
Qed.

(** The metadata fetch needs all three of its attempts; the raw download
    still has three of its own, sleeps 3 seconds after its first 503, and
    does not count in [request_count]. *)
Example download_by_reference :
  let st := boot "token" "octocat"
              (scripted [Responded unavailable; Responded unavailable;
                         respond 200 (Some big_file) [];
                         Responded unavailable; respond 200 None [1; 2; 3]] 1000) in
  let run := download_file "drive" "big.bin" st in
  fst run = Ok (PyBytes [1; 2; 3])
  /\ drop 3 (history (world (snd run))) = [raw_request raw_url; raw_request raw_url]
  /\ slept (world (snd run)) = [2; 3; 3]
  /\ request_count (self (snd run)) = 3.
Proof. vm_compute. auto. Qed.

(** A directory: the document is a list, or a dictionary of another type. *)
Example download_directory :
  let listing := PyList [PyDict [("type", PyStr "file"); ("name", PyStr "a.txt")]] in
  let marked := PyDict [("type", PyStr "dir"); ("download_url", raw_url)] in
  let run1 := download_file "drive" "docs"
                (boot "token" "octocat" (scripted [respond 200 (Some listing) []] 1000)) in
  let run2 := download_file "drive" "docs"
                (boot "token" "octocat" (scripted [respond 200 (Some marked) []] 1000)) in
  fst run1 = Ok PyNone /\ length (history (world (snd run1))) = 1%nat
  /\ fst run2 = Ok PyNone /\ length (history (world (snd run2))) = 1%nat.
Proof. vm_compute. auto. Qed.

(** * Cache keys *)

Lemma byte_of_ascii_of_byte c : 0 <= c < 256 -> byte_of_ascii (ascii_of_byte c) = c.
Proof.
  intros Hc. unfold byte_of_ascii, ascii_of_byte.
  rewrite Z.mod_small by lia. rewrite N_ascii_embedding by lia. lia.
Qed.

Lemma hex_digit_is_hex n : 0 <= n < 16 -> is_hex_digit (hex_digit n) = true.
Proof.
  intros Hn. destruct (hex_digit_range n Hn) as (c & -> & Hc).
  unfold is_hex_digit. rewrite byte_of_ascii_of_byte by lia.
  apply orb_true_iff.
  destruct Hc; [left | right]; apply andb_true_iff; split; apply Z.leb_le; lia.
Qed.

Lemma le_bytes_range n : forall x,
  length (MD5.le_bytes n x) = n /\ Forall (fun b => 0 <= b < 256) (MD5.le_bytes n x).
Proof.
  induction n as [|n IH]; intros x; simpl.
  - split; [reflexivity | constructor].
  - destruct (IH (x / 256)) as [Hlen Hall]. split; [by rewrite Hlen|].
    constructor; [apply Z.mod_pos_bound; lia | exact Hall].
Qed.

Lemma digest_shape msg :
  length (MD5.digest msg) = 16%nat /\ Forall (fun b => 0 <= b < 256) (MD5.digest msg).
Proof.
  unfold MD5.digest.
  destruct (fold_left MD5.compress _ MD5.init) as [[[a b] c] d].
  destruct (le_bytes_range 4 a) as [Ha Ha'], (le_bytes_range 4 b) as [Hb Hb'],
    (le_bytes_range 4 c) as [Hc Hc'], (le_bytes_range 4 d) as [Hd Hd'].
  split.
  - rewrite !length_app, Ha, Hb, Hc, Hd. reflexivity.
  - repeat (apply Forall_app; split); assumption.
Qed.

Lemma hex_text_cons b bs :
  hex_text (b :: bs) =
  String (hex_digit (b / 16)) (String (hex_digit (b mod 16)) (hex_text bs)).
Proof. reflexivity. Qed.

Lemma hex_text_shape (bs : bytes) :
  Forall (fun b => 0 <= b < 256) bs ->
  String.length (hex_text bs) = (2 * length bs)%nat
  /\ all_chars is_hex_digit (hex_text bs) = true.
Proof.
  induction 1 as [|b bs Hb _ IH]; [split; reflexivity|].
  destruct IH as [Hlen Hhex]. rewrite hex_text_cons. split.
  - simpl String.length. rewrite Hlen. simpl. lia.
  - simpl all_chars. rewrite Hhex, !hex_digit_is_hex; [reflexivity| |].
    + pose proof (Z.mod_pos_bound b 16). lia.
    + split; [apply Z.div_pos | apply Z.div_lt_upper_bound]; lia.
Qed.

(** Every digest is 32 hexadecimal digits in lower case. *)
Lemma hexdigest_shape msg :
  String.length (MD5.hexdigest msg) = 32%nat
  /\ all_chars is_hex_digit (MD5.hexdigest msg) = true.
Proof.
  destruct (digest_shape msg) as [Hlen Hall].
  destruct (hex_text_shape _ Hall) as [Hlen' Hhex].
  change (MD5.hexdigest msg) with (hex_text (MD5.digest msg)).
  split; [|exact Hhex].
  rewrite Hlen', Hlen. reflexivity.
Qed.

Lemma encode_app s1 s2 : encode (s1 +:+ s2) = (encode s1 ++ encode s2)%list.
Proof. induction s1 as [|a s1 IH]; [reflexivity|]. simpl. by rewrite IH. Qed.

Lemma ascii_of_byte_of_ascii a : ascii_of_byte (byte_of_ascii a) = a.
Proof.
  unfold ascii_of_byte, byte_of_ascii.
  pose proof (N_ascii_bounded a) as Hbound.
  rewrite Z.mod_small by lia.
  rewrite N2Z.id. apply ascii_N_embedding.
Qed.

Lemma encode_inj s1 : forall s2, encode s1 = encode s2 -> s1 = s2.
Proof.
  induction s1 as [|a s1 IH]; intros [|b s2] Heq; try discriminate; [reflexivity|].
  cbn [encode] in Heq. injection Heq as Hhead Htail.
  rewrite <- (ascii_of_byte_of_ascii a), <- (ascii_of_byte_of_ascii b), Hhead.
  f_equal. by apply IH.
Qed.

Lemma append_inj_r (p s1 s2 : string) : p +:+ s1 = p +:+ s2 -> s1 = s2.
Proof.
  induction p as [|a p IH]; [done|].
  change (String a (p +:+ s1) = String a (p +:+ s2) -> s1 = s2).
  intros [= Heq]. by apply IH.
Qed.

Lemma append_assoc (s1 s2 s3 : string) : (s1 +:+ s2) +:+ s3 = s1 +:+ (s2 +:+ s3).
Proof.
  induction s1 as [|a s1 IH]; [done|].
  change (String a ((s1 +:+ s2) +:+ s3) = String a (s1 +:+ s2 +:+ s3)).
  by rewrite IH.
Qed.

Lemma word_char_plain a :
  is_word_char a = true ->
  byte_of_ascii a < 128
  /\ escape_char 39 (byte_of_ascii a) = String a ""
  /\ byte_of_ascii a <> 39.
Proof.
  unfold is_word_char. cbv zeta. intros Hword.
  assert ((48 <= byte_of_ascii a <= 57) \/ (65 <= byte_of_ascii a <= 90)
          \/ byte_of_ascii a = 95 \/ (97 <= byte_of_ascii a <= 122)) as Hrange.
  { rewrite !orb_true_iff, !andb_true_iff, !Z.leb_le, Z.eqb_eq in Hword. tauto. }
  split; [lia|]. split; [|lia].
  unfold escape_char, is_printable.
  repeat match goal with
         | |- context [?x =? ?y] =>
             destruct (Z.eqb_spec x y); [lia|]
         end.
  destruct (Z.leb_spec 32 (byte_of_ascii a)); [|lia].
  cbn [andb negb]. by rewrite ascii_of_byte_of_ascii.
Qed.

(** The literal of a plain keyword is the keyword between apostrophes. *)
Lemma repr_plain k : plain_key k = true -> repr_str k = "'" +:+ k +:+ "'".
Proof.
  intros Hplain.
  assert (contains 39 (encode k) = false /\ escape_text 39 (encode k) = k) as [Hquote Htext].
  { induction k as [|a k IH]; [split; reflexivity|].
    cbn [plain_key all_chars] in Hplain. apply andb_true_iff in Hplain as [Ha Hk].
    destruct (IH Hk) as [IHquote IHtext].
    destruct (word_char_plain a Ha) as (Hascii & Hescape & Hnot_quote).
    split.
    - cbn [encode contains existsb]. fold (contains 39 (encode k)). rewrite IHquote.
      destruct (Z.eqb_spec 39 (byte_of_ascii a)); [lia | reflexivity].
    - cbn [encode escape_text].
      destruct (Z.ltb_spec (byte_of_ascii a) 128); [|lia].
      by rewrite Hescape, IHtext. }
  unfold repr_str, quote_for. cbv zeta. rewrite Hquote. cbn [andb].
  by rewrite Htext.
Qed.

Lemma plain_no_quote k : plain_key k = true -> forall t1 k' t2,
  plain_key k' = true ->
  k +:+ "'" +:+ t1 = k' +:+ "'" +:+ t2 -> k = k'.
Proof.
  induction k as [|a k IH]; intros Hk t1 [|b k'] t2 Hk' Heq.
  - reflexivity.
  - exfalso. cbn in Heq. injection Heq as Hhead _.
    cbn [plain_key all_chars] in Hk'. apply andb_true_iff in Hk' as [Hb _].
    destruct (word_char_plain b Hb) as (_ & _ & Hnot). by subst b.
  - exfalso. cbn in Heq. injection Heq as Hhead _.
    cbn [plain_key all_chars] in Hk. apply andb_true_iff in Hk as [Ha _].
    destruct (word_char_plain a Ha) as (_ & _ & Hnot). by subst a.
  - cbn in Heq. injection Heq as -> Htail.
    cbn [plain_key all_chars] in Hk, Hk'.
    apply andb_true_iff in Hk as [_ Hk]. apply andb_true_iff in Hk' as [_ Hk'].
    f_equal. by apply (IH Hk t1 k' t2 Hk').
Qed.

Lemma items_text_plain k v rest :
  plain_key k = true ->
  exists tail, items_text ((k, v) :: rest) = "'" +:+ k +:+ "'" +:+ tail.
Proof.
  intros Hk. unfold items_text. cbn [List.map fst snd]. rewrite (repr_plain k Hk).
  destruct rest as [|item rest].
  - exists (": " +:+ repr v). cbn [join]. by rewrite !append_assoc.
  - eexists. cbn [join List.map]. rewrite !append_assoc. reflexivity.
Qed.

Lemma items_text_app pre item rest :
  pre <> [] ->
  items_text (pre ++ item :: rest) =
  items_text pre +:+ ", " +:+ items_text (item :: rest).
Proof.
  unfold items_text. induction pre as [|p [|q pre] IH]; intros Hne; [done| |].
  - reflexivity.
  - change (join ", " (List.map ?f ((p :: q :: pre) ++ item :: rest)))
      with (f p +:+ ", " +:+ join ", " (List.map f ((q :: pre) ++ item :: rest))).
    rewrite IH by discriminate.
    change (join ", " (List.map ?f (p :: q :: pre)))
      with (f p +:+ ", " +:+ join ", " (List.map f (q :: pre))).
    by rewrite !append_assoc.
Qed.

(** Keyword lists that agree up to a position and name different plain
    keywords there are different texts. *)
Lemma dict_text_differs pre k1 v1 rest1 k2 v2 rest2 :
  plain_key k1 = true -> plain_key k2 = true -> k1 <> k2 ->
  str (PyDict (pre ++ (k1, v1) :: rest1)) <> str (PyDict (pre ++ (k2, v2) :: rest2)).
Proof.
  intros Hk1 Hk2 Hne Heq.
  change (str (PyDict ?items)) with ("{" +:+ items_text items +:+ "}") in Heq.
  apply (append_inj_r "{") in Heq.
  destruct (items_text_plain k1 v1 rest1 Hk1) as (t1 & Ht1).
  destruct (items_text_plain k2 v2 rest2 Hk2) as (t2 & Ht2).
  assert (items_text ((k1, v1) :: rest1) +:+ "}" = items_text ((k2, v2) :: rest2) +:+ "}")
    as Hitems.
  { destruct pre as [|p pre]; [exact Heq|].
    rewrite !items_text_app in Heq by discriminate.
    rewrite !append_assoc in Heq.
    apply append_inj_r in Heq. by apply (append_inj_r ", ") in Heq. }
  rewrite Ht1, Ht2, !append_assoc in Hitems.
  apply (append_inj_r "'") in Hitems.
  apply Hne. by apply (plain_no_quote k1 Hk1 _ k2 _ Hk2 Hitems).
Qed.

Lemma lookup_item_absent k items :
  k ∉ List.map fst items -> lookup_item k items = None.
Proof.
  induction items as [|[k' v] items IH]; [done|].
  cbn [List.map fst lookup_item]. intros Hnot.
  apply not_elem_of_cons in Hnot as [Hne Hnot].
  destruct (String.eqb_spec k k'); [done | by apply IH].
Qed.

(** The same keywords in another order bind every name to the same value. *)
Lemma reordered_same_bindings (kwargs1 kwargs2 : Kwargs) :
  Permutation kwargs1 kwargs2 -> NoDup (List.map fst kwargs1) ->
  forall name, lookup_item name kwargs1 = lookup_item name kwargs2.
Proof.
  induction 1 as [|[k v] l l' Hperm IH|[k1 v1] [k2 v2] l|l l' l'' H1 IH1 H2 IH2];
    intros Hnodup name.
  - reflexivity.
  - cbn [List.map fst] in Hnodup. apply NoDup_cons in Hnodup as [_ Hnodup].
    cbn [lookup_item]. by rewrite (IH Hnodup).
  - cbn [List.map fst] in Hnodup.
    apply NoDup_cons in Hnodup as [Hnot _]. apply not_elem_of_cons in Hnot as [Hne _].
    cbn [lookup_item].
    destruct (String.eqb_spec name k1), (String.eqb_spec name k2); congruence.
  - rewrite (IH1 Hnodup). apply IH2.
    pose proof (Permutation_map fst H1) as Hkeys. by rewrite <- Hkeys.
Qed.

(** Two orders of the same keywords part ways at some position, with
    different names. *)
Lemma reordered_split (kwargs1 : Kwargs) : forall kwargs2,
  Permutation kwargs1 kwargs2 -> kwargs1 <> kwargs2 -> NoDup (List.map fst kwargs1) ->
  exists pre k1 v1 rest1 k2 v2 rest2,
    kwargs1 = (pre ++ (k1, v1) :: rest1)%list
    /\ kwargs2 = (pre ++ (k2, v2) :: rest2)%list
    /\ k1 <> k2.
Proof.
  induction kwargs1 as [|[k1 v1] rest1 IH]; intros [|[k2 v2] rest2] Hperm Hne Hnodup.
  - done.
  - by apply Permutation_nil_cons in Hperm.
  - symmetry in Hperm. by apply Permutation_nil_cons in Hperm.
  - destruct (String.eqb_spec k1 k2) as [<-|Hkeys].
    + assert (v2 = v1) as ->.
      { pose proof (reordered_same_bindings _ _ Hperm Hnodup k1) as Hbind.
        cbn [lookup_item] in Hbind. rewrite String.eqb_refl in Hbind. congruence. }
      cbn [List.map fst] in Hnodup. apply NoDup_cons in Hnodup as [_ Hnodup].
      apply Permutation_cons_inv in Hperm.
      destruct (IH rest2 Hperm) as (pre & a & x & r1 & b & y & r2 & -> & -> & Hab);
        [congruence | exact Hnodup |].
      by exists ((k1, v1) :: pre), a, x, r1, b, y, r2.
    + by exists [], k1, v1, rest1, k2, v2, rest2.
Qed.

Lemma same_keywords : same_request user_url user_url timeout_first stream_first.
Proof.
  split; [reflexivity|]. intros name. simpl.
  destruct (String.eqb_spec name "timeout") as [->|]; [reflexivity|].
  destruct (String.eqb_spec name "stream"); reflexivity.
Qed.

(** C8 (as amended).  The cache key of a request is 32 lower-case
    hexadecimal digits, the MD5 digest of the URL followed by [str(kwargs)]
    with the keywords in the order they were passed, and so is the key of
    the decorator, the digest of [str(args)] followed by [str(kwargs)].
    Nothing is canonicalized before hashing.  The same keywords (plain
    names, each passed once) in another order are the same request, each
    name bound to the same value, and yet a different text goes into the
    hash; the keys that come out differ for [timeout=5, stream=True]
    against [stream=True, timeout=5].  A positional argument left to its
    default changes the key of the decorator in the same way. *)
Theorem cache_key_digest url kwargs1 kwargs2 :
  Permutation kwargs1 kwargs2 ->
  kwargs1 <> kwargs2 ->
  NoDup (List.map fst kwargs1) ->
  Forall (fun kv => plain_key (fst kv) = true) kwargs1 ->
  same_request url url kwargs1 kwargs2
  /\ hashed_text url kwargs1 <> hashed_text url kwargs2
  /\ request_cache_key url kwargs1 = MD5.hexdigest (hashed_text url kwargs1)
  /\ request_cache_key url kwargs2 = MD5.hexdigest (hashed_text url kwargs2)
  /\ (String.length (request_cache_key url kwargs1) = 32%nat
      /\ all_chars is_hex_digit (request_cache_key url kwargs1) = true)
  /\ (forall args kwargs,
        String.length (memo_key args kwargs) = 32%nat
        /\ all_chars is_hex_digit (memo_key args kwargs) = true)
  /\ (same_request user_url user_url timeout_first stream_first
      /\ request_cache_key user_url timeout_first = "085d9fcb0febd66137b00fdb46379597"
      /\ request_cache_key user_url stream_first = "cac0186ffa24036e040938761a49b423")
  /\ (memo_key [PyStr "drive"] [] = "0ce1617c6c30980be39cc79ef3992041"
      /\ memo_key [PyStr "drive"; PyStr ""] [] = "c3c60e326b47f8330634c4e049fd6294").
Proof.
  intros Hperm Hne Hnodup Hplain.
  split.
  { split; [reflexivity|]. by apply reordered_same_bindings. }
  split.
  { destruct (reordered_split kwargs1 kwargs2 Hperm Hne Hnodup)
      as (pre & k1 & v1 & rest1 & k2 & v2 & rest2 & -> & -> & Hkeys).
    assert (plain_key k1 = true) as Hk1.
    { apply Forall_app in Hplain as [_ Hplain]. by apply Forall_cons_1 in Hplain as [? _]. }
    assert (plain_key k2 = true) as Hk2.
    { assert (Forall (fun kv => plain_key (fst kv) = true) (pre ++ (k2, v2) :: rest2))
        as Hplain2 by (by rewrite <- Hperm).
      apply Forall_app in Hplain2 as [_ Hplain2].
      by apply Forall_cons_1 in Hplain2 as [? _]. }
    unfold hashed_text. intros Heq.
    apply encode_inj, append_inj_r in Heq.
    by apply (dict_text_differs pre k1 v1 rest1 k2 v2 rest2 Hk1 Hk2 Hkeys). }
  split; [reflexivity|]. split; [reflexivity|].
  split; [apply hexdigest_shape|].
  split; [intros args kwargs; apply hexdigest_shape|].
  split.
  { split; [exact same_keywords|]. split; vm_compute; reflexivity. }
  split; vm_compute; reflexivity.
Qed.

Lemma cache_key_digest_witness :
  same_request user_url user_url timeout_first stream_first
  /\ hashed_text user_url timeout_first <> hashed_text user_url stream_first.
Proof.
  destruct (cache_key_digest user_url timeout_first stream_first)
    as (Hsame & Htext & _).
  - apply perm_swap.
  - discriminate.
  - cbn [List.map fst timeout_first]. apply NoDup_cons. split; [|apply NoDup_singleton].
    intros Hin. apply list_elem_of_singleton in Hin. discriminate Hin.
  - repeat constructor.
  - split; [exact Hsame | exact Htext].
Defined.

(** The same request with its keywords in another order has another key. *)
Lemma cache_key_counterexample : ~ key_as_specified.
Proof.
  intros H.
  destruct (H user_url timeout_first user_url stream_first) as [Hsame _].
  specialize (Hsame same_keywords).
  vm_compute in Hsame. discriminate Hsame.
Qed.

(** * Instances *)

Lemma cache_result_eq expiry memo func args kwargs st :
  cache_result expiry memo func args kwargs st =
  match fresh_entry expiry (memo_key args kwargs) (memo_of memo (memos st))
          (now (world st)) with
  | Some result => (Ok result, st)
  | None =>
      match func st with
      | (Ok result, st') =>
          (Ok result,
           if is_none result then st'
           else on_memos (fun m =>
                  set_memo memo (<[memo_key args kwargs := (result, now (world st'))]>
                                   (memo_of memo m)) m) st')
      | (Raise e, st') => (Raise e, st')
      end
  end.
Proof.
  unfold cache_result, bind at 1, gets.
  destruct (fresh_entry _ _ _ _); [reflexivity|].
  unfold bind at 1. destruct (func st) as [[result|e] st']; [|reflexivity].
  unfold bind, ret, modify, datetime_now, gets.
  destruct (is_none result); reflexivity.
Qed.

Lemma memo_of_set_memo memo e m : memo_of memo (set_memo memo e m) = e.
Proof. destruct memo; reflexivity. Qed.

(** A result that is not [None] is in the dictionary of the decorated
    function when the call returns. *)
Lemma cache_result_stored expiry memo func args kwargs st v st1 :
  cache_result expiry memo func args kwargs st = (Ok v, st1) ->
  is_none v = false ->
  exists stored_at,
    memo_of memo (memos st1) !! memo_key args kwargs = Some (v, stored_at).
Proof.
  rewrite cache_result_eq. intros Hrun Hsome.
  destruct (fresh_entry _ _ _ _) as [result|] eqn:Hhit.
  - injection Hrun as <- <-.
    apply fresh_entry_Some in Hhit as (ts & Hentry & _). eauto.
  - destruct (func st) as [[result|e] st'] eqn:Hfunc; [|discriminate].
    injection Hrun as <- <-. rewrite Hsome.
    exists (now (world st')). simpl. rewrite memo_of_set_memo.
    apply lookup_insert_eq.
Qed.

(** An entry of the dictionary that has not expired answers the call for
    whatever instance makes it: the instance is not consulted and nothing
    is sent. *)
Lemma cache_result_hit expiry memo func args kwargs st v stored_at :
  memo_of memo (memos st) !! memo_key args kwargs = Some (v, stored_at) ->
  now (world st) - stored_at < seconds expiry ->
  cache_result expiry memo func args kwargs st = (Ok v, st).
Proof.
  intros Hentry Hfresh. rewrite cache_result_eq.
  assert (fresh_entry expiry (memo_key args kwargs) (memo_of memo (memos st))
            (now (world st)) = Some v) as ->.
  { apply fresh_entry_Some. eauto. }
  reflexivity.
Qed.

(** C9 (as amended).  The attributes of an instance are its own: a method
    called on one instance leaves every other instance ([self.cache],
    [request_count], [cached_requests]) as it was.  The dictionaries of
    [cache_result] are not attributes: a result of [get_user_repos] that is
    not [None] stays in the dictionary of the function, and for 300
    seconds any instance of the process that calls [get_user_repos] gets
    that result back without a request being sent.  [close] closes the
    session and nothing else: the cache, the counters and the
    dictionaries are as they were. *)
Theorem instance_ownership {A} (m : M A) i j p r p1 st v st1 :
  i <> j ->
  call i m p = Some (r, p1) ->
  get_user_repos st = (Ok v, st1) ->
  is_none v = false ->
  instances p1 !! j = instances p !! j
  /\ (exists stored_at,
        get_user_repos_memo (memos st1) !! memo_key [] [] = Some (v, stored_at)
        /\ forall other st2,
            memos st2 = memos st1 ->
            now (world st2) - stored_at < seconds 300 ->
            get_user_repos (as_instance other st2) = (Ok v, as_instance other st2))
  /\ (let st' := snd (close st) in
      cache (self st') = cache (self st)
      /\ request_count (self st') = request_count (self st)
      /\ cached_requests (self st') = cached_requests (self st)
      /\ memos st' = memos st
      /\ session_open (self st') = false).
Proof.
  intros Hne Hcall Hrun Hsome.
  split; [|split].
  - unfold call in Hcall.
    destruct (instances p !! i) as [c|]; [|discriminate].
    destruct (m _) as [r' st']. injection Hcall as _ <-. simpl.
    by apply lookup_insert_ne.
  - destruct (cache_result_stored _ _ _ _ _ _ _ _ Hrun Hsome) as (stored_at & Hentry).
    exists stored_at. split; [exact Hentry|].
    intros other st2 Hmemos Hfresh.
    unfold get_user_repos.
    apply cache_result_hit with (stored_at := stored_at).
    + change (memos (as_instance other st2)) with (memos st2).
      rewrite Hmemos. exact Hentry.
    + exact Hfresh.
  - cbv zeta. unfold close, modify. cbn [snd].
    split; [reflexivity|]. split; [reflexivity|]. split; [reflexivity|].
    split; reflexivity.
Qed.

Lemma instance_ownership_witness :
  instances after_alice !! 1%nat = instances two_users !! 1%nat
  /\ (exists stored_at,
        get_user_repos_memo (memos (snd (get_user_repos alice_starts))) !! memo_key [] []
          = Some (alice_repos, stored_at)
        /\ forall other st2,
            memos st2 = memos (snd (get_user_repos alice_starts)) ->
            now (world st2) - stored_at < seconds 300 ->
            get_user_repos (as_instance other st2) = (Ok alice_repos, as_instance other st2))
  /\ (let st' := snd (close alice_starts) in
      cache (self st') = cache (self alice_starts)
      /\ request_count (self st') = request_count (self alice_starts)
      /\ cached_requests (self st') = cached_requests (self alice_starts)
      /\ memos st' = memos alice_starts
      /\ session_open (self st') = false).
Proof.
  apply (instance_ownership get_user_repos 0%nat 1%nat two_users (Ok alice_repos)
           after_alice alice_starts alice_repos (snd (get_user_repos alice_starts))).
  - discriminate.
  - vm_compute. reflexivity.
  - vm_compute. reflexivity.
  - reflexivity.
Defined.

(** Bob asks for his repositories after alice asked for hers and is given
    hers, without a request; and a closed client still has its cache and
    its counters. *)
Lemma instance_ownership_counterexample : ~ instances_isolated /\ ~ close_destroys.
Proof.
  split.
  - intros H.
    specialize (H 0%nat 1%nat two_users (Ok alice_repos) after_alice).
    assert (fst <$> call 1 get_user_repos after_alice = Some (Ok alice_repos)) as Hshared
      by (vm_compute; reflexivity).
    assert (fst <$> call 1 get_user_repos
                      (mkProcess (instances after_alice) (shared two_users)
                                 (outside after_alice))
            = Some (Ok bob_repos)) as Hown by (vm_compute; reflexivity).
    rewrite Hshared, Hown in H.
    assert (Some (Ok alice_repos) = Some (Ok bob_repos)) as Habsurd.
    { apply H; [discriminate | vm_compute; reflexivity]. }
    discriminate Habsurd.
  - intros H.
    destruct (H (snd first_read)) as (_ & Hcount & _).
    vm_compute in Hcount. discriminate Hcount.
Qed.

Example bob_reads_alice :
  let run := call 1 get_user_repos after_alice in
  fst <$> run = Some (Ok alice_repos)
  /\ (history ∘ outside ∘ snd) <$> run = Some (history (outside after_alice))
  /\ length (history (outside after_alice)) = 1%nat.
Proof. vm_compute. auto. Qed.

(** * No exception leaves the client *)

Lemma total_ret {A} (a : A) : total (ret a).
Proof. intros st. by exists a, st. Qed.

Lemma total_modify (f : State -> State) : total (modify f).
Proof. intros st. by exists tt, (f st). Qed.

Lemma total_bind {A B} (m : M A) (k : A -> M B) :
  total m -> (forall a, total (k a)) -> total (bind m k).
Proof.
  intros Hm Hk st. destruct (Hm st) as (a & st' & Ha).
  destruct (Hk a st') as (b & st'' & Hb).
  exists b, st''. unfold bind. by rewrite Ha.
Qed.

Lemma total_try {A} (body : M A) (failure : A) :
  total (try_except body (fun _ => ret failure)).
Proof.
  intros st. unfold try_except.
  destruct (body st) as [[a|e] st']; eauto.
Qed.

Lemma fails_with_try {A} (body : M A) (failure : A) :
  fails_with (try_except body (fun _ => ret failure)) body failure.
Proof. intros st e st' Hbody. unfold try_except. by rewrite Hbody. Qed.

Lemma total_make_request method url use_cache kwargs :
  total (_make_request method url use_cache kwargs).
Proof.
  intros st.
  destruct (make_request_cases method url use_cache kwargs st)
    as [(v & _ & Heq) | (_ & v & st' & k & Heq & _)]; eauto.
Qed.

Lemma total_cache_result expiry memo func args kwargs :
  total func -> total (cache_result expiry memo func args kwargs).
Proof.
  intros Hfunc st. rewrite cache_result_eq.
  destruct (fresh_entry _ _ _ _); [eauto|].
  destruct (Hfunc st) as (v & st' & ->). eauto.
Qed.

Lemma total_get_repo_by_name name : total (get_repo_by_name name).
Proof.
  intros st. unfold get_repo_by_name, bind at 1, gets.
  destruct (fresh_entry _ _ _ _); [eauto|].
  apply total_try.
Qed.

Lemma total_batch_upload repo files message :
  total (batch_upload_files repo files message).
Proof.
  induction files as [|[path content] rest IH]; simpl.
  - apply total_ret.
  - apply total_bind; [apply total_try|]. intros result.
    apply total_bind; [exact IH|]. intros results. apply total_ret.
Qed.

(** C10.  No public operation lets an exception out.  The dispatch itself
    always returns; an exception of the session that is neither a timeout
    nor a connection error makes it return [None] at the attempt that
    raised, with no sleep and no attempt after it.  Every operation returns
    in every state, and when the block under its [try] raises it returns
    its failure value: [None] for the operations that return metadata or
    bytes, the empty list for [list_files], [False] for [delete_file] and
    [enable_lfs]. *)
Theorem operations_never_raise method url use_cache kwargs st failures e dt :
  cached_response (request_key method url use_cache kwargs) st = None ->
  (length failures <= 2)%nat ->
  Forall (fun f => retried (fst f) = true) failures ->
  e <> RequestsTimeout ->
  e <> RequestsConnectionError ->
  plays st (exchanges (physical method url kwargs) (failures ++ [(Raised e, dt)])) ->
  (exists st',
      _make_request method url use_cache kwargs st = (Ok PyNone, st')
      /\ request_count (self st') =
         request_count (self st) + Z.of_nat (length failures) + 1
      /\ history (world st') =
         (history (world st)
          ++ repeat (physical method url kwargs) (S (length failures)))%list
      /\ slept (world st') =
         (slept (world st)
          ++ List.map (fun attempt => 2 ^ attempt + 1)
                      (range (Z.of_nat (length failures))))%list)
  /\ (forall method' url' use_cache' kwargs',
        total (_make_request method' url' use_cache' kwargs'))
  /\ (total get_user_repos
      /\ (forall name, total (get_repo_by_name name))
      /\ (forall name private, total (create_repo name private))
      /\ (forall repo path content message,
            total (upload_file repo path content message))
      /\ (forall repo files message, total (batch_upload_files repo files message))
      /\ (forall repo path, total (list_files repo path))
      /\ (forall repo path, total (download_file repo path))
      /\ (forall repo path sha message, total (delete_file repo path sha message))
      /\ (forall repo path, total (get_file_info repo path))
      /\ (forall repo, total (enable_lfs repo))
      /\ total clear_cache
      /\ total close)
  /\ (fails_with get_user_repos_undecorated get_user_repos_try PyNone
      /\ (forall name private,
            fails_with (create_repo name private) (create_repo_try name private) PyNone)
      /\ (forall repo path content message,
            fails_with (upload_file repo path content message)
                       (upload_file_try repo path content message) PyNone)
      /\ (forall repo path content message,
            fails_with (_update_existing_file repo path content message)
                       (_update_existing_file_try repo path content message) PyNone)
      /\ (forall repo path,
            fails_with (list_files_undecorated repo path) (list_files_try repo path)
                       (PyList []))
      /\ (forall repo path,
            fails_with (download_file repo path) (download_file_try repo path) PyNone)
      /\ (forall repo path sha message,
            fails_with (delete_file repo path sha message)
                       (delete_file_try repo path sha message) (PyBool false))
      /\ (forall repo path,
            fails_with (get_file_info repo path) (get_file_info_try repo path) PyNone)
      /\ (forall repo,
            fails_with (enable_lfs repo) (enable_lfs_try repo) (PyBool false))).
Proof.
  intros Hmiss Hlen Hall Htimeout Hconnection Hplays.
  split; [|split; [|split]].
  - pose proof (run_accounting (request_key method url use_cache kwargs)
                  (physical method url kwargs) (Raised e) dt
                  (List.map snd failures) st) as Hacc.
    rewrite length_map in Hacc. cbv zeta in Hacc.
    destruct Hacc as (Hcount & _ & Hhist & Hslept & _).
    eexists. split.
    + apply make_request_run with (failures := failures) (o := Raised e) (dt := dt);
        auto.
      left. destruct e; try reflexivity; congruence.
    + split; [exact Hcount|]. split; [exact Hhist | exact Hslept].
  - intros. apply total_make_request.
  - split; [apply total_cache_result, total_try|].
    split; [apply total_get_repo_by_name|].
    split; [intros; apply total_try|].
    split; [intros; apply total_try|].
    split; [apply total_batch_upload|].
    split; [intros; apply total_cache_result, total_try|].
    split; [intros; apply total_try|].
    split; [intros; apply total_try|].
    split; [intros; apply total_try|].
    split; [intros; apply total_try|].
    split; apply total_modify.
  - repeat split; intros; apply fails_with_try.
Qed.

Lemma operations_never_raise_witness :
  exists st',
    _make_request "GET" user_url true [] broken_session = (Ok PyNone, st')
    /\ request_count (self st') = request_count (self broken_session) + Z.of_nat 0 + 1
    /\ history (world st') =
       (history (world broken_session) ++ repeat (physical "GET" user_url []) 1)%list
    /\ slept (world st') =
       (slept (world broken_session)
        ++ List.map (fun attempt => 2 ^ attempt + 1) (range (Z.of_nat 0)))%list.
Proof.
  destruct (operations_never_raise "GET" user_url true [] broken_session []
              ValueError 1000) as [Hdispatch _].
  - vm_compute. reflexivity.
  - simpl. lia.
  - constructor.
  - discriminate.
  - discriminate.
  - vm_compute. auto.
  - exact Hdispatch.
Defined.

(** Blocks that do raise, and what their operations return. *)
Example body_not_json :
  let st := boot "token" "octocat" (scripted [respond 200 None [60; 104; 49; 62]] 1000) in
  fst (download_file_try "drive" "notes.txt" st) = Raise ValueError
  /\ fst (download_file "drive" "notes.txt" st) = Ok PyNone
  /\ fst (get_file_info_try "drive" "notes.txt" st) = Raise ValueError
  /\ fst (get_file_info "drive" "notes.txt" st) = Ok PyNone.
Proof. vm_compute. auto. Qed.

Example repository_document_is_a_list :
  let st := boot "token" "octocat"
              (scripted [respond 200 (Some (PyList [PyInt 1])) []] 1000) in
  fst (list_files_try "drive" "" st) = Raise AttributeError
  /\ fst (list_files "drive" None st) = Ok (PyList []).
Proof. vm_compute. auto. Qed.

Example repositories_document_is_a_number :
  let st := boot "token" "octocat" (scripted [respond 200 (Some (PyInt 7)) []] 1000) in
  fst (get_user_repos_try st) = Raise TypeError
  /\ fst (get_user_repos st) = Ok PyNone.
Proof. vm_compute. auto. Qed.

Example fetched_document_without_sha :
  let st := boot "token" "octocat"
              (scripted [respond 422 None []; respond 200 (Some (PyDict [])) []] 1000) in
  fst (_update_existing_file_try "drive" "notes.txt" (encode "new") "update"
         (snd (_make_request "PUT" notes_url false [] st))) = Raise KeyError
  /\ fst (upload_file "drive" "notes.txt" (encode "new") "update" st) = Ok PyNone.
Proof. vm_compute. auto. Qed.

(** Unlike the dispatch, the raw download sleeps and tries again after an
    exception of any kind. *)
Example raw_download_retries_exceptions :
  let st := boot "token" "octocat"
              (scripted [Raised ValueError; respond 200 None [7]] 1000) in
  let run := _download_from_raw_url raw_url st in
  fst run = Ok (PyBytes [7]) /\ slept (world (snd run)) = [2]
  /\ length (history (world (snd run))) = 2%nat.
Proof. vm_compute. auto. Qed.

(** * More on the dispatch *)

Lemma request_loop_cons limit cache_key req attempt rest st :
  request_loop limit cache_key req (attempt :: rest) st =
  match request_attempt limit cache_key req attempt st with
  | (Ok (Return v), st') => (Ok v, st')
  | (Ok Continue, st') => request_loop limit cache_key req rest st'
  | (Raise e, st') => (Raise e, st')
  end.
Proof.
  simpl. unfold bind.
  destruct (request_attempt limit cache_key req attempt st) as [[[v|]|e] st'];
    reflexivity.
Qed.

Lemma dispatched_not_success cache_key req k v st st' :
  dispatched cache_key req k v st st' -> ~ is_success v ->
  cache (self st') = cache (self st).
Proof.
  intros (_ & _ & _ & _ & [Hsame | (_ & Hsuccess & _)] & _) Hnot;
    [exact Hsame | contradiction].
Qed.

(** X1.  An entry as old as [cache_expiry] seconds or older does not answer
    a read: the request goes to the network (one to three attempts, counted
    in [request_count], none in [cached_requests]).  A success replaces the
    entry, stamped with the time of its arrival; anything else leaves the
    expired entry where it was. *)
Theorem expired_entry_refetched method url kwargs st v stored_at :
  upper method = "GET" ->
  cache (self st) !! request_cache_key url kwargs = Some (v, stored_at) ->
  seconds (cache_expiry (self st)) <= now (world st) - stored_at ->
  exists v' st' k,
    _make_request method url true kwargs st = (Ok v', st')
    /\ (1 <= k <= 3)%nat
    /\ history (world st') =
       (history (world st) ++ repeat (physical method url kwargs) k)%list
    /\ request_count (self st') = request_count (self st) + Z.of_nat k
    /\ cached_requests (self st') = cached_requests (self st)
    /\ (is_success v' ->
        cache (self st') !! request_cache_key url kwargs = Some (v', now (world st')))
    /\ (~ is_success v' -> cache (self st') = cache (self st)).
Proof.
  intros Hget Hentry Hold.
  pose proof (request_key_get method url kwargs Hget) as Hkey.
  destruct (make_request_cases method url true kwargs st)
    as [(v' & Hhit & _) | (_ & v' & st' & k & Heq & Hk & Hdisp)].
  - rewrite Hkey in Hhit.
    apply fresh_entry_Some in Hhit as (ts & Hentry' & Hfresh).
    rewrite Hentry in Hentry'. injection Hentry' as _ <-. lia.
  - exists v', st', k. split; [exact Heq|]. split; [exact Hk|].
    pose proof (dispatched_not_success _ _ _ _ _ _ Hdisp) as Hkeep.
    destruct Hdisp as (Hhist & Hcount & Hcached & _ & _ & Hstored).
    split; [exact Hhist|]. split; [exact Hcount|]. split; [exact Hcached|].
    split; [|exact Hkeep].
    intros Hsuccess. rewrite Hkey in Hstored.
    apply Hstored; [exact Hsuccess|].
    by apply (request_key_set method url true kwargs).
Qed.

Lemma expired_entry_refetched_witness :
  exists v' st' k,
    _make_request "GET" user_url true [] expired_scenario = (Ok v', st')
    /\ (1 <= k <= 3)%nat
    /\ history (world st') =
       (history (world expired_scenario) ++ repeat (physical "GET" user_url []) k)%list
    /\ request_count (self st') = request_count (self expired_scenario) + Z.of_nat k
    /\ cached_requests (self st') = cached_requests (self expired_scenario)
    /\ (is_success v' ->
        cache (self st') !! request_cache_key user_url [] = Some (v', now (world st')))
    /\ (~ is_success v' -> cache (self st') = cache (self expired_scenario)).
Proof.
  apply (expired_entry_refetched "GET" user_url [] expired_scenario
           (response_obj octocat) 1000).
  - reflexivity.
  - vm_compute. reflexivity.
  - vm_compute. discriminate.
Defined.

(** X2.  A call that is not a GET, or that is made with [use_cache=False],
    never looks at the cache and never writes to it: it always goes to the
    network, and [self.cache] and [cached_requests] are as they were. *)
Theorem uncacheable_call method url use_cache kwargs st :
  use_cache = false \/ upper method <> "GET" ->
  exists v st' k,
    _make_request method url use_cache kwargs st = (Ok v, st')
    /\ (1 <= k <= 3)%nat
    /\ history (world st') =
       (history (world st) ++ repeat (physical method url kwargs) k)%list
    /\ cache (self st') = cache (self st)
    /\ cached_requests (self st') = cached_requests (self st).
Proof.
  intros Hoff.
  assert (request_key method url use_cache kwargs = None) as Hkey.
  { unfold request_key. destruct Hoff as [-> | Hne]; [reflexivity|].
    destruct (String.eqb_spec (upper method) "GET"); [contradiction|].
    by rewrite andb_false_r. }
  destruct (make_request_cases method url use_cache kwargs st)
    as [(v & Hhit & _) | (_ & v & st' & k & Heq & Hk & Hdisp)].
  - rewrite Hkey in Hhit. discriminate Hhit.
  - exists v, st', k. split; [exact Heq|]. split; [exact Hk|].
    rewrite Hkey in Hdisp.
    destruct Hdisp as (Hhist & _ & Hcached & _ & [Hsame | (Hset & _)] & _);
      [|discriminate Hset].
    repeat split; assumption.
Qed.

Lemma uncacheable_call_witness :
  exists v st' k,
    _make_request "POST" user_url true [] (snd first_read) = (Ok v, st')
    /\ (1 <= k <= 3)%nat
    /\ history (world st') =
       (history (world (snd first_read)) ++ repeat (physical "POST" user_url []) k)%list
    /\ cache (self st') = cache (self (snd first_read))
    /\ cached_requests (self st') = cached_requests (self (snd first_read)).
Proof.
  apply (uncacheable_call "POST" user_url true [] (snd first_read)).
  right. discriminate.
Defined.

(** X3.  A timeout or a connection error is retried on the same schedule
    as a retryable status.  When the third attempt ends in one of them too,
    the call returns [None], not a response, after exactly three attempts
    and sleeps of 2 and 3 seconds; the cache is untouched. *)
Theorem transport_failure_exhausted method url use_cache kwargs st failures e dt :
  cached_response (request_key method url use_cache kwargs) st = None ->
  length failures = 2%nat ->
  Forall (fun f => retried (fst f) = true) failures ->
  e = RequestsTimeout \/ e = RequestsConnectionError ->
  plays st (exchanges (physical method url kwargs) (failures ++ [(Raised e, dt)])) ->
  exists st',
    _make_request method url use_cache kwargs st = (Ok PyNone, st')
    /\ request_count (self st') = request_count (self st) + 3
    /\ history (world st') =
       (history (world st) ++ repeat (physical method url kwargs) 3)%list
    /\ slept (world st') = (slept (world st) ++ [2; 3])%list
    /\ cache (self st') = cache (self st).
Proof.
  intros Hmiss Hlen Hall He Hplays.
  pose proof (run_accounting (request_key method url use_cache kwargs)
                (physical method url kwargs) (Raised e) dt
                (List.map snd failures) st) as Hacc.
  rewrite length_map, Hlen in Hacc. cbv zeta in Hacc.
  destruct Hacc as (Hcount & _ & Hhist & Hslept & _).
  eexists. split.
  - apply make_request_run with (failures := failures) (o := Raised e) (dt := dt);
      auto; lia.
  - split; [rewrite Hcount; lia|]. split; [exact Hhist|].
    split; [exact Hslept|].
    simpl. apply retries_cache.
Qed.

Lemma transport_failure_exhausted_witness :
  exists st',
    _make_request "GET" user_url true [] unreachable = (Ok PyNone, st')
    /\ request_count (self st') = request_count (self unreachable) + 3
    /\ history (world st') =
       (history (world unreachable) ++ repeat (physical "GET" user_url []) 3)%list
    /\ slept (world st') = (slept (world unreachable) ++ [2; 3])%list
    /\ cache (self st') = cache (self unreachable).
Proof.
  apply (transport_failure_exhausted "GET" user_url true [] unreachable
           [(Raised RequestsConnectionError, 1000); (Raised RequestsTimeout, 1000)]
           RequestsTimeout 1000).
  - vm_compute. reflexivity.
  - reflexivity.
  - repeat constructor.
  - by left.
  - vm_compute. auto.
Defined.

(** X4.  A status of 400 or more that is not in the retry list (404, 422,
    409, ...) ends the call at the attempt that received it: the response
    is returned as it came, nothing is slept after it, no attempt follows
    and nothing is cached. *)
Theorem client_error_returned method url use_cache kwargs st failures r dt :
  cached_response (request_key method url use_cache kwargs) st = None ->
  (length failures <= 2)%nat ->
  Forall (fun f => retried (fst f) = true) failures ->
  400 <= status_code r ->
  retryable (status_code r) = false ->
  plays st (exchanges (physical method url kwargs) (failures ++ [(Responded r, dt)])) ->
  exists st',
    _make_request method url use_cache kwargs st = (Ok (response_obj r), st')
    /\ request_count (self st') =
       request_count (self st) + Z.of_nat (length failures) + 1
    /\ history (world st') =
       (history (world st)
        ++ repeat (physical method url kwargs) (S (length failures)))%list
    /\ slept (world st') =
       (slept (world st)
        ++ List.map (fun attempt => 2 ^ attempt + 1)
                    (range (Z.of_nat (length failures))))%list
    /\ cache (self st') = cache (self st).
Proof.
  intros Hmiss Hlen Hall Hge Hretry Hplays.
  pose proof (run_accounting (request_key method url use_cache kwargs)
                (physical method url kwargs) (Responded r) dt
                (List.map snd failures) st) as Hacc.
  rewrite length_map in Hacc. cbv zeta in Hacc.
  destruct Hacc as (Hcount & _ & Hhist & Hslept & _).
  eexists. split.
  - apply make_request_run with (failures := failures) (o := Responded r) (dt := dt);
      auto.
  - split; [exact Hcount|]. split; [exact Hhist|]. split; [exact Hslept|].
    rewrite settled_failure by exact Hge. simpl. apply retries_cache.
Qed.

Lemma client_error_returned_witness :
  exists st',
    _make_request "GET" user_url true [] missing_resource = (Ok (response_obj not_found), st')
    /\ request_count (self st') = request_count (self missing_resource) + Z.of_nat 0 + 1
    /\ history (world st') =
       (history (world missing_resource) ++ repeat (physical "GET" user_url []) 1)%list
    /\ slept (world st') =
       (slept (world missing_resource)
        ++ List.map (fun attempt => 2 ^ attempt + 1) (range (Z.of_nat 0)))%list
    /\ cache (self st') = cache (self missing_resource).
Proof.
  apply (client_error_returned "GET" user_url true [] missing_resource [] not_found 1000).
  - vm_compute. reflexivity.
  - simpl. lia.
  - constructor.
  - simpl. lia.
  - reflexivity.
  - vm_compute. auto.
Defined.

(** The loop over the attempts [a], [a + 1], ..., [limit - 1]: how many it
    makes, what it sleeps in between and what it returns. *)
Lemma request_loop_schedule limit cache_key req : forall n a st,
  n <> 0%nat -> Z.of_nat (a + n) = limit ->
  exists v st' k,
    request_loop limit cache_key req (List.map Z.of_nat (seq a n)) st = (Ok v, st')
    /\ (1 <= k <= n)%nat
    /\ dispatched cache_key req k v st st'
    /\ slept (world st') =
       (slept (world st)
        ++ List.map (fun attempt => 2 ^ attempt + 1)
             (List.map Z.of_nat (seq a (k - 1))))%list
    /\ none_or_response v.
Proof.
  induction n as [|n IH]; intros a st Hn Hlimit; [congruence|].
  change (seq a (S n)) with (a :: seq (S a) n).
  change (List.map Z.of_nat (a :: seq (S a) n))
    with (Z.of_nat a :: List.map Z.of_nat (seq (S a) n)).
  rewrite request_loop_cons.
  destruct (request_attempt_cases limit cache_key req (Z.of_nat a) st)
    as (o & dt & _ & [[-> _] | [-> [_ Hlt]]]).
  - exists (final_value o), (settled cache_key o (sent req dt st)), 1%nat.
    split; [reflexivity|]. split; [lia|].
    split; [apply dispatched_last|].
    rewrite settled_world. simpl. rewrite app_nil_r.
    split; [reflexivity|].
    destruct o as [r|e]; [right; by exists r | by left].
  - destruct n as [|n']; [lia|].
    destruct (IH (S a) (backed_off (2 ^ Z.of_nat a + 1) (sent req dt st)))
      as (v & st' & k & -> & Hk & Hdisp & Hslept & Hshape); [lia | lia |].
    exists v, st', (S k). split; [reflexivity|]. split; [lia|].
    split; [by apply dispatched_step with (s := 2 ^ Z.of_nat a + 1) (dt := dt)|].
    split; [|exact Hshape].
    rewrite Hslept. simpl.
    destruct k as [|k']; [lia|]. simpl. rewrite Nat.sub_0_r.
    by rewrite <- app_assoc.
Qed.

Lemma backoff_schedule_firstn k :
  (k <= 3)%nat -> backoff_schedule k = firstn (k - 1) [2; 3].
Proof.
  intros Hk.
  destruct k as [|[|[|[|k]]]]; try reflexivity. lia.
Qed.

(** A call that the cache does not answer. *)
Lemma make_request_miss method url use_cache kwargs st :
  cached_response (request_key method url use_cache kwargs) st = None ->
  exists v st' k,
    _make_request method url use_cache kwargs st = (Ok v, st')
    /\ (1 <= k <= 3)%nat
    /\ dispatched (request_key method url use_cache kwargs)
         (physical method url kwargs) k v st st'
    /\ slept (world st') = (slept (world st) ++ firstn (k - 1) [2; 3])%list
    /\ none_or_response v.
Proof.
  intros Hmiss. rewrite make_request_eq, Hmiss.
  unfold max_retries. change (range 3) with (List.map Z.of_nat (seq 0 3)).
  destruct (request_loop_schedule 3 (request_key method url use_cache kwargs)
              (physical method url kwargs) 3 0 st)
    as (v & st' & k & -> & Hk & Hdisp & Hslept & Hshape); [lia | reflexivity |].
  exists v, st', k. split; [reflexivity|]. split; [lia|].
  split; [exact Hdisp|]. split; [|exact Hshape].
  rewrite Hslept. f_equal.
  rewrite <- backoff_schedule_firstn by lia.
  unfold backoff_schedule. by rewrite range_seq.
Qed.

(** X5.  Whatever the remote end does, one call of [_make_request] makes
    at most three attempts, each one call into the session with the same
    request, and sleeps only between attempts: nothing after the last one,
    2 seconds after the first and 3 after the second, so never more than 5
    seconds in all.  It makes no attempt at all exactly when the cache
    answers, and otherwise returns [None] or a response. *)
Theorem dispatch_schedule method url use_cache kwargs st :
  exists v st' k,
    _make_request method url use_cache kwargs st = (Ok v, st')
    /\ (k <= 3)%nat
    /\ (k = 0%nat <->
        cached_response (request_key method url use_cache kwargs) st = Some v)
    /\ history (world st') =
       (history (world st) ++ repeat (physical method url kwargs) k)%list
    /\ slept (world st') = (slept (world st) ++ firstn (k - 1) [2; 3])%list
    /\ (cached_response (request_key method url use_cache kwargs) st = None ->
        none_or_response v).
Proof.
  destruct (cached_response (request_key method url use_cache kwargs) st)
    as [hit|] eqn:Hhit.
  - rewrite make_request_eq, Hhit.
    eexists _, _, 0%nat. split; [reflexivity|]. split; [lia|].
    split; [by split|]. simpl. rewrite !app_nil_r.
    repeat split. discriminate.
  - destruct (make_request_miss method url use_cache kwargs st Hhit)
      as (v & st' & k & -> & Hk & (Hhist & _) & Hslept & Hshape).
    exists v, st', k. split; [reflexivity|]. split; [lia|].
    split; [split; [lia | discriminate]|].
    split; [exact Hhist|]. split; [exact Hslept | by intros _].
Qed.

(** * Invariants of every sequence of calls *)

Section Preserves.

Variable R : State -> State -> Prop.
Hypothesis R_refl : forall st, R st st.
Hypothesis R_trans : forall st1 st2 st3, R st1 st2 -> R st2 st3 -> R st1 st3.

(** The places where the methods touch the state. *)
Hypothesis R_make_request : forall method url use_cache kwargs,
  preserves R (_make_request method url use_cache kwargs).
Hypothesis R_download : forall url, preserves R (_download_from_raw_url url).
Hypothesis R_cache_put : forall name v, preserves R (cache_put ("repo_" +:+ name) v).
Hypothesis R_clear_repo_cache : preserves R _clear_repo_cache.
Hypothesis R_memos : forall f, preserves R (modify (on_memos f)).
Hypothesis R_clear_cache : preserves R clear_cache.
Hypothesis R_close : preserves R close.
Hypothesis R_idle : forall elapsed st, R st (idle elapsed st).

Lemma preserves_ret {A} (a : A) : preserves R (ret a).
Proof. intros st. apply R_refl. Qed.

Lemma preserves_lift {A} (r : Result A) : preserves R (lift r).
Proof. intros st. apply R_refl. Qed.

Lemma preserves_gets {A} (f : State -> A) : preserves R (gets f).
Proof. intros st. apply R_refl. Qed.

Lemma preserves_bind {A B} (m : M A) (k : A -> M B) :
  preserves R m -> (forall a, preserves R (k a)) -> preserves R (bind m k).
Proof.
  intros Hm Hk st. unfold bind. specialize (Hm st).
  destruct (m st) as [[a|e] st']; simpl in *.
  - eapply R_trans; [exact Hm | apply Hk].
  - exact Hm.
Qed.

Lemma preserves_try {A} (body : M A) (handler : Exn -> M A) :
  preserves R body -> (forall e, preserves R (handler e)) ->
  preserves R (try_except body handler).
Proof.
  intros Hbody Hhandler st. unfold try_except. specialize (Hbody st).
  destruct (body st) as [[a|e] st']; simpl in *.
  - exact Hbody.
  - eapply R_trans; [exact Hbody | apply Hhandler].
Qed.

Ltac preserves_step :=
  lazymatch goal with
  | |- preserves _ (ret _) => apply preserves_ret
  | |- preserves _ (lift _) => apply preserves_lift
  | |- preserves _ (gets _) => apply preserves_gets
  | |- preserves _ datetime_now => apply preserves_gets
  | |- preserves _ (_make_request _ _ _ _) => apply R_make_request
  | |- preserves _ (_download_from_raw_url _) => apply R_download
  | |- preserves _ (cache_put _ _) => apply R_cache_put
  | |- preserves _ _clear_repo_cache => apply R_clear_repo_cache
  | |- preserves _ (modify (on_memos _)) => apply R_memos
  | |- preserves _ (try_except _ _) => apply preserves_try; [|intros ?]
  | |- preserves _ (bind _ _) => apply preserves_bind; [|intros ?]
  | |- preserves _ (if ?b then _ else _) => destruct b
  | |- preserves _ (match ?x with Some _ => _ | None => _ end) => destruct x
  end.

Lemma preserves_cache_result expiry memo func args kwargs :
  preserves R func -> preserves R (cache_result expiry memo func args kwargs).
Proof.
  intros Hfunc. unfold cache_result.
  repeat first [preserves_step | exact Hfunc].
Qed.

Lemma preserves_get_user_repos : preserves R get_user_repos.
Proof.
  apply preserves_cache_result.
  unfold get_user_repos_undecorated, get_user_repos_try.
  repeat preserves_step.
Qed.

Lemma preserves_get_repo_by_name name : preserves R (get_repo_by_name name).
Proof.
  unfold get_repo_by_name, get_repo_by_name_try.
  repeat preserves_step.
Qed.

Lemma preserves_create_repo name private : preserves R (create_repo name private).
Proof.
  unfold create_repo, create_repo_try, _get_existing_repo.
  repeat first [preserves_step | apply preserves_get_repo_by_name].
Qed.

Lemma preserves_update repo path content message :
  preserves R (_update_existing_file repo path content message).
Proof.
  unfold _update_existing_file, _update_existing_file_try.
  repeat preserves_step.
Qed.

Lemma preserves_upload_file repo path content message :
  preserves R (upload_file repo path content message).
Proof.
  unfold upload_file, upload_file_try.
  repeat first [preserves_step | apply preserves_update].
Qed.

Lemma preserves_batch_upload repo files message :
  preserves R (batch_upload_files repo files message).
Proof.
  induction files as [|[path content] rest IH].
  - apply preserves_ret.
  - change (batch_upload_files repo ((path, content) :: rest) message)
      with (bind (upload_file repo path content message) (fun result =>
              bind (batch_upload_files repo rest message) (fun results =>
                ret (PyDict [("path", PyStr path);
                             ("success", PyBool (negb (is_none result)));
                             ("result", result)] :: results)))).
    repeat first [preserves_step | apply preserves_upload_file | exact IH].
Qed.

Lemma preserves_list_files repo path : preserves R (list_files repo path).
Proof.
  apply preserves_cache_result.
  unfold list_files_undecorated, list_files_try.
  repeat first [preserves_step | apply preserves_get_repo_by_name].
Qed.

Lemma preserves_download_file repo path : preserves R (download_file repo path).
Proof.
  unfold download_file, download_file_try, download_content.
  repeat preserves_step.
Qed.

Lemma preserves_delete_file repo path sha message :
  preserves R (delete_file repo path sha message).
Proof.
  unfold delete_file, delete_file_try.
  repeat preserves_step.
Qed.

Lemma preserves_get_file_info repo path : preserves R (get_file_info repo path).
Proof.
  unfold get_file_info, get_file_info_try.
  repeat preserves_step.
Qed.

Lemma preserves_enable_lfs repo : preserves R (enable_lfs repo).
Proof.
  unfold enable_lfs, enable_lfs_try.
  repeat first [preserves_step | apply preserves_upload_file].
Qed.

Lemma preserves_invoke op st : R st (invoke op st).
Proof.
  destruct op; unfold invoke.
  - apply preserves_get_user_repos.
  - apply preserves_get_repo_by_name.
  - apply preserves_create_repo.
  - apply preserves_upload_file.
  - apply preserves_batch_upload.
  - apply preserves_list_files.
  - apply preserves_download_file.
  - apply preserves_delete_file.
  - apply preserves_get_file_info.
  - apply preserves_enable_lfs.
  - apply R_clear_cache.
  - apply R_close.
Qed.

Lemma preserves_after events : forall st, R st (after events st).
Proof.
  induction events as [|e rest IH]; intros st.
  - apply R_refl.
  - change (after (e :: rest) st) with (after rest (occur st e)).
    eapply R_trans; [|apply IH].
    destruct e as [op|elapsed]; [apply preserves_invoke | apply R_idle].
Qed.

End Preserves.

Section PreservesApi.

Variable R : State -> State -> Prop.
Hypothesis R_refl : forall st, R st st.
Hypothesis R_trans : forall st1 st2 st3, R st1 st2 -> R st2 st3 -> R st1 st3.
Hypothesis R_make_request : forall method url use_cache kwargs,
  preserves R (_make_request method url use_cache kwargs).
Hypothesis R_cache_put : forall name v, preserves R (cache_put ("repo_" +:+ name) v).
Hypothesis R_clear_repo_cache : preserves R _clear_repo_cache.
Hypothesis R_memos : forall f, preserves R (modify (on_memos f)).
Hypothesis R_clear_cache : preserves R clear_cache.
Hypothesis R_close : preserves R close.
Hypothesis R_idle : forall elapsed st, R st (idle elapsed st).

(** Every method but [download_file] reaches the network only through
    [_make_request]. *)
Lemma preserves_invoke_api op st :
  (forall repo path, op <> DownloadFile repo path) -> R st (invoke op st).
Proof.
  intros Hop. destruct op; unfold invoke.
  - by apply preserves_get_user_repos.
  - by apply preserves_get_repo_by_name.
  - by apply preserves_create_repo.
  - by apply preserves_upload_file.
  - by apply preserves_batch_upload.
  - by apply preserves_list_files.
  - by destruct (Hop repo path).
  - by apply preserves_delete_file.
  - by apply preserves_get_file_info.
  - by apply preserves_enable_lfs.
  - apply R_clear_cache.
  - apply R_close.
Qed.

Lemma preserves_after_api events : forall st,
  downloads events = false -> R st (after events st).
Proof.
  induction events as [|e rest IH]; intros st Hnone.
  - apply R_refl.
  - change (after (e :: rest) st) with (after rest (occur st e)).
    destruct e as [op|elapsed].
    + eapply R_trans; [apply preserves_invoke_api | apply IH].
      * intros repo path ->. discriminate Hnone.
      * by destruct op.
    + eapply R_trans; [apply R_idle | by apply IH].
Qed.

End PreservesApi.

(** ** What only grows *)

Lemma grows_refl st : grows st st.
Proof.
  unfold grows. repeat (split; [reflexivity || lia|]).
  split; exists []; by rewrite app_nil_r.
Qed.

Lemma grows_trans st1 st2 st3 : grows st1 st2 -> grows st2 st3 -> grows st1 st3.
Proof.
  intros (Ht & Hu & He & Hs & Hr & Hc & [h Hh] & [z Hz])
         (Ht' & Hu' & He' & Hs' & Hr' & Hc' & [h' Hh'] & [z' Hz']).
  unfold grows.
  split; [congruence|]. split; [congruence|]. split; [congruence|].
  split; [congruence|]. split; [lia|]. split; [lia|].
  split.
  - exists (h ++ h')%list. by rewrite Hh', Hh, app_assoc.
  - exists (z ++ z')%list. by rewrite Hz', Hz, app_assoc.
Qed.

(** A step that leaves the credentials, the counters and the world alone. *)
Lemma grows_inert st st' :
  token (self st') = token (self st) ->
  username (self st') = username (self st) ->
  cache_expiry (self st') = cache_expiry (self st) ->
  request_count (self st') = request_count (self st) ->
  cached_requests (self st') = cached_requests (self st) ->
  history (world st') = history (world st) ->
  slept (world st') = slept (world st) ->
  server (world st') = server (world st) ->
  grows st st'.
Proof.
  intros Ht Hu He Hr Hc Hh Hz Hs. unfold grows.
  repeat (split; [assumption || lia|]).
  split; exists []; by rewrite app_nil_r.
Qed.

Lemma grows_make_request method url use_cache kwargs :
  preserves grows (_make_request method url use_cache kwargs).
Proof.
  intros st.
  destruct (cached_response (request_key method url use_cache kwargs) st)
    as [hit|] eqn:Hhit.
  - rewrite make_request_eq, Hhit. unfold grows. simpl.
    repeat (split; [reflexivity || lia|]).
    split; exists []; by rewrite app_nil_r.
  - destruct (make_request_miss method url use_cache kwargs st Hhit)
      as (v & st' & k & -> & _ & Hdisp & Hslept & _).
    destruct Hdisp as (Hhist & Hcount & Hcached & Hsame & _).
    destruct Hsame as (Ht & Hu & He & _ & _ & Hs).
    unfold grows. cbn [snd].
    repeat (split; [assumption || lia|]).
    split; eauto.
Qed.

Lemma grows_download_attempt limit url attempt :
  preserves grows (download_attempt limit url attempt).
Proof.
  intros st.
  destruct (download_attempt_cases limit url attempt st)
    as (o & dt & _ & [(v & -> & _) | (s & ->)]);
    unfold grows; simpl;
    repeat (split; [reflexivity || lia|]);
    (split; [by eexists | eexists; try reflexivity]).
  by rewrite app_nil_r.
Qed.

Lemma preserves_download_loop R limit url attempts :
  (forall st, R st st) ->
  (forall st1 st2 st3, R st1 st2 -> R st2 st3 -> R st1 st3) ->
  (forall attempt, preserves R (download_attempt limit url attempt)) ->
  preserves R (download_loop limit url attempts).
Proof.
  intros Hrefl Htrans Hattempt.
  induction attempts as [|attempt rest IH].
  - by apply preserves_ret.
  - change (download_loop limit url (attempt :: rest))
      with (bind (download_attempt limit url attempt) (fun flow =>
              match flow with
              | Return v => ret v
              | Continue => download_loop limit url rest
              end)).
    apply preserves_bind; [exact Htrans | apply Hattempt |].
    intros [v|]; [by apply preserves_ret | exact IH].
Qed.

Lemma grows_all events st : grows st (after events st).
Proof.
  apply preserves_after.
  - exact grows_refl.
  - exact grows_trans.
  - exact grows_make_request.
  - intros url. apply preserves_download_loop.
    + exact grows_refl.
    + exact grows_trans.
    + apply grows_download_attempt.
  - intros name v st'. by apply grows_inert.
  - intros st'. by apply grows_inert.
  - intros f st'. by apply grows_inert.
  - intros st'. by apply grows_inert.
  - intros st'. by apply grows_inert.
  - intros elapsed st'. by apply grows_inert.
Qed.

(** X6.  Over any sequence of calls of the public methods, with any pauses
    and whatever the remote end answers, the client keeps its token, its
    user name and its cache lifetime, the two counters never go down
    (neither [clear_cache] nor [close] resets them), and what was sent and
    slept is only added to. *)
Theorem client_only_grows events st :
  let st' := after events st in
  token (self st') = token (self st)
  /\ username (self st') = username (self st)
  /\ cache_expiry (self st') = cache_expiry (self st)
  /\ request_count (self st) <= request_count (self st')
  /\ cached_requests (self st) <= cached_requests (self st')
  /\ (exists more, history (world st') = (history (world st) ++ more)%list)
  /\ (exists more, slept (world st') = (slept (world st) ++ more)%list).
Proof.
  destruct (grows_all events st) as (Ht & Hu & He & _ & Hr & Hc & Hh & Hz).
  cbv zeta. repeat (split; [assumption|]). exact Hz.
Qed.

(** ** What [request_count] counts *)

Lemma counted_exactly_counted st st' : counted_exactly st st' -> counted st st'.
Proof. unfold counted_exactly, counted. lia. Qed.

Lemma counted_exactly_refl st : counted_exactly st st.
Proof. unfold counted_exactly, attempts_between. lia. Qed.

Lemma counted_exactly_trans st1 st2 st3 :
  counted_exactly st1 st2 -> counted_exactly st2 st3 -> counted_exactly st1 st3.
Proof. unfold counted_exactly, attempts_between. lia. Qed.

Lemma counted_refl st : counted st st.
Proof. unfold counted, attempts_between. lia. Qed.

Lemma counted_trans st1 st2 st3 : counted st1 st2 -> counted st2 st3 -> counted st1 st3.
Proof. unfold counted, attempts_between. lia. Qed.

Lemma counted_exactly_inert st st' :
  request_count (self st') = request_count (self st) ->
  history (world st') = history (world st) ->
  counted_exactly st st'.
Proof.
  intros Hr Hh. unfold counted_exactly, attempts_between. rewrite Hr, Hh. lia.
Qed.

Lemma counted_exactly_make_request method url use_cache kwargs :
  preserves counted_exactly (_make_request method url use_cache kwargs).
Proof.
  intros st.
  destruct (make_request_cases method url use_cache kwargs st)
    as [(v & _ & ->) | (_ & v & st' & k & -> & _ & Hdisp)].
  - by apply counted_exactly_inert.
  - destruct Hdisp as (Hhist & Hcount & _).
    unfold counted_exactly, attempts_between. cbn [snd].
    rewrite Hhist, Hcount, length_app, repeat_length. lia.
Qed.

Lemma counted_download url : preserves counted (_download_from_raw_url url).
Proof.
  intros st. unfold _download_from_raw_url.
  destruct (download_loop_bounded 3 url (range 3) st)
    as (v & st' & k & -> & _ & Hhist & Hself & _); [discriminate|].
  unfold counted, attempts_between. cbn [snd].
  rewrite Hhist, Hself, length_app. lia.
Qed.

Lemma counted_all events st : counted st (after events st).
Proof.
  apply preserves_after.
  - exact counted_refl.
  - exact counted_trans.
  - intros method url use_cache kwargs st'.
    apply counted_exactly_counted, counted_exactly_make_request.
  - exact counted_download.
  - intros name v st'. by apply counted_exactly_counted, counted_exactly_inert.
  - intros st'. by apply counted_exactly_counted, counted_exactly_inert.
  - intros f st'. by apply counted_exactly_counted, counted_exactly_inert.
  - intros st'. by apply counted_exactly_counted, counted_exactly_inert.
  - intros st'. by apply counted_exactly_counted, counted_exactly_inert.
  - intros elapsed st'. by apply counted_exactly_counted, counted_exactly_inert.
Qed.

Lemma counted_exactly_all events st :
  downloads events = false -> counted_exactly st (after events st).
Proof.
  apply preserves_after_api.
  - exact counted_exactly_refl.
  - exact counted_exactly_trans.
  - exact counted_exactly_make_request.
  - intros name v st'. by apply counted_exactly_inert.
  - intros st'. by apply counted_exactly_inert.
  - intros f st'. by apply counted_exactly_inert.
  - intros st'. by apply counted_exactly_inert.
  - intros st'. by apply counted_exactly_inert.
  - intros elapsed st'. by apply counted_exactly_inert.
Qed.

(** X7.  [request_count] never counts more than the calls made into the
    session.  Over method calls that do not include [download_file] it
    counts exactly those calls, the retries of the loop included;
    [download_file] fetches from the raw URL outside [_make_request], and
    those calls are not counted. *)
Theorem request_count_accounting events st :
  request_count (self (after events st)) - request_count (self st)
    <= attempts_between st (after events st)
  /\ (downloads events = false ->
      request_count (self (after events st)) - request_count (self st)
        = attempts_between st (after events st))
  /\ request_count (self (after [Invoke (DownloadFile "drive" "big.bin")] by_reference))
       - request_count (self by_reference)
     < attempts_between by_reference
         (after [Invoke (DownloadFile "drive" "big.bin")] by_reference).
Proof.
  split; [apply counted_all|].
  split; [apply counted_exactly_all|].
  vm_compute. reflexivity.
Qed.

Lemma request_count_accounting_witness :
  request_count (self (after [Invoke (GetRepoByName "drive"); Elapse 1000;
                               Invoke (DeleteFile "drive" "a" "abc" "drop")]
                         by_reference))
    - request_count (self by_reference)
  = attempts_between by_reference
      (after [Invoke (GetRepoByName "drive"); Elapse 1000;
              Invoke (DeleteFile "drive" "a" "abc" "drop")] by_reference).
Proof.
  apply (request_count_accounting
           [Invoke (GetRepoByName "drive"); Elapse 1000;
            Invoke (DeleteFile "drive" "a" "abc" "drop")] by_reference).
  reflexivity.
Defined.

(** ** The two kinds of cache entries *)

Lemma keeps_typing_inert st st' :
  cache (self st') = cache (self st) -> keeps_typing st st'.
Proof. intros Hcache Htyped k v t. rewrite Hcache. apply Htyped. Qed.

Lemma keeps_typing_make_request method url use_cache kwargs :
  preserves keeps_typing (_make_request method url use_cache kwargs).
Proof.
  intros st.
  destruct (make_request_cases method url use_cache kwargs st)
    as [(v & _ & ->) | (_ & v & st' & k & -> & _ & Hdisp)].
  - by apply keeps_typing_inert.
  - destruct Hdisp as (_ & _ & _ & _ & [Hsame | (_ & Hsuccess & Hcache)] & _).
    + by apply keeps_typing_inert.
    + intros Htyped key v' t. cbn [snd]. rewrite Hcache.
      intros [[_ Heq] | [_ Hold]]%lookup_insert_Some.
      * right. injection Heq as <- _. exact Hsuccess.
      * by apply Htyped with (stored_at := t).
Qed.

Lemma cache_put_cache key v st :
  cache (self (snd (cache_put key v st))) =
  <[key := (v, now (world st))]> (cache (self st)).
Proof. reflexivity. Qed.

Lemma keeps_typing_cache_put name v :
  preserves keeps_typing (cache_put ("repo_" +:+ name) v).
Proof.
  intros st Htyped key v' t. rewrite cache_put_cache.
  intros [[<- _] | [_ Hold]]%lookup_insert_Some.
  - left. by destruct name.
  - by apply Htyped with (stored_at := t).
Qed.

Lemma keeps_typing_clear_repo_cache : preserves keeps_typing _clear_repo_cache.
Proof.
  intros st Htyped key v t Hlookup.
  rewrite clear_repo_cache_lookup in Hlookup.
  destruct (String.prefix "repo_" key) eqn:Hprefix; [discriminate|].
  destruct (Htyped _ _ _ Hlookup) as [Hrepo | Hsuccess]; [congruence | by right].
Qed.

Lemma keeps_typing_all events st : cache_typed st -> cache_typed (after events st).
Proof.
  apply preserves_after.
  - by intros st'.
  - intros st1 st2 st3 H12 H23 H1. by apply H23, H12.
  - exact keeps_typing_make_request.
  - intros url st'. apply keeps_typing_inert. unfold _download_from_raw_url.
    destruct (download_loop_bounded 3 url (range 3) st')
      as (v & st'' & k & -> & _ & _ & Hself & _); [discriminate|].
    cbn [snd]. by rewrite Hself.
  - exact keeps_typing_cache_put.
  - exact keeps_typing_clear_repo_cache.
  - intros f st'. by apply keeps_typing_inert.
  - intros st' _ key v t Hlookup. discriminate Hlookup.
  - intros st'. by apply keeps_typing_inert.
  - intros elapsed st'. by apply keeps_typing_inert.
Qed.

(** X8.  [self.cache] holds two kinds of entries, responses stored by
    [_make_request] and repository documents stored by [get_repo_by_name],
    and they never mix.  In every state a fresh client can reach, an entry
    that is not under a [repo_] key is a response with a status below 400;
    so a call of [_make_request] that the cache answers returns such a
    response, never a document, and any call returns [None] or a
    response. *)
Theorem cache_kinds_never_mix tok user srv events method url use_cache kwargs :
  let st := after events (boot tok user srv) in
  cache_typed st
  /\ exists v st',
      _make_request method url use_cache kwargs st = (Ok v, st')
      /\ none_or_response v
      /\ (cached_response (request_key method url use_cache kwargs) st = Some v ->
          is_success v).
Proof.
  intros st.
  assert (cache_typed st) as Htyped.
  { apply keeps_typing_all. intros key v t Hlookup. discriminate Hlookup. }
  split; [exact Htyped|].
  assert (forall v, cached_response (request_key method url use_cache kwargs) st = Some v ->
                    is_success v) as Hhit.
  { intros v Hv. unfold cached_response in Hv.
    destruct (request_key method url use_cache kwargs) as [key|] eqn:Hkey;
      [|discriminate].
    apply fresh_entry_Some in Hv as (t & Hlookup & _).
    destruct (Htyped _ _ _ Hlookup) as [Hrepo | Hsuccess]; [|exact Hsuccess].
    unfold request_key in Hkey.
    destruct (use_cache && String.eqb (upper method) "GET"); [|discriminate].
    injection Hkey as <-. unfold request_cache_key in Hrepo.
    by rewrite hexdigest_not_repo in Hrepo. }
  destruct (cached_response (request_key method url use_cache kwargs) st)
    as [hit|] eqn:Hcached.
  - rewrite make_request_eq, Hcached. eexists _, _. split; [reflexivity|].
    split; [|by intros _; apply Hhit].
    destruct (Hhit hit eq_refl) as (status & doc & raw & -> & _).
    right. by exists (mkResponse status doc raw).
  - destruct (make_request_miss method url use_cache kwargs st Hcached)
      as (v & st' & k & -> & _ & _ & _ & Hshape).
    exists v, st'. split; [reflexivity|]. split; [exact Hshape | discriminate].
Qed.

(** * Repository documents *)

(** [get_repo_by_name] once its own entry does not answer, in terms of what
    the dispatch returned. *)
Lemma get_repo_by_name_miss name st g st1 :
  fresh_entry (cache_expiry (self st)) ("repo_" +:+ name) (cache (self st))
              (now (world st)) = None ->
  _make_request "GET" (repo_url (username (self st)) name) false [] st = (Ok g, st1) ->
  get_repo_by_name name st =
    match g with
    | PyResponse status (Some doc) _ =>
        if status =? 200 then (Ok doc, snd (cache_put ("repo_" +:+ name) doc st1))
        else (Ok PyNone, st1)
    | _ => (Ok PyNone, st1)
    end.
Proof.
  intros Hmiss Hreq.
  unfold get_repo_by_name, bind at 1, gets. rewrite Hmiss.
  unfold try_except, get_repo_by_name_try, bind at 1, gets.
  unfold bind at 1. rewrite Hreq.
  destruct g as [| b | n | s | b | items | items | items | status doc raw];
    try (unfold bind; destruct (truthy _); reflexivity).
  destruct (Z.eqb_spec status 200) as [-> | Hne].
  - destruct doc; reflexivity.
  - unfold bind. destruct (truthy _); simpl.
    + apply Z.eqb_neq in Hne. rewrite Hne. by destruct doc.
    + by destruct doc.
Qed.

Lemma get_repo_by_name_hit name st doc stored_at :
  cache (self st) !! ("repo_" +:+ name) = Some (doc, stored_at) ->
  now (world st) - stored_at < seconds (cache_expiry (self st)) ->
  get_repo_by_name name st = (Ok doc, st).
Proof.
  intros Hentry Hfresh.
  unfold get_repo_by_name, bind, gets.
  assert (fresh_entry (cache_expiry (self st)) ("repo_" +:+ name) (cache (self st))
            (now (world st)) = Some doc) as ->; [|reflexivity].
  apply fresh_entry_Some. by exists stored_at.
Qed.

(** X9.  When the remote end answers 200 to the lookup of a repository,
    [get_repo_by_name] returns the document and files it under
    [repo_<name>] with the time of arrival.  While that entry is younger
    than [cache_expiry] seconds every further lookup returns the document
    without a request and without touching a counter. *)
Theorem repo_lookup_cached name st doc raw dt :
  let key := "repo_" +:+ name in
  let req := repo_request (username (self st)) name in
  fresh_entry (cache_expiry (self st)) key (cache (self st)) (now (world st)) = None ->
  plays st [(req, (respond 200 (Some doc) raw, dt))] ->
  exists st1,
    get_repo_by_name name st = (Ok doc, st1)
    /\ history (world st1) = (history (world st) ++ [req])%list
    /\ request_count (self st1) = request_count (self st) + 1
    /\ cache (self st1) = <[key := (doc, now (world st1))]> (cache (self st))
    /\ forall st2,
        cache (self st2) !! key = Some (doc, now (world st1)) ->
        now (world st2) - now (world st1) < seconds (cache_expiry (self st2)) ->
        get_repo_by_name name st2 = (Ok doc, st2).
Proof.
  intros key req Hmiss Hplays.
  pose proof (make_request_once "GET" (repo_url (username (self st)) name) false []
                st (respond 200 (Some doc) raw) dt eq_refl eq_refl Hplays) as Hreq.
  rewrite (get_repo_by_name_miss name st _ _ Hmiss Hreq).
  eexists. split; [reflexivity|].
  repeat split.
  intros st2 Hentry Hfresh.
  by apply get_repo_by_name_hit with (stored_at := now (world (sent req dt st))).
Qed.

Lemma repo_lookup_cached_witness :
  exists st1,
    get_repo_by_name "drive" drive_exists = (Ok drive_doc, st1)
    /\ history (world st1) =
       (history (world drive_exists) ++ [repo_request "octocat" "drive"])%list
    /\ request_count (self st1) = request_count (self drive_exists) + 1
    /\ cache (self st1) =
       <["repo_drive" := (drive_doc, now (world st1))]> (cache (self drive_exists))
    /\ forall st2,
        cache (self st2) !! "repo_drive" = Some (drive_doc, now (world st1)) ->
        now (world st2) - now (world st1) < seconds (cache_expiry (self st2)) ->
        get_repo_by_name "drive" st2 = (Ok drive_doc, st2).
Proof.
  apply (repo_lookup_cached "drive" drive_exists drive_doc [] 1000).
  - reflexivity.
  - vm_compute. auto.
Defined.

(** X10.  A lookup that fails is not remembered.  When the dispatch comes
    back with [None], with a status other than 200, or with a 200 whose
    body is not JSON, [get_repo_by_name] returns [None] and leaves the
    cache as it was, so the next lookup of the same name goes to the
    network again. *)
Theorem repo_lookup_failure_not_cached name st g st1 :
  fresh_entry (cache_expiry (self st)) ("repo_" +:+ name) (cache (self st))
              (now (world st)) = None ->
  _make_request "GET" (repo_url (username (self st)) name) false [] st = (Ok g, st1) ->
  not_ok_200 g \/ (exists raw, g = PyResponse 200 None raw) ->
  get_repo_by_name name st = (Ok PyNone, st1)
  /\ cache (self st1) = cache (self st)
  /\ (cache (self st) !! ("repo_" +:+ name) = None ->
      forall elapsed, exists v st2 k,
        get_repo_by_name name (idle elapsed st1) = (Ok v, st2)
        /\ (1 <= k <= 3)%nat
        /\ history (world st2) =
           (history (world st1) ++ repeat (repo_request (username (self st)) name) k)%list).
Proof.
  intros Hmiss Hreq Hfail.
  pose proof (keeps_cache_uncached "GET" (repo_url (username (self st)) name) [] st)
    as Hcache.
  rewrite Hreq in Hcache. cbn [snd] in Hcache.
  assert (get_repo_by_name name st = (Ok PyNone, st1)) as Hnone.
  { rewrite (get_repo_by_name_miss name st g st1 Hmiss Hreq).
    destruct Hfail as [[-> | (status & doc & raw & -> & Hne)] | (raw & ->)];
      try reflexivity.
    destruct doc; [|reflexivity].
    apply Z.eqb_neq in Hne. by rewrite Hne. }
  split; [exact Hnone|]. split; [exact Hcache|].
  intros Habsent elapsed.
  assert (username (self st1) = username (self st)) as Huser.
  { destruct (make_request_cases "GET" (repo_url (username (self st)) name) false [] st)
      as [(v & Hhit & _) | (_ & v & st' & k & Heq & _ & Hdisp)]; [discriminate Hhit|].
    rewrite Hreq in Heq. injection Heq as <- <-.
    by destruct Hdisp as (_ & _ & _ & (_ & Huser & _) & _). }
  set (st1' := idle elapsed st1).
  destruct (total_make_request "GET" (repo_url (username (self st1')) name) false [] st1')
    as (g' & st2' & Hreq').
  destruct (uncached_sends _ _ _ _ _ _ Hreq') as (k & Hk & Hhist).
  assert (fresh_entry (cache_expiry (self st1')) ("repo_" +:+ name) (cache (self st1'))
            (now (world st1')) = None) as Hmiss'.
  { unfold fresh_entry. change (cache (self st1')) with (cache (self st1)).
    by rewrite Hcache, Habsent. }
  pose proof (get_repo_by_name_miss name st1' g' st2' Hmiss' Hreq') as Heq.
  change (username (self st1')) with (username (self st1)) in Hhist.
  rewrite Huser in Hhist. change (history (world st1')) with (history (world st1)) in Hhist.
  destruct g' as [| | | | | | | | status [doc|] raw];
    try (exists PyNone, st2', k; split; [exact Heq | by split]).
  destruct (status =? 200); eexists _, _, k; (split; [exact Heq | by split]).
Qed.

Lemma repo_lookup_failure_not_cached_witness :
  get_repo_by_name "drive" drive_appears =
    (Ok PyNone, snd (_make_request "GET" (repo_url "octocat" "drive") false []
                       drive_appears))
  /\ cache (self (snd (_make_request "GET" (repo_url "octocat" "drive") false []
                         drive_appears))) = cache (self drive_appears)
  /\ (cache (self drive_appears) !! "repo_drive" = None ->
      forall elapsed, exists v st2 k,
        get_repo_by_name "drive"
          (idle elapsed (snd (_make_request "GET" (repo_url "octocat" "drive") false []
                                drive_appears))) = (Ok v, st2)
        /\ (1 <= k <= 3)%nat
        /\ history (world st2) =
           (history (world (snd (_make_request "GET" (repo_url "octocat" "drive") false []
                                   drive_appears)))
            ++ repeat (repo_request "octocat" "drive") k)%list).
Proof.
  apply (repo_lookup_failure_not_cached "drive" drive_appears
           (response_obj not_found)).
  - reflexivity.
  - vm_compute. reflexivity.
  - left. right. exists 404, (Some (PyDict [("message", PyStr "Not Found")])), [].
    split; [reflexivity | lia].
Defined.

(** X11.  When the remote end refuses a creation with 422, [create_repo]
    hands over to [get_repo_by_name]: its result is whatever the lookup of
    that name gives in the state after the refused request.  Nothing is
    removed from the cache, so a document filed under [repo_<name>] that
    has not expired is returned without a second request. *)
Theorem create_repo_name_taken name private st doc raw dt :
  plays st [(create_request name private, (respond 422 doc raw, dt))] ->
  create_repo name private st =
    get_repo_by_name name (sent (create_request name private) dt st)
  /\ forall cached stored_at,
      cache (self st) !! ("repo_" +:+ name) = Some (cached, stored_at) ->
      now (world st) + dt - stored_at < seconds (cache_expiry (self st)) ->
      create_repo name private st =
        (Ok cached, sent (create_request name private) dt st).
Proof.
  intros Hplays.
  pose proof (make_request_once "POST" (base_url +:+ "/user/repos") false
                [("json", create_repo_data name private)]
                st (respond 422 doc raw) dt eq_refl eq_refl Hplays) as Hreq.
  assert (create_repo name private st =
          get_repo_by_name name (sent (create_request name private) dt st)) as Heq.
  { unfold create_repo, try_except, create_repo_try, bind at 1.
    rewrite Hreq. unfold _get_existing_repo.
    change (settled _ _ ?s) with s.
    destruct (total_get_repo_by_name name
                (sent (create_request name private) dt st)) as (v & st2 & Hv).
    change (final_value (respond 422 doc raw)) with (PyResponse 422 doc raw).
    cbn [is_none]. unfold bind at 1, lift. cbn [py_status_code].
    change (422 =? 201) with false. change (422 =? 422) with true. cbv iota.
    fold (create_request name private). by rewrite Hv. }
  split; [exact Heq|].
  intros cached stored_at Hentry Hfresh. rewrite Heq.
  by apply get_repo_by_name_hit with (stored_at := stored_at).
Qed.

Lemma create_repo_name_taken_witness :
  create_repo "drive" false name_taken =
    get_repo_by_name "drive" (sent (create_request "drive" false) 1000 name_taken)
  /\ forall cached stored_at,
      cache (self name_taken) !! "repo_drive" = Some (cached, stored_at) ->
      now (world name_taken) + 1000 - stored_at < seconds (cache_expiry (self name_taken)) ->
      create_repo "drive" false name_taken =
        (Ok cached, sent (create_request "drive" false) 1000 name_taken).
Proof.
  apply (create_repo_name_taken "drive" false name_taken None [] 1000).
  vm_compute. auto.
Defined.

(** * Batches *)

(** X12.  [batch_upload_files] never stops early: it returns one record
    per file, in the order given, whatever became of the uploads, and the
    [success] of a record says whether its [result] is something other
    than [None].  A batch is the same as its two halves run one after the
    other. *)
Theorem batch_upload_records repo files message st :
  exists results st',
    batch_upload_files repo files message st = (Ok results, st')
    /\ List.map (fun record => field record "path") results =
       List.map (fun file => PyStr (fst file)) files
    /\ Forall (fun record =>
                 field record "success" =
                 PyBool (negb (is_none (field record "result")))) results
    /\ forall more results2 st2,
        batch_upload_files repo more message st' = (Ok results2, st2) ->
        batch_upload_files repo (files ++ more) message st =
          (Ok (results ++ results2)%list, st2).
Proof.
  revert st. induction files as [|[path content] rest IH]; intros st.
  - exists [], st. split; [reflexivity|]. split; [reflexivity|].
    split; [constructor|]. intros more results2 st2 Hmore. exact Hmore.
  - destruct (total_try (upload_file_try repo path content message) PyNone st)
      as (result & st1 & Hupload).
    fold (upload_file repo path content message) in Hupload.
    destruct (IH st1) as (results & st' & Hrest & Hpaths & Hflags & Happ).
    exists (upload_record path result :: results), st'.
    assert (forall files' results' st'',
              batch_upload_files repo files' message st1 = (Ok results', st'') ->
              batch_upload_files repo ((path, content) :: files') message st =
                (Ok (upload_record path result :: results'), st'')) as Hcons.
    { intros files' results' st'' Hfiles'.
      change (batch_upload_files repo ((path, content) :: files') message)
        with (bind (upload_file repo path content message) (fun result =>
                bind (batch_upload_files repo files' message) (fun results =>
                  ret (upload_record path result :: results)))).
      unfold bind at 1. rewrite Hupload. unfold bind. by rewrite Hfiles'. }
    split; [by apply Hcons|].
    split; [cbn [List.map]; by rewrite Hpaths|].
    split; [by constructor|].
    intros more results2 st2 Hmore.
    apply (Hcons (rest ++ more)%list (results ++ results2)%list st2).
    by apply Happ.
Qed.

(** * What the decorators remember *)

Lemma yields_ret {A} (P : A -> Prop) (a : A) : P a -> yields P (ret a).
Proof. intros Ha st v st' Heq. injection Heq as <- _. exact Ha. Qed.

Lemma yields_bind {A B} (P : B -> Prop) (m : M A) (k : A -> M B) :
  (forall a, yields P (k a)) -> yields P (bind m k).
Proof.
  intros Hk st v st'. unfold bind.
  destruct (m st) as [[a|e] st1]; [apply Hk | discriminate].
Qed.

Lemma yields_lift_bind {A B} (P : B -> Prop) (r : Result A) (k : A -> M B) :
  (forall a, r = Ok a -> yields P (k a)) -> yields P (bind (lift r) k).
Proof.
  intros Hk st v st'. unfold bind, lift.
  destruct r as [a|e]; [by apply Hk | discriminate].
Qed.

Lemma yields_try {A} (P : A -> Prop) (body : M A) (handler : Exn -> M A) :
  yields P body -> (forall e, yields P (handler e)) ->
  yields P (try_except body handler).
Proof.
  intros Hbody Hhandler st v st'. unfold try_except.
  destruct (body st) as [[a|e] st1] eqn:Heq.
  - intros [= <- <-]. by apply (Hbody st a st1).
  - apply Hhandler.
Qed.

(** [list_files] has no [None] among its results: a failure is the empty
    list. *)
Lemma list_files_not_none repo path :
  yields (fun v => is_none v = false) (list_files_undecorated repo path).
Proof.
  unfold list_files_undecorated, list_files_try.
  apply yields_try; [|intros e; by apply yields_ret].
  apply yields_bind. intros repo_info.
  destruct (negb (truthy repo_info)); [by apply yields_ret|].
  apply yields_bind. intros default_branch.
  apply yields_bind. intros user.
  apply yields_bind. intros response.
  destruct (is_none response); [by apply yields_ret|].
  apply yields_bind. intros status.
  destruct (status =? 200); [|by apply yields_ret].
  apply yields_bind. intros files.
  apply yields_lift_bind. intros n Hlen.
  apply yields_ret. by destruct files.
Qed.

(** X13.  [list_files] always has something to remember.  Its failure
    value is the empty list, not [None], so the decorator files every
    result, a failure included: when the repository cannot be looked up the
    call returns [[]], and for the next 180 seconds the same call returns
    that [[]] again without asking anyone. *)
Theorem listing_always_memoized repo path st :
  let key := memo_key (list_files_args repo path) [] in
  fresh_entry 180 key (list_files_memo (memos st)) (now (world st)) = None ->
  exists v st1 stored_at,
    list_files repo path st = (Ok v, st1)
    /\ is_none v = false
    /\ list_files_memo (memos st1) !! key = Some (v, stored_at)
    /\ (forall info st', get_repo_by_name repo st = (Ok info, st') ->
                         truthy info = false -> v = PyList [])
    /\ forall st2,
        memos st2 = memos st1 ->
        now (world st2) - stored_at < seconds 180 ->
        list_files repo path st2 = (Ok v, st2).
Proof.
  intros key Hmiss.
  destruct (total_try (list_files_try repo (default "" path)) (PyList []) st)
    as (v & st' & Hv).
  fold (list_files_undecorated repo (default "" path)) in Hv.
  pose proof (list_files_not_none repo (default "" path) st v st' Hv) as Hsome.
  pose proof (cache_result_eq 180 ListFiles
                (list_files_undecorated repo (default "" path))
                (list_files_args repo path) [] st) as Heq.
  fold key in Heq. cbn [memo_of] in Heq. rewrite Hmiss, Hv, Hsome in Heq.
  fold (list_files repo path) in Heq.
  eexists v, _, (now (world st')). split; [exact Heq|].
  split; [exact Hsome|].
  split; [cbn [memos on_memos set_memo list_files_memo]; apply lookup_insert_eq|].
  split.
  - intros info st0 Hinfo Hfalsy.
    unfold list_files_undecorated, try_except, list_files_try, bind at 1 in Hv.
    rewrite Hinfo, Hfalsy in Hv. by injection Hv as <- _.
  - intros st2 Hmemos Hfresh.
    apply cache_result_hit with (stored_at := now (world st')); [|exact Hfresh].
    rewrite Hmemos. cbn [memos on_memos set_memo memo_of list_files_memo].
    apply lookup_insert_eq.
Qed.

Lemma listing_always_memoized_witness :
  exists v st1 stored_at,
    list_files "drive" None drive_appears = (Ok v, st1)
    /\ is_none v = false
    /\ list_files_memo (memos st1) !! memo_key (list_files_args "drive" None) [] =
       Some (v, stored_at)
    /\ (forall info st', get_repo_by_name "drive" drive_appears = (Ok info, st') ->
                         truthy info = false -> v = PyList [])
    /\ forall st2,
        memos st2 = memos st1 ->
        now (world st2) - stored_at < seconds 180 ->
        list_files "drive" None st2 = (Ok v, st2).
Proof.
  apply (listing_always_memoized "drive" None drive_appears).
  vm_compute. reflexivity.
Defined.

Lemma same_memos_trans st1 st2 st3 :
  same_memos st1 st2 -> same_memos st2 st3 -> same_memos st1 st3.
Proof. unfold same_memos. congruence. Qed.

Lemma same_memos_make_request method url use_cache kwargs :
  preserves same_memos (_make_request method url use_cache kwargs).
Proof.
  intros st.
  destruct (make_request_cases method url use_cache kwargs st)
    as [(v & _ & ->) | (_ & v & st' & k & -> & _ & Hdisp)]; [reflexivity|].
  by destruct Hdisp as (_ & _ & _ & (_ & _ & _ & _ & Hmemos & _) & _).
Qed.

Lemma same_memos_get_user_repos : preserves same_memos get_user_repos_undecorated.
Proof.
  unfold get_user_repos_undecorated, get_user_repos_try.
  repeat lazymatch goal with
    | |- preserves _ (ret _) => by apply preserves_ret
    | |- preserves _ (lift _) => by apply preserves_lift
    | |- preserves _ (_make_request _ _ _ _) => apply same_memos_make_request
    | |- preserves _ (try_except _ _) =>
        apply preserves_try; [exact same_memos_trans | | intros ?]
    | |- preserves _ (bind _ _) =>
        apply preserves_bind; [exact same_memos_trans | | intros ?]
    | |- preserves _ (if ?b then _ else _) => destruct b
    end.
Qed.

(** X14.  [get_user_repos] remembers a result exactly when it is not
    [None].  A call that fails leaves the decorators as they were, so the
    next call tries the network again; any other result, the empty list
    included, is filed with the time of its arrival. *)
Theorem repos_memoized_unless_none st v st1 :
  fresh_entry 300 (memo_key [] []) (get_user_repos_memo (memos st))
              (now (world st)) = None ->
  get_user_repos st = (Ok v, st1) ->
  (v = PyNone -> memos st1 = memos st)
  /\ (v <> PyNone ->
      get_user_repos_memo (memos st1) =
        <[memo_key [] [] := (v, now (world st1))]> (get_user_repos_memo (memos st))
      /\ list_files_memo (memos st1) = list_files_memo (memos st)).
Proof.
  intros Hmiss Hcall.
  unfold get_user_repos in Hcall. rewrite cache_result_eq in Hcall.
  cbn [memo_of] in Hcall. rewrite Hmiss in Hcall.
  pose proof (same_memos_get_user_repos st) as Hmemos. unfold same_memos in Hmemos.
  destruct (get_user_repos_undecorated st) as [[result|e] st'];
    [|discriminate Hcall].
  cbn [snd] in Hmemos. 
  pose proof (f_equal fst Hcall) as Hv. pose proof (f_equal snd Hcall) as Hst.
  cbn [fst snd] in Hv, Hst. clear Hcall.
  assert (result = v) as -> by congruence.
  split.
  - intros ->. cbn [is_none] in Hst. subst st1. exact Hmemos.
  - intros Hsome.
    assert (is_none v = false) as Hnone.
    { destruct v; try reflexivity. by destruct Hsome. }
    rewrite Hnone in Hst. subst st1.
    cbn [memos on_memos set_memo get_user_repos_memo list_files_memo world].
    rewrite Hmemos. split; reflexivity.
Qed.

Lemma repos_memoized_unless_none_witness :
  (PyNone = PyNone -> memos (snd (get_user_repos outage)) = memos outage)
  /\ (PyNone <> PyNone ->
      get_user_repos_memo (memos (snd (get_user_repos outage))) =
        <[memo_key [] [] := (PyNone, now (world (snd (get_user_repos outage))))]>
          (get_user_repos_memo (memos outage))
      /\ list_files_memo (memos (snd (get_user_repos outage))) =
         list_files_memo (memos outage)).
Proof.
  apply (repos_memoized_unless_none outage PyNone (snd (get_user_repos outage))).
  - vm_compute. reflexivity.
  - vm_compute. reflexivity.
Defined.

(** * The raw download *)

(** One turn of the download loop, by the outcome of its request. *)
Lemma download_attempt_step limit url attempt st o dt :
  server (world st) (history (world st)) (raw_request url) = (o, dt) ->
  download_attempt limit url attempt st =
    if raw_retried o && (attempt <? limit - 1)
    then (Ok Continue,
          backed_off (raw_backoff o attempt) (fetched (raw_request url) dt st))
    else (Ok (Return (raw_value o)), fetched (raw_request url) dt st).
Proof.
  intros Hsrv.
  unfold download_attempt, try_except, bind at 1, session_request.
  rewrite Hsrv.
  destruct o as [r|e]; cbn [raw_retried raw_backoff raw_value].
  - destruct (status_code r =? 200); [reflexivity|].
    destruct (retryable (status_code r)); [|reflexivity].
    destruct (attempt <? limit - 1); reflexivity.
  - destruct e; destruct (attempt <? limit - 1); reflexivity.
Qed.

(** X15.  [_download_from_raw_url] gives up after three failed attempts.
    Each attempt is the same GET with a timeout of (10, 60); a retryable
    status and every exception, not only timeouts and connection errors,
    lead to another attempt.  It sleeps 3 and then 4 seconds after a status
    or a timeout and 2 and then 3 after any other exception, returns
    [None], and leaves the client, its counters included, untouched. *)
Theorem raw_download_gives_up url st o0 d0 o1 d1 o2 d2 :
  plays st (exchanges (raw_request url) [(o0, d0); (o1, d1); (o2, d2)]) ->
  raw_retried o0 = true ->
  raw_retried o1 = true ->
  raw_retried o2 = true ->
  exists st',
    _download_from_raw_url url st = (Ok PyNone, st')
    /\ history (world st') = (history (world st) ++ repeat (raw_request url) 3)%list
    /\ slept (world st') = (slept (world st) ++ [raw_backoff o0 0; raw_backoff o1 1])%list
    /\ self st' = self st
    /\ memos st' = memos st.
Proof.
  intros (H0 & H1 & H2 & _) Hr0 Hr1 Hr2.
  set (req := raw_request url) in *.
  set (st1 := backed_off (raw_backoff o0 0) (fetched req d0 st)).
  set (st2 := backed_off (raw_backoff o1 1) (fetched req d1 st1)).
  assert (download_attempt 3 url 0 st = (Ok Continue, st1)) as Ha0.
  { rewrite (download_attempt_step 3 url 0 st o0 d0 H0), Hr0. reflexivity. }
  assert (download_attempt 3 url 1 st1 = (Ok Continue, st2)) as Ha1.
  { rewrite (download_attempt_step 3 url 1 st1 o1 d1 H1), Hr1. reflexivity. }
  assert (download_attempt 3 url 2 st2 = (Ok (Return PyNone), fetched req d2 st2)) as Ha2.
  { rewrite (download_attempt_step 3 url 2 st2 o2 d2).
    - rewrite Hr2. cbn [andb]. change (2 <? 3 - 1) with false. cbv iota.
      destruct o2 as [r|e]; [|reflexivity].
      cbn [raw_value]. cbn [raw_retried] in Hr2.
      by destruct (status_code r =? 200).
    - subst st2 st1. cbn [world history backed_off fetched on_world server].
      exact H2. }
  exists (fetched req d2 st2).
  split.
  - unfold _download_from_raw_url.
    change (range 3) with [0; 1; 2]. cbn [download_loop].
    unfold bind at 1. rewrite Ha0. unfold bind at 1. rewrite Ha1.
    unfold bind at 1. rewrite Ha2. reflexivity.
  - subst st2 st1. cbn [world history slept backed_off fetched on_world self memos].
    rewrite <- !app_assoc. by repeat split.
Qed.

Lemma raw_download_gives_up_witness :
  exists st',
    _download_from_raw_url raw_url raw_host_down = (Ok PyNone, st')
    /\ history (world st') =
       (history (world raw_host_down) ++ repeat (raw_request raw_url) 3)%list
    /\ slept (world st') =
       (slept (world raw_host_down)
        ++ [raw_backoff (Responded unavailable) 0; raw_backoff (Raised OtherException) 1])%list
    /\ self st' = self raw_host_down
    /\ memos st' = memos raw_host_down.
Proof.
  apply (raw_download_gives_up raw_url raw_host_down
           (Responded unavailable) 1000 (Raised OtherException) 1000
           (Raised RequestsTimeout) 1000).
  - vm_compute. auto.
  - reflexivity.
  - reflexivity.
  - reflexivity.
Defined.

(** * base64 *)

Lemma a2b_skip input : forall quad_pos leftchar pads out,
  Base64.a2b_base64 input quad_pos leftchar pads out =
  Base64.a2b_base64 (List.filter significant input) quad_pos leftchar pads out.
Proof.
  induction input as [|c rest IH]; intros quad_pos leftchar pads out; [reflexivity|].
  cbn [Base64.a2b_base64 List.filter]. unfold significant.
  destruct (c =? 61) eqn:Hpad.
  - cbn [orb Base64.a2b_base64]. rewrite Hpad.
    destruct ((2 <=? quad_pos) && (4 <=? quad_pos + (pads + 1))); [reflexivity|].
    apply IH.
  - cbn [orb]. destruct (Base64.dec c) as [v|] eqn:Hdec.
    + cbn [Base64.a2b_base64]. rewrite Hpad, Hdec.
      destruct (quad_pos =? 0); [apply IH|].
      destruct (quad_pos =? 1); [apply IH|].
      destruct (quad_pos =? 2); apply IH.
    + apply IH.
Qed.

Lemma enc_dec k :
  0 <= k < 64 ->
  Base64.dec (Base64.enc k) = Some k
  /\ (Base64.enc k =? 61) = false
  /\ (Base64.enc k <? 128) = true
  /\ 0 <= Base64.enc k < 256.
Proof.
  intros Hk.
  assert (forallb (fun n =>
            match Base64.dec (Base64.enc n) with
            | Some m => (m =? n) && negb (Base64.enc n =? 61)
                        && (Base64.enc n <? 128) && (0 <=? Base64.enc n)
            | None => false
            end) (range 64) = true) as Hall by (vm_compute; reflexivity).
  rewrite forallb_forall in Hall.
  specialize (Hall k).
  destruct (Base64.dec (Base64.enc k)) as [m|].
  - assert (In k (range 64)) as Hin.
    { unfold range. apply in_map_iff. exists (Z.to_nat k).
      split; [lia|]. apply in_seq. lia. }
    apply Hall in Hin.
    apply andb_prop in Hin as [Hin Hpos]. apply andb_prop in Hin as [Hin Hascii].
    apply andb_prop in Hin as [Heq Hpad].
    apply Z.eqb_eq in Heq. apply negb_true_iff in Hpad.
    pose proof (proj1 (Z.ltb_lt _ _) Hascii). apply Z.leb_le in Hpos.
    subst m. repeat split; try assumption; lia.
  - assert (In k (range 64)) as Hin.
    { unfold range. apply in_map_iff. exists (Z.to_nat k).
      split; [lia|]. apply in_seq. lia. }
    apply Hall in Hin. discriminate Hin.
Qed.

Section Quad.

Variables (k : Z) (rest : bytes) (leftchar pads : Z) (out : bytes).
Hypothesis Hk : 0 <= k < 64.

Lemma a2b_enc0 :
  Base64.a2b_base64 (Base64.enc k :: rest) 0 leftchar pads out =
  Base64.a2b_base64 rest 1 k 0 out.
Proof.
  destruct (enc_dec k Hk) as (Hdec & Hpad & _).
  cbn [Base64.a2b_base64]. by rewrite Hpad, Hdec.
Qed.

Lemma a2b_enc1 :
  Base64.a2b_base64 (Base64.enc k :: rest) 1 leftchar pads out =
  Base64.a2b_base64 rest 2 (k mod 16) 0 (out ++ [leftchar * 4 + k / 16]).
Proof.
  destruct (enc_dec k Hk) as (Hdec & Hpad & _).
  cbn [Base64.a2b_base64]. by rewrite Hpad, Hdec.
Qed.

Lemma a2b_enc2 :
  Base64.a2b_base64 (Base64.enc k :: rest) 2 leftchar pads out =
  Base64.a2b_base64 rest 3 (k mod 4) 0 (out ++ [leftchar * 16 + k / 4]).
Proof.
  destruct (enc_dec k Hk) as (Hdec & Hpad & _).
  cbn [Base64.a2b_base64]. by rewrite Hpad, Hdec.
Qed.

Lemma a2b_enc3 :
  Base64.a2b_base64 (Base64.enc k :: rest) 3 leftchar pads out =
  Base64.a2b_base64 rest 0 0 0 (out ++ [leftchar * 64 + k]).
Proof.
  destruct (enc_dec k Hk) as (Hdec & Hpad & _).
  cbn [Base64.a2b_base64]. by rewrite Hpad, Hdec.
Qed.

End Quad.

Lemma a2b_encoded n : forall content out,
  (length content <= n)%nat ->
  Forall (fun b => 0 <= b < 256) content ->
  Base64.a2b_base64 (Base64.b64encode content) 0 0 0 out = Some (out ++ content)%list.
Proof.
  induction n as [|n IH]; intros content out Hlen Hrange.
  - destruct content; [|simpl in Hlen; lia]. simpl. by rewrite app_nil_r.
  - destruct content as [|x [|y [|z rest]]].
    + simpl. by rewrite app_nil_r.
    + apply Forall_cons in Hrange as [Hx _].
      cbn [Base64.b64encode].
      rewrite a2b_enc0 by (Z.div_mod_to_equations; lia).
      rewrite a2b_enc1 by (Z.div_mod_to_equations; lia).
      replace (x / 4 * 4 + x mod 4 * 16 / 16) with x
        by (Z.div_mod_to_equations; lia).
      reflexivity.
    + apply Forall_cons in Hrange as [Hx Hrange].
      apply Forall_cons in Hrange as [Hy _].
      cbn [Base64.b64encode].
      rewrite a2b_enc0 by (Z.div_mod_to_equations; lia).
      rewrite a2b_enc1 by (Z.div_mod_to_equations; lia).
      rewrite a2b_enc2 by (Z.div_mod_to_equations; lia).
      replace (x / 4 * 4 + (x mod 4 * 16 + y / 16) / 16) with x
        by (Z.div_mod_to_equations; lia).
      replace ((x mod 4 * 16 + y / 16) mod 16 * 16 + y mod 16 * 4 / 4) with y
        by (Z.div_mod_to_equations; lia).
      rewrite <- app_assoc. reflexivity.
    + apply Forall_cons in Hrange as [Hx Hrange].
      apply Forall_cons in Hrange as [Hy Hrange].
      apply Forall_cons in Hrange as [Hz Hrange].
      cbn [Base64.b64encode].
      rewrite a2b_enc0 by (Z.div_mod_to_equations; lia).
      rewrite a2b_enc1 by (Z.div_mod_to_equations; lia).
      rewrite a2b_enc2 by (Z.div_mod_to_equations; lia).
      rewrite a2b_enc3 by (Z.div_mod_to_equations; lia).
      replace (x / 4 * 4 + (x mod 4 * 16 + y / 16) / 16) with x
        by (Z.div_mod_to_equations; lia).
      replace ((x mod 4 * 16 + y / 16) mod 16 * 16 + (y mod 16 * 4 + z / 64) / 4) with y
        by (Z.div_mod_to_equations; lia).
      replace ((y mod 16 * 4 + z / 64) mod 4 * 64 + z mod 64) with z
        by (Z.div_mod_to_equations; lia).
      rewrite IH; [|simpl in Hlen; lia | exact Hrange].
      by rewrite <- !app_assoc.
Qed.

Lemma encode_decode (b : bytes) :
  Forall (fun c => 0 <= c < 256) b -> encode (decode b) = b.
Proof.
  induction 1 as [|c rest Hc _ IH]; [reflexivity|].
  cbn [decode encode]. by rewrite byte_of_ascii_of_byte, IH.
Qed.

(** The text [b64encode] produces: ASCII, and nothing the decoder skips. *)
Lemma b64encode_text n : forall content,
  (length content <= n)%nat ->
  Forall (fun b => 0 <= b < 256) content ->
  Forall (fun c => 0 <= c < 256 /\ (c <? 128) = true /\ significant c = true)
         (Base64.b64encode content).
Proof.
  assert (forall k, 0 <= k < 64 ->
            0 <= Base64.enc k < 256 /\ (Base64.enc k <? 128) = true
            /\ significant (Base64.enc k) = true) as Henc.
  { intros k Hk. destruct (enc_dec k Hk) as (Hdec & Hpad & Hascii & Hbyte).
    unfold significant. by rewrite Hpad, Hdec. }
  assert (0 <= 61 < 256 /\ (61 <? 128) = true /\ significant 61 = true) as Hpad
    by (repeat split; lia).
  induction n as [|n IH]; intros content Hlen Hrange.
  - destruct content; [constructor | simpl in Hlen; lia].
  - destruct content as [|x [|y [|z rest]]].
    + constructor.
    + apply Forall_cons in Hrange as [Hx _].
      cbn [Base64.b64encode].
      repeat (apply Forall_cons; split;
              [first [exact Hpad | apply Henc; Z.div_mod_to_equations; lia]|]).
      constructor.
    + apply Forall_cons in Hrange as [Hx Hrange].
      apply Forall_cons in Hrange as [Hy _].
      cbn [Base64.b64encode].
      repeat (apply Forall_cons; split;
              [first [exact Hpad | apply Henc; Z.div_mod_to_equations; lia]|]).
      constructor.
    + apply Forall_cons in Hrange as [Hx Hrange].
      apply Forall_cons in Hrange as [Hy Hrange].
      apply Forall_cons in Hrange as [Hz Hrange].
      cbn [Base64.b64encode].
      do 4 (apply Forall_cons; split; [apply Henc; Z.div_mod_to_equations; lia|]).
      apply IH; [simpl in Hlen; lia | exact Hrange].
Qed.

Lemma b64decode_encoded content :
  Forall (fun b => 0 <= b < 256) content ->
  b64decode (PyStr (decode (Base64.b64encode content))) = Ok content.
Proof.
  intros Hrange.
  pose proof (b64encode_text (length content) content (le_n _) Hrange) as Htext.
  unfold b64decode. rewrite encode_decode by (eapply Forall_impl; [exact Htext|]; by intros c [Hc _]).
  assert (forallb (fun c => c <? 128) (Base64.b64encode content) = true) as ->.
  { apply forallb_forall. intros c Hc.
    rewrite List.Forall_forall in Htext. by apply Htext. }
  by rewrite (a2b_encoded (length content)).
Qed.

(** X16.  What [upload_file] encodes, the inline branch of [download_file]
    decodes back to the same octets.  The decoder skips every character
    that is neither of the alphabet nor a pad, so the line breaks the remote
    end puts into the text do no harm.  One content does not come back: the
    text of an empty file is empty, [download_file] takes the empty text
    for a missing content and returns [None]. *)
Theorem inline_content_round_trip content text st :
  Forall (fun b => 0 <= b < 256) content ->
  forallb (fun c => c <? 128) (encode text) = true ->
  List.filter significant (encode text) = Base64.b64encode content ->
  b64decode (PyStr text) = Ok content
  /\ b64decode (PyStr (decode (Base64.b64encode content))) = Ok content
  /\ download_content (inline_file content) st =
     (Ok (match content with [] => PyNone | _ :: _ => PyBytes content end), st).
Proof.
  intros Hrange Hascii Htext.
  split; [|split].
  - unfold b64decode. rewrite Hascii, a2b_skip, Htext.
    by rewrite (a2b_encoded (length content)).
  - by apply b64decode_encoded.
  - unfold download_content, inline_file.
    unfold bind at 1, lift. cbn [py_get lookup_item String.eqb Ascii.eqb Bool.eqb].
    cbn [eq_str String.eqb Ascii.eqb Bool.eqb].
    unfold bind at 1, lift. cbn [py_get lookup_item String.eqb Ascii.eqb Bool.eqb truthy].
    unfold bind at 1, lift. cbn [py_get lookup_item String.eqb Ascii.eqb Bool.eqb].
    destruct content as [|x rest].
    + reflexivity.
    + assert (truthy (PyStr (decode (Base64.b64encode (x :: rest)))) = true) as ->.
      { destruct rest as [|y [|z rest]]; reflexivity. }
      unfold bind, lift. by rewrite b64decode_encoded.
Qed.

Lemma inline_content_round_trip_witness :
  b64decode (PyStr wrapped_hi) = Ok [104; 105]
  /\ b64decode (PyStr (decode (Base64.b64encode [104; 105]))) = Ok [104; 105]
  /\ download_content (inline_file [104; 105]) one_answer =
     (Ok (PyBytes [104; 105]), one_answer).
Proof.
  apply (inline_content_round_trip [104; 105] wrapped_hi one_answer).
  - repeat constructor; lia.
  - reflexivity.
  - reflexivity.
Defined.

(** * Clearing the cache *)

(** X17.  [clear_cache] empties [self.cache] and nothing else.  After it
    no call of [_make_request] is answered from the cache, but the
    dictionaries of the decorators are as they were: a listing that
    [get_user_repos] or [list_files] remembered is still returned, without
    a request, until its own lifetime is over. *)
Theorem clear_cache_keeps_memos st :
  let st' := snd (clear_cache st) in
  cache (self st') = ∅
  /\ memos st' = memos st
  /\ (forall method url use_cache kwargs,
        cached_response (request_key method url use_cache kwargs) st' = None)
  /\ (forall v stored_at,
        get_user_repos_memo (memos st) !! memo_key [] [] = Some (v, stored_at) ->
        now (world st) - stored_at < seconds 300 ->
        get_user_repos st' = (Ok v, st'))
  /\ (forall repo path v stored_at,
        list_files_memo (memos st) !! memo_key (list_files_args repo path) [] =
          Some (v, stored_at) ->
        now (world st) - stored_at < seconds 180 ->
        list_files repo path st' = (Ok v, st')).
Proof.
  intros st'. split; [reflexivity|]. split; [reflexivity|]. split; [|split].
  - intros method url use_cache kwargs. unfold cached_response.
    destruct (request_key method url use_cache kwargs) as [key|]; reflexivity.
  - intros v stored_at Hentry Hfresh.
    by apply cache_result_hit with (stored_at := stored_at).
  - intros repo path v stored_at Hentry Hfresh.
    by apply cache_result_hit with (stored_at := stored_at).
Qed.

Lemma clear_cache_keeps_memos_witness :
  get_user_repos (snd (clear_cache listed)) = (Ok alice_repos, snd (clear_cache listed)).
Proof.
  destruct (clear_cache_keeps_memos listed) as (_ & _ & _ & Hrepos & _).
  apply (Hrepos alice_repos 1000).
  - vm_compute. reflexivity.
  - vm_compute. reflexivity.
Defined.

(** * Keyword arguments *)

Lemma lookup_item_app name items more :
  lookup_item name (items ++ more) =
  match lookup_item name items with
  | Some v => Some v
  | None => lookup_item name more
  end.
Proof.
  induction items as [|[k v] rest IH]; [reflexivity|].
  cbn [app lookup_item]. by destruct (String.eqb name k).
Qed.

(** The request the dispatch builds from its arguments. *)
Lemma physical_carries_timeout verb address kw name :
  let req := physical verb address kw in
  method req = verb
  /\ url req = PyStr address
  /\ has_key "timeout" (kwargs req) = true
  /\ lookup_item name (kwargs req) =
     match lookup_item name kw with
     | Some v => Some v
     | None => if String.eqb name "timeout" then Some default_timeout else None
     end.
Proof.
  intros req. split; [reflexivity|]. split; [reflexivity|].
  unfold req, physical. cbn [kwargs]. unfold with_timeout, has_key.
  destruct (lookup_item "timeout" kw) as [t|] eqn:Htimeout.
  - split; [by rewrite Htimeout|].
    destruct (lookup_item name kw) as [v|] eqn:Hname; [reflexivity|].
    destruct (String.eqb_spec name "timeout") as [-> | _]; [congruence | reflexivity].
  - rewrite !lookup_item_app, Htimeout. split; [reflexivity|].
    destruct (lookup_item name kw); [reflexivity|].
    cbn [lookup_item]. by destruct (String.eqb name "timeout").
Qed.

(** X18.  Every request that [_make_request] hands to the session carries
    a timeout: the one the caller gave, and (10, 30) when the caller gave
    none.  The method, the URL and every other keyword are passed on as
    they came.  A call sends at most three requests, at least one unless
    the cache answers it, and this holds for each of them. *)
Theorem request_carries_timeout verb address use_cache kw st :
  exists requests,
    history (world (snd (_make_request verb address use_cache kw st))) =
      (history (world st) ++ requests)%list
    /\ (length requests <= 3)%nat
    /\ (cached_response (request_key verb address use_cache kw) st = None ->
        (1 <= length requests)%nat)
    /\ forall req,
        In req requests ->
        method req = verb
        /\ url req = PyStr address
        /\ has_key "timeout" (kwargs req) = true
        /\ forall name,
            lookup_item name (kwargs req) =
            match lookup_item name kw with
            | Some v => Some v
            | None => if String.eqb name "timeout" then Some default_timeout else None
            end.
Proof.
  destruct (make_request_cases verb address use_cache kw st)
    as [(v & Hhit & Heq) | (Hmiss & v & st' & k & Heq & Hk & Hhist & _)];
    rewrite Heq; cbn [snd].
  - exists []. split; [by rewrite app_nil_r|]. split; [cbn [length]; lia|].
    split; [by rewrite Hhit|]. intros req Hin. destruct Hin.
  - exists (repeat (physical verb address kw) k).
    split; [exact Hhist|]. rewrite repeat_length. split; [lia|]. split; [lia|].
    intros req Hin. apply repeat_spec in Hin. subst req.
    destruct (physical_carries_timeout verb address kw "") as (Hverb & Haddress & Htimeout & _).
    split; [exact Hverb|]. split; [exact Haddress|]. split; [exact Htimeout|].
    intros name. by destruct (physical_carries_timeout verb address kw name) as (_ & _ & _ & Hname).
Qed.

(** A listing read for the first time goes out with the default timeout. *)
Example timeout_of_a_read :
  history (world (snd first_read)) =
    [mkRequest "GET" (PyStr user_url) [("timeout", PyTuple [PyInt 10; PyInt 30])]]
  /\ history (world (snd (_make_request "GET" user_url true [("timeout", PyInt 5)]
                            one_answer))) =
     [mkRequest "GET" (PyStr user_url) [("timeout", PyInt 5)]].
Proof. vm_compute. split; reflexivity. Qed.

(** * Deleting a file *)

(** X19.  [delete_file] answers with a boolean and nothing else: [True]
    exactly when the dispatch of its one DELETE request, which carries the
    message and the revision hash, came back with status 200, and [False]
    for every other status and for [None].  It goes to the network every
    time and leaves the cache as it was. *)
Theorem delete_file_result repo path sha message st :
  let req := delete_request (username (self st)) repo path sha message in
  exists g st1 k,
    _make_request "DELETE" (contents_url (username (self st)) repo path) false
      [("json", PyDict [("message", PyStr message); ("sha", PyStr sha)])] st = (Ok g, st1)
    /\ delete_file repo path sha message st = (Ok (PyBool (is_200 g)), st1)
    /\ (1 <= k <= 3)%nat
    /\ history (world st1) = (history (world st) ++ repeat req k)%list
    /\ cache (self st1) = cache (self st)
    /\ lookup_item "json" (kwargs req) =
       Some (PyDict [("message", PyStr message); ("sha", PyStr sha)]).
Proof.
  intros req.
  destruct (total_make_request "DELETE" (contents_url (username (self st)) repo path)
              false [("json", PyDict [("message", PyStr message); ("sha", PyStr sha)])] st)
    as (g & st1 & Hreq).
  destruct (uncached_sends _ _ _ _ _ _ Hreq) as (k & Hk & Hhist).
  pose proof (keeps_cache_uncached "DELETE"
                (contents_url (username (self st)) repo path)
                [("json", PyDict [("message", PyStr message); ("sha", PyStr sha)])] st)
    as Hcache.
  rewrite Hreq in Hcache. cbn [snd] in Hcache.
  exists g, st1, k. split; [exact Hreq|].
  split; [|split; [exact Hk | split; [exact Hhist | split; [exact Hcache | reflexivity]]]].
  unfold delete_file, try_except, delete_file_try, bind at 1, gets.
  unfold bind at 1. rewrite Hreq.
  destruct g as [| | | | | | | | status doc raw]; try reflexivity.
  cbn [is_none is_200]. unfold bind, lift. cbn [py_status_code].
  by destruct (status =? 200).
Qed.

(** * Listing files *)




(** The first listing of a repository sends the lookup and then the
    listing; the second, three minutes later, finds the document in the
    cache of the client and sends the listing alone. *)
Example listing_first_and_later :
  let run1 := list_files "drive" None drive_unknown in
  let st := boot "token" "octocat"
              (scripted [respond 200 (Some drive_doc) [];
                         respond 200 (Some (PyList drive_files)) [];
                         respond 200 (Some (PyList [])) []] 1000) in
  let later := idle (seconds 200) (snd (list_files "drive" (Some "docs") st)) in
  let run2 := list_files "drive" None later in
  fst run1 = Ok (PyList drive_files)
  /\ history (world (snd run1)) =
     [physical "GET" "https://api.github.com/repos/octocat/drive" [];
      physical "GET" "https://api.github.com/repos/octocat/drive/contents/?ref=trunk" []]
  /\ fst run2 = Ok (PyList [])
  /\ drop 2 (history (world (snd run2))) =
     [physical "GET" "https://api.github.com/repos/octocat/drive/contents/?ref=trunk" []].
Proof. vm_compute. repeat split. Qed.

Example listing_url_of_drive :
  listing_url "octocat" "drive" (Some "docs") [("default_branch", PyStr "trunk")]
    = "https://api.github.com/repos/octocat/drive/contents/docs?ref=trunk"
  /\ listing_url "octocat" "drive" None [("full_name", PyStr "octocat/drive")]
    = "https://api.github.com/repos/octocat/drive/contents/?ref=main".
Proof. split; reflexivity. Qed.

(** * Budgets *)

Lemma costs_weaken {A} n n' (m : M A) : costs n m -> (n <= n')%nat -> costs n' m.
Proof. intros Hm Hle st. specialize (Hm st). lia. Qed.

Lemma costs_inert {A} (m : M A) :
  (forall st, history (world (snd (m st))) = history (world st)) -> costs 0 m.
Proof. intros Hm st. unfold attempts_between. rewrite Hm. lia. Qed.

Lemma costs_ret {A} (a : A) : costs 0 (ret a).
Proof. by apply costs_inert. Qed.

Lemma costs_lift {A} (r : Result A) : costs 0 (lift r).
Proof. by apply costs_inert. Qed.

Lemma costs_gets {A} (f : State -> A) : costs 0 (gets f).
Proof. by apply costs_inert. Qed.

Lemma costs_cache_put key v : costs 0 (cache_put key v).
Proof. by apply costs_inert. Qed.

Lemma costs_clear_repo_cache : costs 0 _clear_repo_cache.
Proof. by apply costs_inert. Qed.

Lemma costs_modify_memos f : costs 0 (modify (on_memos f)).
Proof. by apply costs_inert. Qed.

Lemma costs_bind {A B} n1 n2 (m : M A) (k : A -> M B) :
  costs n1 m -> (forall a, costs n2 (k a)) -> costs (n1 + n2) (bind m k).
Proof.
  intros Hm Hk st. unfold bind. specialize (Hm st).
  destruct (m st) as [[a|e] st1]; cbn [snd] in *.
  - specialize (Hk a st1). unfold attempts_between in *. lia.
  - lia.
Qed.

Lemma costs_try {A} n1 n2 (body : M A) (handler : Exn -> M A) :
  costs n1 body -> (forall e, costs n2 (handler e)) ->
  costs (n1 + n2) (try_except body handler).
Proof.
  intros Hbody Hhandler st. unfold try_except. specialize (Hbody st).
  destruct (body st) as [[a|e] st1]; cbn [snd] in *.
  - lia.
  - specialize (Hhandler e st1). unfold attempts_between in *. lia.
Qed.

Lemma costs_if {A} n1 n2 (b : bool) (m1 m2 : M A) :
  costs n1 m1 -> costs n2 m2 -> costs (Nat.max n1 n2) (if b then m1 else m2).
Proof.
  intros H1 H2. destruct b; [apply (costs_weaken n1) | apply (costs_weaken n2)];
    auto; lia.
Qed.

Lemma costs_option {A B} n1 n2 (x : option B) (m1 : B -> M A) (m2 : M A) :
  (forall b, costs n1 (m1 b)) -> costs n2 m2 ->
  costs (Nat.max n1 n2) (match x with Some b => m1 b | None => m2 end).
Proof.
  intros H1 H2. destruct x; [apply (costs_weaken n1) | apply (costs_weaken n2)];
    auto; lia.
Qed.

Lemma costs_make_request method url use_cache kwargs :
  costs 3 (_make_request method url use_cache kwargs).
Proof.
  intros st.
  destruct (make_request_cases method url use_cache kwargs st)
    as [(v & _ & ->) | (_ & v & st' & k & -> & Hk & Hhist & _)];
    unfold attempts_between; cbn [snd].
  - cbn [world on_self]. lia.
  - rewrite Hhist, length_app, repeat_length. lia.
Qed.

Lemma costs_download url : costs 3 (_download_from_raw_url url).
Proof.
  intros st. unfold _download_from_raw_url.
  destruct (download_loop_bounded 3 url (range 3) st)
    as (v & st' & k & -> & Hk & Hhist & _); [discriminate|].
  unfold attempts_between. cbn [snd].
  rewrite Hhist, length_app, repeat_length. simpl in Hk. lia.
Qed.

Ltac costs_step :=
  lazymatch goal with
  | |- costs _ (ret _) => apply costs_ret
  | |- costs _ (lift _) => apply costs_lift
  | |- costs _ (gets _) => apply costs_gets
  | |- costs _ datetime_now => apply costs_gets
  | |- costs _ (_make_request _ _ _ _) => apply costs_make_request
  | |- costs _ (_download_from_raw_url _) => apply costs_download
  | |- costs _ (cache_put _ _) => apply costs_cache_put
  | |- costs _ _clear_repo_cache => apply costs_clear_repo_cache
  | |- costs _ (modify (on_memos _)) => apply costs_modify_memos
  | |- costs _ (try_except _ _) => eapply costs_try; [|intros ?]
  | |- costs _ (bind _ _) => eapply costs_bind; [|intros ?]
  | |- costs _ (if _ then _ else _) => eapply costs_if
  | |- costs _ (match _ with Some _ => _ | None => _ end) =>
      eapply costs_option; [intros ?|]
  end.

Ltac costs_bound := eapply costs_weaken; [repeat costs_step | vm_compute; lia].

Lemma costs_cache_result n expiry memo func args kwargs :
  costs n func -> costs n (cache_result expiry memo func args kwargs).
Proof.
  intros Hfunc. unfold cache_result.
  eapply costs_weaken; [repeat first [costs_step | exact Hfunc]|].
  cbn [Nat.add Nat.max]. lia.
Qed.

Lemma costs_get_repo_by_name name : costs 3 (get_repo_by_name name).
Proof. unfold get_repo_by_name, get_repo_by_name_try. costs_bound. Qed.

Lemma costs_update repo path content message :
  costs 6 (_update_existing_file repo path content message).
Proof. unfold _update_existing_file, _update_existing_file_try. costs_bound. Qed.

Lemma costs_upload_file repo path content message :
  costs 9 (upload_file repo path content message).
Proof.
  unfold upload_file, upload_file_try.
  eapply costs_weaken; [repeat first [costs_step | apply costs_update]|].
  vm_compute. lia.
Qed.

(** X21.  The most a call can send.  Every dispatch stops after three
    attempts, so a repository lookup, a listing of repositories, a
    deletion and a metadata read make at most 3 calls into the session, a
    creation (with its lookup after a 422), a file listing (with its
    repository lookup) and a download (with its raw fetch) at most 6, an
    upload (create, fetch of the revision, update) at most 9, and a batch
    at most 9 per file. *)
Theorem request_budget :
  costs 3 get_user_repos
  /\ (forall name, costs 3 (get_repo_by_name name))
  /\ (forall name private, costs 6 (create_repo name private))
  /\ (forall repo path content message, costs 9 (upload_file repo path content message))
  /\ (forall repo files message,
        costs (9 * length files) (batch_upload_files repo files message))
  /\ (forall repo path, costs 6 (list_files repo path))
  /\ (forall repo path, costs 6 (download_file repo path))
  /\ (forall repo path sha message, costs 3 (delete_file repo path sha message))
  /\ (forall repo path, costs 3 (get_file_info repo path))
  /\ (forall repo, costs 9 (enable_lfs repo))
  /\ costs 0 clear_cache
  /\ costs 0 close.
Proof.
  split.
  { apply costs_cache_result.
    unfold get_user_repos_undecorated, get_user_repos_try. costs_bound. }
  split; [exact costs_get_repo_by_name|].
  split.
  { intros name private. unfold create_repo, create_repo_try, _get_existing_repo.
    eapply costs_weaken; [repeat first [costs_step | apply costs_get_repo_by_name]|].
    vm_compute. lia. }
  split; [exact costs_upload_file|].
  split.
  { intros repo files message.
    induction files as [|[path content] rest IH].
    - apply costs_ret.
    - change (batch_upload_files repo ((path, content) :: rest) message)
        with (bind (upload_file repo path content message) (fun result =>
                bind (batch_upload_files repo rest message) (fun results =>
                  ret (upload_record path result :: results)))).
      eapply costs_weaken.
      + eapply costs_bind; [apply costs_upload_file | intros result].
        eapply costs_bind; [exact IH | intros results; apply costs_ret].
      + cbn [length]. lia. }
  split.
  { intros repo path. apply costs_cache_result.
    unfold list_files_undecorated, list_files_try.
    eapply costs_weaken; [repeat first [costs_step | apply costs_get_repo_by_name]|].
    vm_compute. lia. }
  split.
  { intros repo path. unfold download_file, download_file_try, download_content.
    costs_bound. }
  split.
  { intros repo path sha message. unfold delete_file, delete_file_try. costs_bound. }
  split.
  { intros repo path. unfold get_file_info, get_file_info_try. costs_bound. }
  split.
  { intros repo. unfold enable_lfs, enable_lfs_try.
    eapply costs_weaken; [repeat first [costs_step | apply costs_upload_file]|].
    vm_compute. lia. }
  split; by apply costs_inert.
Qed.

(** The budget of an upload is reached. *)
Example upload_at_its_worst :
  let run := upload_file "drive" "notes.txt" (encode "new") "update notes" worst_upload in
  fst run = Ok notes_v2
  /\ attempts_between worst_upload (snd run) = 9
  /\ slept (world (snd run)) = [2; 3; 2; 3; 2; 3].
Proof. vm_compute. auto. Qed.

(** * A whole session

    Every method once, against a remote end that answers everything with
    the same small document: eleven requests go out, one call is answered
    from the cache, nothing is slept, and the counters survive
    [clear_cache] and [close]. *)
Example busy_morning_accounting :
  let st := after busy_morning (boot "token" "octocat" always_octocat) in
  request_count (self st) = 11
  /\ cached_requests (self st) = 1
  /\ length (history (world st)) = 11%nat
  /\ slept (world st) = []
  /\ session_open (self st) = false
  /\ token (self st) = "token".
Proof. vm_compute. auto 10. Qed.

(** * The session's own retries *)







(** The methods the client sends are all methods the adapter retries. *)
Example client_methods_retried :
  List.map method_retryable ["GET"; "POST"; "PUT"; "DELETE"; "get"] =
    [true; true; true; true; true]
  /\ method_retryable "PATCH" = false
  /\ List.map adapter_backoff [1; 2; 3]%nat = [0; 2; 4].
Proof. vm_compute. auto. Qed.

(** Three 503 responses and the document that follows: the call returns
    the document, having slept nothing itself; the six seconds are the
    adapter's. *)
Example three_failures_absorbed :
  let run := _make_request "GET" user_url true []
               (boot "token" "octocat" (own_session wire_flaky)) in
  fst run = Ok (response_obj octocat)
  /\ request_count (self (snd run)) = 1
  /\ slept (world (snd run)) = []
  /\ now (world (snd run)) = 4 * 1000 + seconds 6
  /\ length (wire_history wire_flaky (history (world (snd run)))) = 4%nat.
Proof. vm_compute. auto. Qed.


(** The wire refuses the connection nine times and then answers.  Each
    call into the session uses up its four exchanges and raises a
    connection error, which the loop of [_make_request] does retry: it
    sleeps 2 and 3 seconds, and its third call, the last of the budget,
    gets the tenth exchange, where the first retry of the adapter succeeds. *)
Example connection_failures_retried :
  let wire := wire_scripted
                [ConnectFailed; ConnectFailed; ConnectFailed; ConnectFailed;
                 ConnectFailed; ConnectFailed; ConnectFailed; ConnectFailed;
                 ConnectFailed; Answered octocat] 1000 in
  let run := _make_request "GET" user_url true []
               (boot "token" "octocat" (own_session wire)) in
  fst run = Ok (response_obj octocat)
  /\ request_count (self (snd run)) = 3
  /\ slept (world (snd run)) = [2; 3]
  /\ length (wire_history wire (history (world (snd run)))) = 10%nat.
Proof. vm_compute. auto. Qed.

(** * Reading twice *)

(** C3 (as amended).  Two GET reads of the same URL and keyword arguments
    through [_make_request], caching on.  When the first read returned a
    response with a status below 400, that response is in the cache, and a
    second read within the TTL returns the very same response without a
    request: the world and [request_count] are as they were and
    [cached_requests] is one more.  When the first read ended in [None] or
    in a status of 400 or more, nothing was stored and the second read goes
    to the network again.  A read that is repeated above the dispatch, by
    the dictionary of a [cache_result] decorator or by the [repo_] entry of
    [get_repo_by_name], also returns the same value without a request, but
    there no counter moves at all. *)
Theorem cached_read_repeats method url kwargs st v st1 :
  upper method = "GET" ->
  _make_request method url true kwargs st = (Ok v, st1) ->
  (is_success v ->
   exists stored_at,
     cache (self st1) !! request_cache_key url kwargs = Some (v, stored_at)
     /\ (cached_response (request_key method url true kwargs) st = None ->
         stored_at = now (world st1))
     /\ forall st2,
         cache (self st2) !! request_cache_key url kwargs = Some (v, stored_at) ->
         now (world st2) - stored_at < seconds (cache_expiry (self st2)) ->
         exists st2',
           _make_request method url true kwargs st2 = (Ok v, st2')
           /\ world st2' = world st2
           /\ request_count (self st2') = request_count (self st2)
           /\ cached_requests (self st2') = cached_requests (self st2) + 1
           /\ cache (self st2') = cache (self st2))
  /\ (~ is_success v ->
      cache (self st1) = cache (self st)
      /\ (cache (self st) !! request_cache_key url kwargs = None ->
          forall elapsed, exists v2 st2 k,
            _make_request method url true kwargs (idle elapsed st1) = (Ok v2, st2)
            /\ (1 <= k <= 3)%nat
            /\ history (world st2) =
               (history (world st1) ++ repeat (physical method url kwargs) k)%list
            /\ request_count (self st2) = request_count (self st1) + Z.of_nat k
            /\ cached_requests (self st2) = cached_requests (self st1)))
  /\ (forall expiry memo func args kw st0 r st0',
        cache_result expiry memo func args kw st0 = (Ok r, st0') ->
        is_none r = false ->
        exists stored_at,
          memo_of memo (memos st0') !! memo_key args kw = Some (r, stored_at)
          /\ forall st2,
              memos st2 = memos st0' ->
              now (world st2) - stored_at < seconds expiry ->
              cache_result expiry memo func args kw st2 = (Ok r, st2))
  /\ (forall name st0 doc stored_at,
        cache (self st0) !! ("repo_" +:+ name) = Some (doc, stored_at) ->
        now (world st0) - stored_at < seconds (cache_expiry (self st0)) ->
        get_repo_by_name name st0 = (Ok doc, st0)).
Proof.
  intros Hget Hread.
  split; [intros Hsuccess; by apply (dispatch_read_repeats method url kwargs st v st1)|].
  split.
  { intros Hfailure.
    assert (cache (self st1) = cache (self st)) as Hcache.
    { destruct (make_request_cases method url true kwargs st)
        as [(v' & _ & Heq) | (_ & v' & st' & k & Heq & _ & Hdisp)];
        rewrite Hread in Heq.
      - by injection Heq as _ ->.
      - injection Heq as <- <-.
        by apply (dispatched_not_success _ _ _ _ _ _ Hdisp). }
    split; [exact Hcache|].
    intros Habsent elapsed.
    assert (cached_response (request_key method url true kwargs) (idle elapsed st1) = None)
      as Hmiss.
    { rewrite (request_key_get method url kwargs Hget).
      unfold cached_response, fresh_entry.
      change (cache (self (idle elapsed st1))) with (cache (self st1)).
      by rewrite Hcache, Habsent. }
    destruct (make_request_miss method url true kwargs (idle elapsed st1) Hmiss)
      as (v2 & st2 & k & Heq & Hk & (Hhist & Hcount & Hcached & _) & _).
    exists v2, st2, k. split; [exact Heq|]. split; [exact Hk|].
    split; [exact Hhist|]. split; [exact Hcount | exact Hcached]. }
  split.
  { intros expiry memo func args kw st0 r st0' Hcall Hsome.
    destruct (cache_result_stored expiry memo func args kw st0 r st0' Hcall Hsome)
      as (stored_at & Hstored).
    exists stored_at. split; [exact Hstored|].
    intros st2 Hmemos Hfresh.
    apply cache_result_hit with (stored_at := stored_at); [|exact Hfresh].
    by rewrite Hmemos. }
  intros name st0 doc stored_at. apply get_repo_by_name_hit.
Qed.

Lemma cached_read_repeats_witness :
  (is_success (response_obj octocat) ->
   exists stored_at,
     cache (self (snd first_read)) !! request_cache_key user_url [] =
       Some (response_obj octocat, stored_at)
     /\ (cached_response (request_key "GET" user_url true []) one_answer = None ->
         stored_at = now (world (snd first_read)))
     /\ forall st2,
         cache (self st2) !! request_cache_key user_url [] =
           Some (response_obj octocat, stored_at) ->
         now (world st2) - stored_at < seconds (cache_expiry (self st2)) ->
         exists st2',
           _make_request "GET" user_url true [] st2 = (Ok (response_obj octocat), st2')
           /\ world st2' = world st2
           /\ request_count (self st2') = request_count (self st2)
           /\ cached_requests (self st2') = cached_requests (self st2) + 1
           /\ cache (self st2') = cache (self st2))
  /\ (~ is_success (response_obj octocat) ->
      cache (self (snd first_read)) = cache (self one_answer)
      /\ (cache (self one_answer) !! request_cache_key user_url [] = None ->
          forall elapsed, exists v2 st2 k,
            _make_request "GET" user_url true [] (idle elapsed (snd first_read)) = (Ok v2, st2)
            /\ (1 <= k <= 3)%nat
            /\ history (world st2) =
               (history (world (snd first_read)) ++ repeat (physical "GET" user_url []) k)%list
            /\ request_count (self st2) = request_count (self (snd first_read)) + Z.of_nat k
            /\ cached_requests (self st2) = cached_requests (self (snd first_read))))
  /\ (forall expiry memo func args kw st0 r st0',
        cache_result expiry memo func args kw st0 = (Ok r, st0') ->
        is_none r = false ->
        exists stored_at,
          memo_of memo (memos st0') !! memo_key args kw = Some (r, stored_at)
          /\ forall st2,
              memos st2 = memos st0' ->
              now (world st2) - stored_at < seconds expiry ->
              cache_result expiry memo func args kw st2 = (Ok r, st2))
  /\ (forall name st0 doc stored_at,
        cache (self st0) !! ("repo_" +:+ name) = Some (doc, stored_at) ->
        now (world st0) - stored_at < seconds (cache_expiry (self st0)) ->
        get_repo_by_name name st0 = (Ok doc, st0)).
Proof.
  apply (cached_read_repeats "GET" user_url [] one_answer
           (response_obj octocat) (snd first_read)).
  - reflexivity.
  - vm_compute. reflexivity.
Defined.

(** The listing read twice: the second read is answered by the decorator
    and [cached_requests] stays at 0.  And a read answered 404 is not
    repeated from the cache: the second read goes out and brings the
    document. *)
Lemma cached_read_counterexample : ~ repeat_read_counted /\ ~ repeat_read_silent.
Proof.
  split.
  - intros H.
    destruct (H one_answer
                (PyDict [("login", PyStr "octocat")])
                (snd (get_user_repos one_answer))
                (PyDict [("login", PyStr "octocat")])
                (snd (get_user_repos (snd (get_user_repos one_answer)))))
      as (_ & _ & _ & Hcounted); try (vm_compute; reflexivity).
    vm_compute in Hcounted. discriminate Hcounted.
  - intros H.
    destruct (H "GET" user_url [] missing_resource
                (response_obj not_found)
                (snd (_make_request "GET" user_url true [] missing_resource))
                (response_obj octocat)
                (snd (_make_request "GET" user_url true []
                        (snd (_make_request "GET" user_url true [] missing_resource)))))
      as (Hsame & _); try (vm_compute; reflexivity).
    discriminate Hsame.
Qed.

Example listing_read_twice :
  let st1 := snd (get_user_repos one_answer) in
  let st2 := snd (get_user_repos st1) in
  fst (get_user_repos st1) = fst (get_user_repos one_answer)
  /\ history (world st2) = history (world st1)
  /\ (request_count (self st1), cached_requests (self st1)) = (1, 0)
  /\ (request_count (self st2), cached_requests (self st2)) = (1, 0).
Proof. vm_compute. auto. Qed.

(** * The usage snapshot *)

(** [1 / 3], [1 / 2] and [3 / 2] as Python computes them:
    [0.3333333333333333 = 6004799503160661 * 2 ^ -54], and the other two
    exactly.  A quotient past the largest float raises. *)
Example true_divide_values :
  true_divide 1 3 = Ok (SpecFloat.S754_finite false 6004799503160661 (-54))
  /\ true_divide 1 2 = Ok (SpecFloat.S754_finite false 4503599627370496 (-53))
  /\ true_divide 3 2 = Ok (SpecFloat.S754_finite false 6755399441055744 (-52))
  /\ true_divide 0 7 = Ok (SpecFloat.S754_zero false)
  /\ true_divide (2 ^ 53 + 1) 1 = Ok (SpecFloat.S754_finite false 4503599627370496 1)
  /\ true_divide (2 ^ 1024) 1 = Raise OtherException.
Proof. vm_compute. auto 10. Qed.




Example read_twice_stats :
  get_api_usage_stats (self (run read_twice one_answer)) =
    Ok (mkUsageStats 1 1
          (FloatNumber (SpecFloat.S754_finite false 4503599627370496 (-52))))
  /\ cache_hits read_twice one_answer = 1.
Proof. vm_compute. auto. Qed.

(** Listing the repositories twice: the second listing is answered by the
    decorator, no request goes out, and the snapshot still says one
    request and no cached request. *)
Example decorator_hits_not_counted :
  let st1 := snd (get_user_repos one_answer) in
  let st2 := snd (get_user_repos st1) in
  history (world st2) = history (world st1)
  /\ get_api_usage_stats (self st1) =
     Ok (mkUsageStats 1 0 (FloatNumber (SpecFloat.S754_zero false)))
  /\ get_api_usage_stats (self st2) = get_api_usage_stats (self st1).
Proof. vm_compute. auto. Qed.

(** * The download, outcome by outcome *)





(** The same download read off the run, with the inline branch and the
    answers that end a download at once: a 404 gives [None] after one
    request. *)
Example download_runs :
  let inline := download_file "drive" "notes.txt" inline_notes in
  let st := boot "token" "octocat"
              (scripted [respond 200 (Some big_file) []; Responded not_here;
                         respond 200 None [1; 2; 3]] 1000) in
  let run := download_file "drive" "big.bin" st in
  fst inline = Ok (PyBytes (encode "old"))
  /\ length (history (world (snd inline))) = 1%nat
  /\ fst run = Ok PyNone
  /\ drop 1 (history (world (snd run))) = [raw_request raw_url]
  /\ slept (world (snd run)) = [].
Proof. vm_compute. auto. Qed.
